(** * TurboStitchGIF ([gif.h]): a shallow embedding of the decoder

    The header is compiled without [GIF_MODE_TURBO] unless the user defines
    it, so the decoder modelled here is the default ("safe") configuration:
    the [#else] branches of [gif.h].  The line-flush block (interlace
    mapping and compositor) is textually the same in both configurations.

    Conventions of the embedding.
    - C integers are [Z]; every conversion to a narrower or unsigned type
      that the C code performs is written out ([u8], [u16], [u32], [i16],
      [size_t]).
    - Arrays are [list Z] (one element per array cell).  The four regions of
      the scratch buffer and the caller's canvas are separate lists.  An
      access outside its array is undefined behaviour in C; here a read
      outside yields 0 and a write outside is dropped ([rd], [wr]).  The
      regions are parts of one C array, so a read that runs from the end of
      one region into the next is defined in C and yields the bytes found
      there, while here it yields 0 too: the 32-bit window of
      [GET_LZW_CODE] does so once the read offset is within three bytes of
      the end of the LZW buffer.  Statements about the value of that window
      take it inside the buffer.
    - [memcpy] to and from integers assumes a little-endian host, as the
      source does ([gif_read_u16_le]).
    - Unbounded [while] loops take a fuel argument and return [None] when it
      runs out.
    - The error callback is modelled by the list of calls made to it. *)

From stdpp Require Import base numbers list option strings.

Local Open Scope Z_scope.

(** ** Integer conversions *)

Definition u8 (z : Z) : Z := z mod 256.
Definition u16 (z : Z) : Z := z mod 65536.
Definition u32 (z : Z) : Z := z mod 4294967296.
Definition size_t (z : Z) : Z := z mod 18446744073709551616.

(** Conversion to [int16_t] (two's complement). *)
Definition i16 (z : Z) : Z :=
  let w := z mod 65536 in if w <? 32768 then w else w - 65536.

(** ** Arrays *)

Definition rd (l : list Z) (i : Z) : Z :=
  if i <? 0 then 0 else default 0 (l !! Z.to_nat i).

Definition wr (l : list Z) (i v : Z) : list Z :=
  if i <? 0 then l else <[Z.to_nat i := v]> l.

(** Store the cells [src] into [l] from index [off] on ([memcpy],
    [memmove]); cells that fall outside [l] are dropped. *)
Fixpoint wr_seq_at (l : list Z) (off : nat) (src : list Z) : list Z :=
  match l with
  | [] => []
  | x :: l' =>
      match off with
      | S off' => x :: wr_seq_at l' off' src
      | O =>
          match src with
          | [] => l
          | b :: src' => b :: wr_seq_at l' O src'
          end
      end
  end.

Definition wr_seq (l : list Z) (off : Z) (src : list Z) : list Z :=
  if off <? 0 then wr_seq_at l 0 (drop (Z.to_nat (- off)) src)
  else wr_seq_at l (Z.to_nat off) src.

(** The [n] cells of [l] from index [off] on. *)
Fixpoint rd_seq (l : list Z) (off : Z) (n : nat) : list Z :=
  match n with
  | O => []
  | S n' => rd l off :: rd_seq l (off + 1) n'
  end.

(** A [uint16_t] array laid over a byte region. *)
Fixpoint u16_cells (bytes : list Z) (n : nat) : list Z :=
  match n with
  | O => []
  | S n' => (rd bytes 0 + 256 * rd bytes 1) :: u16_cells (drop 2 bytes) n'
  end.

(** ** Constants and configuration *)

Definition GIF_MAX_WIDTH : Z := 480.
Definition GIF_MAX_COLORS : Z := 256.
Definition GIF_MAX_CODE_SIZE : Z := 12.
Definition GIF_LZW_CHUNK_SIZE : Z := 255.
Definition GIF_LZW_BASE_BUF_SIZE : Z := 6 * GIF_LZW_CHUNK_SIZE.
Definition GIF_LZW_TABLE_ENTRIES : Z := Z.shiftl 1 GIF_MAX_CODE_SIZE.

Definition GIF_SCRATCH_LZW_TABLE_SIZE : Z := GIF_LZW_TABLE_ENTRIES * 2.
Definition GIF_SCRATCH_LZW_PIXELS_SIZE : Z := GIF_LZW_TABLE_ENTRIES * 2 * 1.
Definition GIF_SCRATCH_LZW_MAIN_BUF_SIZE : Z := GIF_LZW_BASE_BUF_SIZE.
Definition GIF_SCRATCH_BUFFER_REQUIRED_SIZE : Z :=
  GIF_SCRATCH_LZW_MAIN_BUF_SIZE + GIF_SCRATCH_LZW_TABLE_SIZE
  + GIF_SCRATCH_LZW_PIXELS_SIZE + GIF_MAX_WIDTH.

(** ** Error codes *)

Definition GIF_SUCCESS : Z := 0.
Definition GIF_ERROR_DECODE : Z := 1.
Definition GIF_ERROR_INVALID_PARAM : Z := 2.
Definition GIF_ERROR_BAD_FILE : Z := 3.
Definition GIF_ERROR_EARLY_EOF : Z := 4.
Definition GIF_ERROR_NO_FRAME : Z := 5.
Definition GIF_ERROR_BUFFER_TOO_SMALL : Z := 6.
Definition GIF_ERROR_INVALID_FRAME_DIMENSIONS : Z := 7.
Definition GIF_ERROR_UNSUPPORTED_COLOR_DEPTH : Z := 8.

(** ** The context *)

(** What [active_palette_colors] points to. *)
Inductive palette_ref : Type :=
  | palette_null
  | palette_global
  | palette_local.

(** [GIF_Context].  [error_callback] tells whether a callback is installed;
    [callback_calls] is the sequence of calls [(error_code, message)] it has
    received. *)
Record GIF_Context : Type := {
  gif_data : list Z;
  gif_size : Z;
  current_pos : Z;
  canvas_width : Z;
  canvas_height : Z;
  frame_width : Z;
  frame_height : Z;
  frame_x_off : Z;
  frame_y_off : Z;
  frame_delay_ms : Z;
  loop_count : Z;
  background_index : Z;
  transparent_index : Z;
  has_transparency : Z;
  disposal_method : Z;
  ucGIFBits : Z;
  global_palette_colors : list Z;
  local_palette_colors : list Z;
  active_palette_colors : palette_ref;
  lzw_code_start_size : Z;
  lzw_end_of_frame : Z;
  lzw_read_offset : Z;
  lzw_data_size : Z;
  scratch_lzw_buffer : list Z;
  scratch_lzw_table : list Z;
  scratch_lzw_pixels : list Z;
  scratch_line_buffer : list Z;
  anim_start_pos : Z;
  file_buf : list Z;
  error_callback : bool;
  callback_calls : list (Z * string)
}.

(** Field assignments [ctx->f = v]. *)

Definition set_current_pos (v : Z) (ctx : GIF_Context) : GIF_Context :=
  {| gif_data := gif_data ctx; gif_size := gif_size ctx; current_pos := v; canvas_width :=
     canvas_width ctx; canvas_height := canvas_height ctx; frame_width := frame_width ctx;
     frame_height := frame_height ctx; frame_x_off := frame_x_off ctx; frame_y_off := frame_y_off
     ctx; frame_delay_ms := frame_delay_ms ctx; loop_count := loop_count ctx; background_index :=
     background_index ctx; transparent_index := transparent_index ctx; has_transparency :=
     has_transparency ctx; disposal_method := disposal_method ctx; ucGIFBits := ucGIFBits ctx;
     global_palette_colors := global_palette_colors ctx; local_palette_colors :=
     local_palette_colors ctx; active_palette_colors := active_palette_colors ctx;
     lzw_code_start_size := lzw_code_start_size ctx; lzw_end_of_frame := lzw_end_of_frame ctx;
     lzw_read_offset := lzw_read_offset ctx; lzw_data_size := lzw_data_size ctx;
     scratch_lzw_buffer := scratch_lzw_buffer ctx; scratch_lzw_table := scratch_lzw_table ctx;
     scratch_lzw_pixels := scratch_lzw_pixels ctx; scratch_line_buffer := scratch_line_buffer
     ctx; anim_start_pos := anim_start_pos ctx; file_buf := file_buf ctx; error_callback :=
     error_callback ctx; callback_calls := callback_calls ctx |}.

Definition set_frame_width (v : Z) (ctx : GIF_Context) : GIF_Context :=
  {| gif_data := gif_data ctx; gif_size := gif_size ctx; current_pos := current_pos ctx;
     canvas_width := canvas_width ctx; canvas_height := canvas_height ctx; frame_width := v;
     frame_height := frame_height ctx; frame_x_off := frame_x_off ctx; frame_y_off := frame_y_off
     ctx; frame_delay_ms := frame_delay_ms ctx; loop_count := loop_count ctx; background_index :=
     background_index ctx; transparent_index := transparent_index ctx; has_transparency :=
     has_transparency ctx; disposal_method := disposal_method ctx; ucGIFBits := ucGIFBits ctx;
     global_palette_colors := global_palette_colors ctx; local_palette_colors :=
     local_palette_colors ctx; active_palette_colors := active_palette_colors ctx;
     lzw_code_start_size := lzw_code_start_size ctx; lzw_end_of_frame := lzw_end_of_frame ctx;
     lzw_read_offset := lzw_read_offset ctx; lzw_data_size := lzw_data_size ctx;
     scratch_lzw_buffer := scratch_lzw_buffer ctx; scratch_lzw_table := scratch_lzw_table ctx;
     scratch_lzw_pixels := scratch_lzw_pixels ctx; scratch_line_buffer := scratch_line_buffer
     ctx; anim_start_pos := anim_start_pos ctx; file_buf := file_buf ctx; error_callback :=
     error_callback ctx; callback_calls := callback_calls ctx |}.

Definition set_frame_height (v : Z) (ctx : GIF_Context) : GIF_Context :=
  {| gif_data := gif_data ctx; gif_size := gif_size ctx; current_pos := current_pos ctx;
     canvas_width := canvas_width ctx; canvas_height := canvas_height ctx; frame_width :=
     frame_width ctx; frame_height := v; frame_x_off := frame_x_off ctx; frame_y_off :=
     frame_y_off ctx; frame_delay_ms := frame_delay_ms ctx; loop_count := loop_count ctx;
     background_index := background_index ctx; transparent_index := transparent_index ctx;
     has_transparency := has_transparency ctx; disposal_method := disposal_method ctx; ucGIFBits
     := ucGIFBits ctx; global_palette_colors := global_palette_colors ctx; local_palette_colors
     := local_palette_colors ctx; active_palette_colors := active_palette_colors ctx;
     lzw_code_start_size := lzw_code_start_size ctx; lzw_end_of_frame := lzw_end_of_frame ctx;
     lzw_read_offset := lzw_read_offset ctx; lzw_data_size := lzw_data_size ctx;
     scratch_lzw_buffer := scratch_lzw_buffer ctx; scratch_lzw_table := scratch_lzw_table ctx;
     scratch_lzw_pixels := scratch_lzw_pixels ctx; scratch_line_buffer := scratch_line_buffer
     ctx; anim_start_pos := anim_start_pos ctx; file_buf := file_buf ctx; error_callback :=
     error_callback ctx; callback_calls := callback_calls ctx |}.

Definition set_frame_x_off (v : Z) (ctx : GIF_Context) : GIF_Context :=
  {| gif_data := gif_data ctx; gif_size := gif_size ctx; current_pos := current_pos ctx;
     canvas_width := canvas_width ctx; canvas_height := canvas_height ctx; frame_width :=
     frame_width ctx; frame_height := frame_height ctx; frame_x_off := v; frame_y_off :=
     frame_y_off ctx; frame_delay_ms := frame_delay_ms ctx; loop_count := loop_count ctx;
     background_index := background_index ctx; transparent_index := transparent_index ctx;
     has_transparency := has_transparency ctx; disposal_method := disposal_method ctx; ucGIFBits
     := ucGIFBits ctx; global_palette_colors := global_palette_colors ctx; local_palette_colors
     := local_palette_colors ctx; active_palette_colors := active_palette_colors ctx;
     lzw_code_start_size := lzw_code_start_size ctx; lzw_end_of_frame := lzw_end_of_frame ctx;
     lzw_read_offset := lzw_read_offset ctx; lzw_data_size := lzw_data_size ctx;
     scratch_lzw_buffer := scratch_lzw_buffer ctx; scratch_lzw_table := scratch_lzw_table ctx;
     scratch_lzw_pixels := scratch_lzw_pixels ctx; scratch_line_buffer := scratch_line_buffer
     ctx; anim_start_pos := anim_start_pos ctx; file_buf := file_buf ctx; error_callback :=
     error_callback ctx; callback_calls := callback_calls ctx |}.

Definition set_frame_y_off (v : Z) (ctx : GIF_Context) : GIF_Context :=
  {| gif_data := gif_data ctx; gif_size := gif_size ctx; current_pos := current_pos ctx;
     canvas_width := canvas_width ctx; canvas_height := canvas_height ctx; frame_width :=
     frame_width ctx; frame_height := frame_height ctx; frame_x_off := frame_x_off ctx;
     frame_y_off := v; frame_delay_ms := frame_delay_ms ctx; loop_count := loop_count ctx;
     background_index := background_index ctx; transparent_index := transparent_index ctx;
     has_transparency := has_transparency ctx; disposal_method := disposal_method ctx; ucGIFBits
     := ucGIFBits ctx; global_palette_colors := global_palette_colors ctx; local_palette_colors
     := local_palette_colors ctx; active_palette_colors := active_palette_colors ctx;
     lzw_code_start_size := lzw_code_start_size ctx; lzw_end_of_frame := lzw_end_of_frame ctx;
     lzw_read_offset := lzw_read_offset ctx; lzw_data_size := lzw_data_size ctx;
     scratch_lzw_buffer := scratch_lzw_buffer ctx; scratch_lzw_table := scratch_lzw_table ctx;
     scratch_lzw_pixels := scratch_lzw_pixels ctx; scratch_line_buffer := scratch_line_buffer
     ctx; anim_start_pos := anim_start_pos ctx; file_buf := file_buf ctx; error_callback :=
     error_callback ctx; callback_calls := callback_calls ctx |}.

Definition set_frame_delay_ms (v : Z) (ctx : GIF_Context) : GIF_Context :=
  {| gif_data := gif_data ctx; gif_size := gif_size ctx; current_pos := current_pos ctx;
     canvas_width := canvas_width ctx; canvas_height := canvas_height ctx; frame_width :=
     frame_width ctx; frame_height := frame_height ctx; frame_x_off := frame_x_off ctx;
     frame_y_off := frame_y_off ctx; frame_delay_ms := v; loop_count := loop_count ctx;
     background_index := background_index ctx; transparent_index := transparent_index ctx;
     has_transparency := has_transparency ctx; disposal_method := disposal_method ctx; ucGIFBits
     := ucGIFBits ctx; global_palette_colors := global_palette_colors ctx; local_palette_colors
     := local_palette_colors ctx; active_palette_colors := active_palette_colors ctx;
     lzw_code_start_size := lzw_code_start_size ctx; lzw_end_of_frame := lzw_end_of_frame ctx;
     lzw_read_offset := lzw_read_offset ctx; lzw_data_size := lzw_data_size ctx;
     scratch_lzw_buffer := scratch_lzw_buffer ctx; scratch_lzw_table := scratch_lzw_table ctx;
     scratch_lzw_pixels := scratch_lzw_pixels ctx; scratch_line_buffer := scratch_line_buffer
     ctx; anim_start_pos := anim_start_pos ctx; file_buf := file_buf ctx; error_callback :=
     error_callback ctx; callback_calls := callback_calls ctx |}.

Definition set_loop_count (v : Z) (ctx : GIF_Context) : GIF_Context :=
  {| gif_data := gif_data ctx; gif_size := gif_size ctx; current_pos := current_pos ctx;
     canvas_width := canvas_width ctx; canvas_height := canvas_height ctx; frame_width :=
     frame_width ctx; frame_height := frame_height ctx; frame_x_off := frame_x_off ctx;
     frame_y_off := frame_y_off ctx; frame_delay_ms := frame_delay_ms ctx; loop_count := v;
     background_index := background_index ctx; transparent_index := transparent_index ctx;
     has_transparency := has_transparency ctx; disposal_method := disposal_method ctx; ucGIFBits
     := ucGIFBits ctx; global_palette_colors := global_palette_colors ctx; local_palette_colors
     := local_palette_colors ctx; active_palette_colors := active_palette_colors ctx;
     lzw_code_start_size := lzw_code_start_size ctx; lzw_end_of_frame := lzw_end_of_frame ctx;
     lzw_read_offset := lzw_read_offset ctx; lzw_data_size := lzw_data_size ctx;
     scratch_lzw_buffer := scratch_lzw_buffer ctx; scratch_lzw_table := scratch_lzw_table ctx;
     scratch_lzw_pixels := scratch_lzw_pixels ctx; scratch_line_buffer := scratch_line_buffer
     ctx; anim_start_pos := anim_start_pos ctx; file_buf := file_buf ctx; error_callback :=
     error_callback ctx; callback_calls := callback_calls ctx |}.

Definition set_background_index (v : Z) (ctx : GIF_Context) : GIF_Context :=
  {| gif_data := gif_data ctx; gif_size := gif_size ctx; current_pos := current_pos ctx;
     canvas_width := canvas_width ctx; canvas_height := canvas_height ctx; frame_width :=
     frame_width ctx; frame_height := frame_height ctx; frame_x_off := frame_x_off ctx;
     frame_y_off := frame_y_off ctx; frame_delay_ms := frame_delay_ms ctx; loop_count :=
     loop_count ctx; background_index := v; transparent_index := transparent_index ctx;
     has_transparency := has_transparency ctx; disposal_method := disposal_method ctx; ucGIFBits
     := ucGIFBits ctx; global_palette_colors := global_palette_colors ctx; local_palette_colors
     := local_palette_colors ctx; active_palette_colors := active_palette_colors ctx;
     lzw_code_start_size := lzw_code_start_size ctx; lzw_end_of_frame := lzw_end_of_frame ctx;
     lzw_read_offset := lzw_read_offset ctx; lzw_data_size := lzw_data_size ctx;
     scratch_lzw_buffer := scratch_lzw_buffer ctx; scratch_lzw_table := scratch_lzw_table ctx;
     scratch_lzw_pixels := scratch_lzw_pixels ctx; scratch_line_buffer := scratch_line_buffer
     ctx; anim_start_pos := anim_start_pos ctx; file_buf := file_buf ctx; error_callback :=
     error_callback ctx; callback_calls := callback_calls ctx |}.

Definition set_transparent_index (v : Z) (ctx : GIF_Context) : GIF_Context :=
  {| gif_data := gif_data ctx; gif_size := gif_size ctx; current_pos := current_pos ctx;
     canvas_width := canvas_width ctx; canvas_height := canvas_height ctx; frame_width :=
     frame_width ctx; frame_height := frame_height ctx; frame_x_off := frame_x_off ctx;
     frame_y_off := frame_y_off ctx; frame_delay_ms := frame_delay_ms ctx; loop_count :=
     loop_count ctx; background_index := background_index ctx; transparent_index := v;
     has_transparency := has_transparency ctx; disposal_method := disposal_method ctx; ucGIFBits
     := ucGIFBits ctx; global_palette_colors := global_palette_colors ctx; local_palette_colors
     := local_palette_colors ctx; active_palette_colors := active_palette_colors ctx;
     lzw_code_start_size := lzw_code_start_size ctx; lzw_end_of_frame := lzw_end_of_frame ctx;
     lzw_read_offset := lzw_read_offset ctx; lzw_data_size := lzw_data_size ctx;
     scratch_lzw_buffer := scratch_lzw_buffer ctx; scratch_lzw_table := scratch_lzw_table ctx;
     scratch_lzw_pixels := scratch_lzw_pixels ctx; scratch_line_buffer := scratch_line_buffer
     ctx; anim_start_pos := anim_start_pos ctx; file_buf := file_buf ctx; error_callback :=
     error_callback ctx; callback_calls := callback_calls ctx |}.

Definition set_has_transparency (v : Z) (ctx : GIF_Context) : GIF_Context :=
  {| gif_data := gif_data ctx; gif_size := gif_size ctx; current_pos := current_pos ctx;
     canvas_width := canvas_width ctx; canvas_height := canvas_height ctx; frame_width :=
     frame_width ctx; frame_height := frame_height ctx; frame_x_off := frame_x_off ctx;
     frame_y_off := frame_y_off ctx; frame_delay_ms := frame_delay_ms ctx; loop_count :=
     loop_count ctx; background_index := background_index ctx; transparent_index :=
     transparent_index ctx; has_transparency := v; disposal_method := disposal_method ctx;
     ucGIFBits := ucGIFBits ctx; global_palette_colors := global_palette_colors ctx;
     local_palette_colors := local_palette_colors ctx; active_palette_colors :=
     active_palette_colors ctx; lzw_code_start_size := lzw_code_start_size ctx; lzw_end_of_frame
     := lzw_end_of_frame ctx; lzw_read_offset := lzw_read_offset ctx; lzw_data_size :=
     lzw_data_size ctx; scratch_lzw_buffer := scratch_lzw_buffer ctx; scratch_lzw_table :=
     scratch_lzw_table ctx; scratch_lzw_pixels := scratch_lzw_pixels ctx; scratch_line_buffer :=
     scratch_line_buffer ctx; anim_start_pos := anim_start_pos ctx; file_buf := file_buf ctx;
     error_callback := error_callback ctx; callback_calls := callback_calls ctx |}.

Definition set_disposal_method (v : Z) (ctx : GIF_Context) : GIF_Context :=
  {| gif_data := gif_data ctx; gif_size := gif_size ctx; current_pos := current_pos ctx;
     canvas_width := canvas_width ctx; canvas_height := canvas_height ctx; frame_width :=
     frame_width ctx; frame_height := frame_height ctx; frame_x_off := frame_x_off ctx;
     frame_y_off := frame_y_off ctx; frame_delay_ms := frame_delay_ms ctx; loop_count :=
     loop_count ctx; background_index := background_index ctx; transparent_index :=
     transparent_index ctx; has_transparency := has_transparency ctx; disposal_method := v;
     ucGIFBits := ucGIFBits ctx; global_palette_colors := global_palette_colors ctx;
     local_palette_colors := local_palette_colors ctx; active_palette_colors :=
     active_palette_colors ctx; lzw_code_start_size := lzw_code_start_size ctx; lzw_end_of_frame
     := lzw_end_of_frame ctx; lzw_read_offset := lzw_read_offset ctx; lzw_data_size :=
     lzw_data_size ctx; scratch_lzw_buffer := scratch_lzw_buffer ctx; scratch_lzw_table :=
     scratch_lzw_table ctx; scratch_lzw_pixels := scratch_lzw_pixels ctx; scratch_line_buffer :=
     scratch_line_buffer ctx; anim_start_pos := anim_start_pos ctx; file_buf := file_buf ctx;
     error_callback := error_callback ctx; callback_calls := callback_calls ctx |}.

Definition set_ucGIFBits (v : Z) (ctx : GIF_Context) : GIF_Context :=
  {| gif_data := gif_data ctx; gif_size := gif_size ctx; current_pos := current_pos ctx;
     canvas_width := canvas_width ctx; canvas_height := canvas_height ctx; frame_width :=
     frame_width ctx; frame_height := frame_height ctx; frame_x_off := frame_x_off ctx;
     frame_y_off := frame_y_off ctx; frame_delay_ms := frame_delay_ms ctx; loop_count :=
     loop_count ctx; background_index := background_index ctx; transparent_index :=
     transparent_index ctx; has_transparency := has_transparency ctx; disposal_method :=
     disposal_method ctx; ucGIFBits := v; global_palette_colors := global_palette_colors ctx;
     local_palette_colors := local_palette_colors ctx; active_palette_colors :=
     active_palette_colors ctx; lzw_code_start_size := lzw_code_start_size ctx; lzw_end_of_frame
     := lzw_end_of_frame ctx; lzw_read_offset := lzw_read_offset ctx; lzw_data_size :=
     lzw_data_size ctx; scratch_lzw_buffer := scratch_lzw_buffer ctx; scratch_lzw_table :=
     scratch_lzw_table ctx; scratch_lzw_pixels := scratch_lzw_pixels ctx; scratch_line_buffer :=
     scratch_line_buffer ctx; anim_start_pos := anim_start_pos ctx; file_buf := file_buf ctx;
     error_callback := error_callback ctx; callback_calls := callback_calls ctx |}.

Definition set_global_palette_colors (v : list Z) (ctx : GIF_Context) : GIF_Context :=
  {| gif_data := gif_data ctx; gif_size := gif_size ctx; current_pos := current_pos ctx;
     canvas_width := canvas_width ctx; canvas_height := canvas_height ctx; frame_width :=
     frame_width ctx; frame_height := frame_height ctx; frame_x_off := frame_x_off ctx;
     frame_y_off := frame_y_off ctx; frame_delay_ms := frame_delay_ms ctx; loop_count :=
     loop_count ctx; background_index := background_index ctx; transparent_index :=
     transparent_index ctx; has_transparency := has_transparency ctx; disposal_method :=
     disposal_method ctx; ucGIFBits := ucGIFBits ctx; global_palette_colors := v;
     local_palette_colors := local_palette_colors ctx; active_palette_colors :=
     active_palette_colors ctx; lzw_code_start_size := lzw_code_start_size ctx; lzw_end_of_frame
     := lzw_end_of_frame ctx; lzw_read_offset := lzw_read_offset ctx; lzw_data_size :=
     lzw_data_size ctx; scratch_lzw_buffer := scratch_lzw_buffer ctx; scratch_lzw_table :=
     scratch_lzw_table ctx; scratch_lzw_pixels := scratch_lzw_pixels ctx; scratch_line_buffer :=
     scratch_line_buffer ctx; anim_start_pos := anim_start_pos ctx; file_buf := file_buf ctx;
     error_callback := error_callback ctx; callback_calls := callback_calls ctx |}.

Definition set_local_palette_colors (v : list Z) (ctx : GIF_Context) : GIF_Context :=
  {| gif_data := gif_data ctx; gif_size := gif_size ctx; current_pos := current_pos ctx;
     canvas_width := canvas_width ctx; canvas_height := canvas_height ctx; frame_width :=
     frame_width ctx; frame_height := frame_height ctx; frame_x_off := frame_x_off ctx;
     frame_y_off := frame_y_off ctx; frame_delay_ms := frame_delay_ms ctx; loop_count :=
     loop_count ctx; background_index := background_index ctx; transparent_index :=
     transparent_index ctx; has_transparency := has_transparency ctx; disposal_method :=
     disposal_method ctx; ucGIFBits := ucGIFBits ctx; global_palette_colors :=
     global_palette_colors ctx; local_palette_colors := v; active_palette_colors :=
     active_palette_colors ctx; lzw_code_start_size := lzw_code_start_size ctx; lzw_end_of_frame
     := lzw_end_of_frame ctx; lzw_read_offset := lzw_read_offset ctx; lzw_data_size :=
     lzw_data_size ctx; scratch_lzw_buffer := scratch_lzw_buffer ctx; scratch_lzw_table :=
     scratch_lzw_table ctx; scratch_lzw_pixels := scratch_lzw_pixels ctx; scratch_line_buffer :=
     scratch_line_buffer ctx; anim_start_pos := anim_start_pos ctx; file_buf := file_buf ctx;
     error_callback := error_callback ctx; callback_calls := callback_calls ctx |}.

Definition set_active_palette_colors (v : palette_ref) (ctx : GIF_Context) : GIF_Context :=
  {| gif_data := gif_data ctx; gif_size := gif_size ctx; current_pos := current_pos ctx;
     canvas_width := canvas_width ctx; canvas_height := canvas_height ctx; frame_width :=
     frame_width ctx; frame_height := frame_height ctx; frame_x_off := frame_x_off ctx;
     frame_y_off := frame_y_off ctx; frame_delay_ms := frame_delay_ms ctx; loop_count :=
     loop_count ctx; background_index := background_index ctx; transparent_index :=
     transparent_index ctx; has_transparency := has_transparency ctx; disposal_method :=
     disposal_method ctx; ucGIFBits := ucGIFBits ctx; global_palette_colors :=
     global_palette_colors ctx; local_palette_colors := local_palette_colors ctx;
     active_palette_colors := v; lzw_code_start_size := lzw_code_start_size ctx; lzw_end_of_frame
     := lzw_end_of_frame ctx; lzw_read_offset := lzw_read_offset ctx; lzw_data_size :=
     lzw_data_size ctx; scratch_lzw_buffer := scratch_lzw_buffer ctx; scratch_lzw_table :=
     scratch_lzw_table ctx; scratch_lzw_pixels := scratch_lzw_pixels ctx; scratch_line_buffer :=
     scratch_line_buffer ctx; anim_start_pos := anim_start_pos ctx; file_buf := file_buf ctx;
     error_callback := error_callback ctx; callback_calls := callback_calls ctx |}.

Definition set_lzw_code_start_size (v : Z) (ctx : GIF_Context) : GIF_Context :=
  {| gif_data := gif_data ctx; gif_size := gif_size ctx; current_pos := current_pos ctx;
     canvas_width := canvas_width ctx; canvas_height := canvas_height ctx; frame_width :=
     frame_width ctx; frame_height := frame_height ctx; frame_x_off := frame_x_off ctx;
     frame_y_off := frame_y_off ctx; frame_delay_ms := frame_delay_ms ctx; loop_count :=
     loop_count ctx; background_index := background_index ctx; transparent_index :=
     transparent_index ctx; has_transparency := has_transparency ctx; disposal_method :=
     disposal_method ctx; ucGIFBits := ucGIFBits ctx; global_palette_colors :=
     global_palette_colors ctx; local_palette_colors := local_palette_colors ctx;
     active_palette_colors := active_palette_colors ctx; lzw_code_start_size := v;
     lzw_end_of_frame := lzw_end_of_frame ctx; lzw_read_offset := lzw_read_offset ctx;
     lzw_data_size := lzw_data_size ctx; scratch_lzw_buffer := scratch_lzw_buffer ctx;
     scratch_lzw_table := scratch_lzw_table ctx; scratch_lzw_pixels := scratch_lzw_pixels ctx;
     scratch_line_buffer := scratch_line_buffer ctx; anim_start_pos := anim_start_pos ctx;
     file_buf := file_buf ctx; error_callback := error_callback ctx; callback_calls :=
     callback_calls ctx |}.

Definition set_lzw_end_of_frame (v : Z) (ctx : GIF_Context) : GIF_Context :=
  {| gif_data := gif_data ctx; gif_size := gif_size ctx; current_pos := current_pos ctx;
     canvas_width := canvas_width ctx; canvas_height := canvas_height ctx; frame_width :=
     frame_width ctx; frame_height := frame_height ctx; frame_x_off := frame_x_off ctx;
     frame_y_off := frame_y_off ctx; frame_delay_ms := frame_delay_ms ctx; loop_count :=
     loop_count ctx; background_index := background_index ctx; transparent_index :=
     transparent_index ctx; has_transparency := has_transparency ctx; disposal_method :=
     disposal_method ctx; ucGIFBits := ucGIFBits ctx; global_palette_colors :=
     global_palette_colors ctx; local_palette_colors := local_palette_colors ctx;
     active_palette_colors := active_palette_colors ctx; lzw_code_start_size :=
     lzw_code_start_size ctx; lzw_end_of_frame := v; lzw_read_offset := lzw_read_offset ctx;
     lzw_data_size := lzw_data_size ctx; scratch_lzw_buffer := scratch_lzw_buffer ctx;
     scratch_lzw_table := scratch_lzw_table ctx; scratch_lzw_pixels := scratch_lzw_pixels ctx;
     scratch_line_buffer := scratch_line_buffer ctx; anim_start_pos := anim_start_pos ctx;
     file_buf := file_buf ctx; error_callback := error_callback ctx; callback_calls :=
     callback_calls ctx |}.

Definition set_lzw_read_offset (v : Z) (ctx : GIF_Context) : GIF_Context :=
  {| gif_data := gif_data ctx; gif_size := gif_size ctx; current_pos := current_pos ctx;
     canvas_width := canvas_width ctx; canvas_height := canvas_height ctx; frame_width :=
     frame_width ctx; frame_height := frame_height ctx; frame_x_off := frame_x_off ctx;
     frame_y_off := frame_y_off ctx; frame_delay_ms := frame_delay_ms ctx; loop_count :=
     loop_count ctx; background_index := background_index ctx; transparent_index :=
     transparent_index ctx; has_transparency := has_transparency ctx; disposal_method :=
     disposal_method ctx; ucGIFBits := ucGIFBits ctx; global_palette_colors :=
     global_palette_colors ctx; local_palette_colors := local_palette_colors ctx;
     active_palette_colors := active_palette_colors ctx; lzw_code_start_size :=
     lzw_code_start_size ctx; lzw_end_of_frame := lzw_end_of_frame ctx; lzw_read_offset := v;
     lzw_data_size := lzw_data_size ctx; scratch_lzw_buffer := scratch_lzw_buffer ctx;
     scratch_lzw_table := scratch_lzw_table ctx; scratch_lzw_pixels := scratch_lzw_pixels ctx;
     scratch_line_buffer := scratch_line_buffer ctx; anim_start_pos := anim_start_pos ctx;
     file_buf := file_buf ctx; error_callback := error_callback ctx; callback_calls :=
     callback_calls ctx |}.

Definition set_lzw_data_size (v : Z) (ctx : GIF_Context) : GIF_Context :=
  {| gif_data := gif_data ctx; gif_size := gif_size ctx; current_pos := current_pos ctx;
     canvas_width := canvas_width ctx; canvas_height := canvas_height ctx; frame_width :=
     frame_width ctx; frame_height := frame_height ctx; frame_x_off := frame_x_off ctx;
     frame_y_off := frame_y_off ctx; frame_delay_ms := frame_delay_ms ctx; loop_count :=
     loop_count ctx; background_index := background_index ctx; transparent_index :=
     transparent_index ctx; has_transparency := has_transparency ctx; disposal_method :=
     disposal_method ctx; ucGIFBits := ucGIFBits ctx; global_palette_colors :=
     global_palette_colors ctx; local_palette_colors := local_palette_colors ctx;
     active_palette_colors := active_palette_colors ctx; lzw_code_start_size :=
     lzw_code_start_size ctx; lzw_end_of_frame := lzw_end_of_frame ctx; lzw_read_offset :=
     lzw_read_offset ctx; lzw_data_size := v; scratch_lzw_buffer := scratch_lzw_buffer ctx;
     scratch_lzw_table := scratch_lzw_table ctx; scratch_lzw_pixels := scratch_lzw_pixels ctx;
     scratch_line_buffer := scratch_line_buffer ctx; anim_start_pos := anim_start_pos ctx;
     file_buf := file_buf ctx; error_callback := error_callback ctx; callback_calls :=
     callback_calls ctx |}.

Definition set_scratch_lzw_buffer (v : list Z) (ctx : GIF_Context) : GIF_Context :=
  {| gif_data := gif_data ctx; gif_size := gif_size ctx; current_pos := current_pos ctx;
     canvas_width := canvas_width ctx; canvas_height := canvas_height ctx; frame_width :=
     frame_width ctx; frame_height := frame_height ctx; frame_x_off := frame_x_off ctx;
     frame_y_off := frame_y_off ctx; frame_delay_ms := frame_delay_ms ctx; loop_count :=
     loop_count ctx; background_index := background_index ctx; transparent_index :=
     transparent_index ctx; has_transparency := has_transparency ctx; disposal_method :=
     disposal_method ctx; ucGIFBits := ucGIFBits ctx; global_palette_colors :=
     global_palette_colors ctx; local_palette_colors := local_palette_colors ctx;
     active_palette_colors := active_palette_colors ctx; lzw_code_start_size :=
     lzw_code_start_size ctx; lzw_end_of_frame := lzw_end_of_frame ctx; lzw_read_offset :=
     lzw_read_offset ctx; lzw_data_size := lzw_data_size ctx; scratch_lzw_buffer := v;
     scratch_lzw_table := scratch_lzw_table ctx; scratch_lzw_pixels := scratch_lzw_pixels ctx;
     scratch_line_buffer := scratch_line_buffer ctx; anim_start_pos := anim_start_pos ctx;
     file_buf := file_buf ctx; error_callback := error_callback ctx; callback_calls :=
     callback_calls ctx |}.

Definition set_scratch_lzw_table (v : list Z) (ctx : GIF_Context) : GIF_Context :=
  {| gif_data := gif_data ctx; gif_size := gif_size ctx; current_pos := current_pos ctx;
     canvas_width := canvas_width ctx; canvas_height := canvas_height ctx; frame_width :=
     frame_width ctx; frame_height := frame_height ctx; frame_x_off := frame_x_off ctx;
     frame_y_off := frame_y_off ctx; frame_delay_ms := frame_delay_ms ctx; loop_count :=
     loop_count ctx; background_index := background_index ctx; transparent_index :=
     transparent_index ctx; has_transparency := has_transparency ctx; disposal_method :=
     disposal_method ctx; ucGIFBits := ucGIFBits ctx; global_palette_colors :=
     global_palette_colors ctx; local_palette_colors := local_palette_colors ctx;
     active_palette_colors := active_palette_colors ctx; lzw_code_start_size :=
     lzw_code_start_size ctx; lzw_end_of_frame := lzw_end_of_frame ctx; lzw_read_offset :=
     lzw_read_offset ctx; lzw_data_size := lzw_data_size ctx; scratch_lzw_buffer :=
     scratch_lzw_buffer ctx; scratch_lzw_table := v; scratch_lzw_pixels := scratch_lzw_pixels
     ctx; scratch_line_buffer := scratch_line_buffer ctx; anim_start_pos := anim_start_pos ctx;
     file_buf := file_buf ctx; error_callback := error_callback ctx; callback_calls :=
     callback_calls ctx |}.

Definition set_scratch_lzw_pixels (v : list Z) (ctx : GIF_Context) : GIF_Context :=
  {| gif_data := gif_data ctx; gif_size := gif_size ctx; current_pos := current_pos ctx;
     canvas_width := canvas_width ctx; canvas_height := canvas_height ctx; frame_width :=
     frame_width ctx; frame_height := frame_height ctx; frame_x_off := frame_x_off ctx;
     frame_y_off := frame_y_off ctx; frame_delay_ms := frame_delay_ms ctx; loop_count :=
     loop_count ctx; background_index := background_index ctx; transparent_index :=
     transparent_index ctx; has_transparency := has_transparency ctx; disposal_method :=
     disposal_method ctx; ucGIFBits := ucGIFBits ctx; global_palette_colors :=
     global_palette_colors ctx; local_palette_colors := local_palette_colors ctx;
     active_palette_colors := active_palette_colors ctx; lzw_code_start_size :=
     lzw_code_start_size ctx; lzw_end_of_frame := lzw_end_of_frame ctx; lzw_read_offset :=
     lzw_read_offset ctx; lzw_data_size := lzw_data_size ctx; scratch_lzw_buffer :=
     scratch_lzw_buffer ctx; scratch_lzw_table := scratch_lzw_table ctx; scratch_lzw_pixels := v;
     scratch_line_buffer := scratch_line_buffer ctx; anim_start_pos := anim_start_pos ctx;
     file_buf := file_buf ctx; error_callback := error_callback ctx; callback_calls :=
     callback_calls ctx |}.

Definition set_scratch_line_buffer (v : list Z) (ctx : GIF_Context) : GIF_Context :=
  {| gif_data := gif_data ctx; gif_size := gif_size ctx; current_pos := current_pos ctx;
     canvas_width := canvas_width ctx; canvas_height := canvas_height ctx; frame_width :=
     frame_width ctx; frame_height := frame_height ctx; frame_x_off := frame_x_off ctx;
     frame_y_off := frame_y_off ctx; frame_delay_ms := frame_delay_ms ctx; loop_count :=
     loop_count ctx; background_index := background_index ctx; transparent_index :=
     transparent_index ctx; has_transparency := has_transparency ctx; disposal_method :=
     disposal_method ctx; ucGIFBits := ucGIFBits ctx; global_palette_colors :=
     global_palette_colors ctx; local_palette_colors := local_palette_colors ctx;
     active_palette_colors := active_palette_colors ctx; lzw_code_start_size :=
     lzw_code_start_size ctx; lzw_end_of_frame := lzw_end_of_frame ctx; lzw_read_offset :=
     lzw_read_offset ctx; lzw_data_size := lzw_data_size ctx; scratch_lzw_buffer :=
     scratch_lzw_buffer ctx; scratch_lzw_table := scratch_lzw_table ctx; scratch_lzw_pixels :=
     scratch_lzw_pixels ctx; scratch_line_buffer := v; anim_start_pos := anim_start_pos ctx;
     file_buf := file_buf ctx; error_callback := error_callback ctx; callback_calls :=
     callback_calls ctx |}.

Definition set_anim_start_pos (v : Z) (ctx : GIF_Context) : GIF_Context :=
  {| gif_data := gif_data ctx; gif_size := gif_size ctx; current_pos := current_pos ctx;
     canvas_width := canvas_width ctx; canvas_height := canvas_height ctx; frame_width :=
     frame_width ctx; frame_height := frame_height ctx; frame_x_off := frame_x_off ctx;
     frame_y_off := frame_y_off ctx; frame_delay_ms := frame_delay_ms ctx; loop_count :=
     loop_count ctx; background_index := background_index ctx; transparent_index :=
     transparent_index ctx; has_transparency := has_transparency ctx; disposal_method :=
     disposal_method ctx; ucGIFBits := ucGIFBits ctx; global_palette_colors :=
     global_palette_colors ctx; local_palette_colors := local_palette_colors ctx;
     active_palette_colors := active_palette_colors ctx; lzw_code_start_size :=
     lzw_code_start_size ctx; lzw_end_of_frame := lzw_end_of_frame ctx; lzw_read_offset :=
     lzw_read_offset ctx; lzw_data_size := lzw_data_size ctx; scratch_lzw_buffer :=
     scratch_lzw_buffer ctx; scratch_lzw_table := scratch_lzw_table ctx; scratch_lzw_pixels :=
     scratch_lzw_pixels ctx; scratch_line_buffer := scratch_line_buffer ctx; anim_start_pos := v;
     file_buf := file_buf ctx; error_callback := error_callback ctx; callback_calls :=
     callback_calls ctx |}.

Definition set_file_buf (v : list Z) (ctx : GIF_Context) : GIF_Context :=
  {| gif_data := gif_data ctx; gif_size := gif_size ctx; current_pos := current_pos ctx;
     canvas_width := canvas_width ctx; canvas_height := canvas_height ctx; frame_width :=
     frame_width ctx; frame_height := frame_height ctx; frame_x_off := frame_x_off ctx;
     frame_y_off := frame_y_off ctx; frame_delay_ms := frame_delay_ms ctx; loop_count :=
     loop_count ctx; background_index := background_index ctx; transparent_index :=
     transparent_index ctx; has_transparency := has_transparency ctx; disposal_method :=
     disposal_method ctx; ucGIFBits := ucGIFBits ctx; global_palette_colors :=
     global_palette_colors ctx; local_palette_colors := local_palette_colors ctx;
     active_palette_colors := active_palette_colors ctx; lzw_code_start_size :=
     lzw_code_start_size ctx; lzw_end_of_frame := lzw_end_of_frame ctx; lzw_read_offset :=
     lzw_read_offset ctx; lzw_data_size := lzw_data_size ctx; scratch_lzw_buffer :=
     scratch_lzw_buffer ctx; scratch_lzw_table := scratch_lzw_table ctx; scratch_lzw_pixels :=
     scratch_lzw_pixels ctx; scratch_line_buffer := scratch_line_buffer ctx; anim_start_pos :=
     anim_start_pos ctx; file_buf := v; error_callback := error_callback ctx; callback_calls :=
     callback_calls ctx |}.

Definition set_error_callback (v : bool) (ctx : GIF_Context) : GIF_Context :=
  {| gif_data := gif_data ctx; gif_size := gif_size ctx; current_pos := current_pos ctx;
     canvas_width := canvas_width ctx; canvas_height := canvas_height ctx; frame_width :=
     frame_width ctx; frame_height := frame_height ctx; frame_x_off := frame_x_off ctx;
     frame_y_off := frame_y_off ctx; frame_delay_ms := frame_delay_ms ctx; loop_count :=
     loop_count ctx; background_index := background_index ctx; transparent_index :=
     transparent_index ctx; has_transparency := has_transparency ctx; disposal_method :=
     disposal_method ctx; ucGIFBits := ucGIFBits ctx; global_palette_colors :=
     global_palette_colors ctx; local_palette_colors := local_palette_colors ctx;
     active_palette_colors := active_palette_colors ctx; lzw_code_start_size :=
     lzw_code_start_size ctx; lzw_end_of_frame := lzw_end_of_frame ctx; lzw_read_offset :=
     lzw_read_offset ctx; lzw_data_size := lzw_data_size ctx; scratch_lzw_buffer :=
     scratch_lzw_buffer ctx; scratch_lzw_table := scratch_lzw_table ctx; scratch_lzw_pixels :=
     scratch_lzw_pixels ctx; scratch_line_buffer := scratch_line_buffer ctx; anim_start_pos :=
     anim_start_pos ctx; file_buf := file_buf ctx; error_callback := v; callback_calls :=
     callback_calls ctx |}.

Definition set_callback_calls (v : list (Z * string)) (ctx : GIF_Context) : GIF_Context :=
  {| gif_data := gif_data ctx; gif_size := gif_size ctx; current_pos := current_pos ctx;
     canvas_width := canvas_width ctx; canvas_height := canvas_height ctx; frame_width :=
     frame_width ctx; frame_height := frame_height ctx; frame_x_off := frame_x_off ctx;
     frame_y_off := frame_y_off ctx; frame_delay_ms := frame_delay_ms ctx; loop_count :=
     loop_count ctx; background_index := background_index ctx; transparent_index :=
     transparent_index ctx; has_transparency := has_transparency ctx; disposal_method :=
     disposal_method ctx; ucGIFBits := ucGIFBits ctx; global_palette_colors :=
     global_palette_colors ctx; local_palette_colors := local_palette_colors ctx;
     active_palette_colors := active_palette_colors ctx; lzw_code_start_size :=
     lzw_code_start_size ctx; lzw_end_of_frame := lzw_end_of_frame ctx; lzw_read_offset :=
     lzw_read_offset ctx; lzw_data_size := lzw_data_size ctx; scratch_lzw_buffer :=
     scratch_lzw_buffer ctx; scratch_lzw_table := scratch_lzw_table ctx; scratch_lzw_pixels :=
     scratch_lzw_pixels ctx; scratch_line_buffer := scratch_line_buffer ctx; anim_start_pos :=
     anim_start_pos ctx; file_buf := file_buf ctx; error_callback := error_callback ctx;
     callback_calls := v |}.

(** ** Error reporting *)

Definition gif_report_error (ctx : GIF_Context) (error_code : Z) (message : string)
  : GIF_Context :=
  if error_callback ctx
  then set_callback_calls (callback_calls ctx ++ [(error_code, message)]) ctx
  else ctx.

(** ** Stream reader *)

Definition gif_read_u16_le (data : list Z) (off : Z) : Z :=
  rd data off + 256 * rd data (off + 1).

(** Returns the number of bytes read, the bytes copied to the destination,
    and the context. *)
Definition gif_read_bytes_internal (ctx : GIF_Context) (len : Z)
  : Z * list Z * GIF_Context :=
  let bytes_to_read :=
    if size_t (current_pos ctx + len) >? gif_size ctx
    then size_t (gif_size ctx - current_pos ctx)
    else len in
  if bytes_to_read >? 0
  then (bytes_to_read,
        rd_seq (gif_data ctx) (current_pos ctx) (Z.to_nat bytes_to_read),
        set_current_pos (size_t (current_pos ctx + bytes_to_read)) ctx)
  else (bytes_to_read, [], ctx).

Definition gif_skip_bytes_internal (ctx : GIF_Context) (len : Z) : GIF_Context :=
  if size_t (current_pos ctx + len) <=? gif_size ctx
  then set_current_pos (size_t (current_pos ctx + len)) ctx
  else set_current_pos (gif_size ctx) ctx.

Definition gif_read_byte_internal (ctx : GIF_Context) : Z * GIF_Context :=
  if current_pos ctx <? gif_size ctx
  then (rd (gif_data ctx) (current_pos ctx), set_current_pos (current_pos ctx + 1) ctx)
  else (0, gif_report_error ctx GIF_ERROR_EARLY_EOF "Unexpected EOF while reading byte.").

(** ** Extensions *)

(** The [do ... while (size)] loop. *)
Fixpoint gif_discard_sub_blocks (fuel : nat) (ctx : GIF_Context) : option GIF_Context :=
  match fuel with
  | O => None
  | S fuel' =>
      let '(size, ctx) := gif_read_byte_internal ctx in
      if (size =? 0) && (gif_size ctx <=? current_pos ctx)
      then Some (gif_report_error ctx GIF_ERROR_EARLY_EOF
                   "Unexpected EOF while discarding sub-blocks.")
      else
        let ctx := gif_skip_bytes_internal ctx size in
        if size =? 0 then Some ctx else gif_discard_sub_blocks fuel' ctx
  end.

Definition gif_read_graphic_control_ext (ctx : GIF_Context) : GIF_Context :=
  let ctx := gif_skip_bytes_internal ctx 1 in
  let '(rdit, ctx) := gif_read_byte_internal ctx in
  let ctx := set_disposal_method (Z.land (Z.shiftr rdit 2) 3) ctx in
  let ctx := set_has_transparency (Z.land rdit 1) ctx in
  let ctx :=
    set_frame_delay_ms (u16 (gif_read_u16_le (gif_data ctx) (current_pos ctx) * 10)) ctx in
  let ctx := gif_skip_bytes_internal ctx 2 in
  let '(ti, ctx) := gif_read_byte_internal ctx in
  let ctx := set_transparent_index ti ctx in
  gif_skip_bytes_internal ctx 1.

Definition gif_read_application_ext (fuel : nat) (ctx : GIF_Context)
  : option GIF_Context :=
  let '(block_size, ctx) := gif_read_byte_internal ctx in
  if block_size =? 11 then
    let '(_, _, ctx) := gif_read_bytes_internal ctx 8 in
    let '(_, _, ctx) := gif_read_bytes_internal ctx 3 in
    let '(sub_block_size, ctx) := gif_read_byte_internal ctx in
    if negb (sub_block_size =? 3) then
      let ctx := gif_report_error ctx GIF_ERROR_BAD_FILE
                   "Unexpected sub-block size in Application Extension." in
      gif_discard_sub_blocks fuel ctx
    else
      let ctx := gif_skip_bytes_internal ctx 1 in
      let ctx :=
        set_loop_count (i16 (gif_read_u16_le (gif_data ctx) (current_pos ctx))) ctx in
      let ctx := gif_skip_bytes_internal ctx 2 in
      gif_discard_sub_blocks fuel ctx
  else gif_discard_sub_blocks fuel ctx.

Definition gif_read_ext (fuel : nat) (ctx : GIF_Context) : option GIF_Context :=
  let '(label, ctx) := gif_read_byte_internal ctx in
  if label =? 249 then Some (gif_read_graphic_control_ext ctx)
  else if label =? 255 then gif_read_application_ext fuel ctx
  else
    let ctx := gif_report_error ctx GIF_ERROR_DECODE
                 "Unknown GIF extension encountered." in
    gif_discard_sub_blocks fuel ctx.

(** ** Sub-block assembler *)

(** The value of [return (c != 0 || ctx->lzw_end_of_frame)]. *)
Definition gif_get_more_lzw_data_return (c : Z) (ctx : GIF_Context) : Z :=
  if negb (c =? 0) || negb (lzw_end_of_frame ctx =? 0) then 1 else 0.

(** The [while] loop of [gif_get_more_lzw_data] followed by its [return];
    [c] is the current value of the local variable [c]. *)
Fixpoint gif_get_more_lzw_data_loop (fuel : nat) (c : Z) (ctx : GIF_Context)
  : option (Z * GIF_Context) :=
  match fuel with
  | O => None
  | S fuel' =>
      if (lzw_data_size ctx <? GIF_LZW_BASE_BUF_SIZE - GIF_LZW_CHUNK_SIZE)
         && (current_pos ctx <? gif_size ctx)
      then
        let '(c, ctx) := gif_read_byte_internal ctx in
        if c =? 0 then
          let ctx := set_lzw_end_of_frame 1 ctx in
          Some (gif_get_more_lzw_data_return c ctx, ctx)
        else
          let '(bytes_read, bytes, ctx) := gif_read_bytes_internal ctx c in
          let ctx :=
            set_scratch_lzw_buffer
              (wr_seq (scratch_lzw_buffer ctx) (lzw_data_size ctx) bytes) ctx in
          let ctx := set_lzw_data_size (lzw_data_size ctx + bytes_read) ctx in
          if bytes_read <? c
          then Some (0, gif_report_error ctx GIF_ERROR_EARLY_EOF
                          "Early EOF while reading LZW data block.")
          else gif_get_more_lzw_data_loop fuel' c ctx
      else
        Some (gif_get_more_lzw_data_return c ctx, ctx)
  end.

(** [c_indet] stands for the indeterminate value of the local [c], which
    the source reads in its [return] when the loop body never runs. *)
Definition gif_get_more_lzw_data (c_indet : Z) (fuel : nat) (ctx : GIF_Context)
  : option (Z * GIF_Context) :=
  let bytes_in_buffer := lzw_data_size ctx - lzw_read_offset ctx in
  if negb (lzw_end_of_frame ctx =? 0) then Some (1, ctx)
  else
    let ctx :=
      if lzw_read_offset ctx >? 0 then
        let ctx :=
          if bytes_in_buffer >? 0
          then set_scratch_lzw_buffer
                 (wr_seq (scratch_lzw_buffer ctx) 0
                    (rd_seq (scratch_lzw_buffer ctx) (lzw_read_offset ctx)
                       (Z.to_nat bytes_in_buffer))) ctx
          else ctx in
        let ctx := set_lzw_data_size bytes_in_buffer ctx in
        set_lzw_read_offset 0 ctx
      else ctx in
    gif_get_more_lzw_data_loop fuel c_indet ctx.
(** The local variables of [gif_decode_lzw] that live across its loop. *)
Record lzw_locals : Type := {
  bitnum : Z;
  code : Z;
  oldcode : Z;
  codesize : Z;
  nextcode : Z;
  nextlim : Z;
  sMask : Z;
  c : Z;
  ulBits : Z;
  current_pixel_idx : Z;
  current_line_idx : Z;
  interlaced_pass : Z
}.

Definition set_bitnum (v : Z) (st : lzw_locals) : lzw_locals :=
  {| bitnum := v; code := code st; oldcode := oldcode st; codesize := codesize st; nextcode :=
     nextcode st; nextlim := nextlim st; sMask := sMask st; c := c st; ulBits := ulBits st;
     current_pixel_idx := current_pixel_idx st; current_line_idx := current_line_idx st;
     interlaced_pass := interlaced_pass st |}.

Definition set_code (v : Z) (st : lzw_locals) : lzw_locals :=
  {| bitnum := bitnum st; code := v; oldcode := oldcode st; codesize := codesize st; nextcode :=
     nextcode st; nextlim := nextlim st; sMask := sMask st; c := c st; ulBits := ulBits st;
     current_pixel_idx := current_pixel_idx st; current_line_idx := current_line_idx st;
     interlaced_pass := interlaced_pass st |}.

Definition set_oldcode (v : Z) (st : lzw_locals) : lzw_locals :=
  {| bitnum := bitnum st; code := code st; oldcode := v; codesize := codesize st; nextcode :=
     nextcode st; nextlim := nextlim st; sMask := sMask st; c := c st; ulBits := ulBits st;
     current_pixel_idx := current_pixel_idx st; current_line_idx := current_line_idx st;
     interlaced_pass := interlaced_pass st |}.

Definition set_codesize (v : Z) (st : lzw_locals) : lzw_locals :=
  {| bitnum := bitnum st; code := code st; oldcode := oldcode st; codesize := v; nextcode :=
     nextcode st; nextlim := nextlim st; sMask := sMask st; c := c st; ulBits := ulBits st;
     current_pixel_idx := current_pixel_idx st; current_line_idx := current_line_idx st;
     interlaced_pass := interlaced_pass st |}.

Definition set_nextcode (v : Z) (st : lzw_locals) : lzw_locals :=
  {| bitnum := bitnum st; code := code st; oldcode := oldcode st; codesize := codesize st;
     nextcode := v; nextlim := nextlim st; sMask := sMask st; c := c st; ulBits := ulBits st;
     current_pixel_idx := current_pixel_idx st; current_line_idx := current_line_idx st;
     interlaced_pass := interlaced_pass st |}.

Definition set_nextlim (v : Z) (st : lzw_locals) : lzw_locals :=
  {| bitnum := bitnum st; code := code st; oldcode := oldcode st; codesize := codesize st;
     nextcode := nextcode st; nextlim := v; sMask := sMask st; c := c st; ulBits := ulBits st;
     current_pixel_idx := current_pixel_idx st; current_line_idx := current_line_idx st;
     interlaced_pass := interlaced_pass st |}.

Definition set_sMask (v : Z) (st : lzw_locals) : lzw_locals :=
  {| bitnum := bitnum st; code := code st; oldcode := oldcode st; codesize := codesize st;
     nextcode := nextcode st; nextlim := nextlim st; sMask := v; c := c st; ulBits := ulBits st;
     current_pixel_idx := current_pixel_idx st; current_line_idx := current_line_idx st;
     interlaced_pass := interlaced_pass st |}.

Definition set_c (v : Z) (st : lzw_locals) : lzw_locals :=
  {| bitnum := bitnum st; code := code st; oldcode := oldcode st; codesize := codesize st;
     nextcode := nextcode st; nextlim := nextlim st; sMask := sMask st; c := v; ulBits := ulBits
     st; current_pixel_idx := current_pixel_idx st; current_line_idx := current_line_idx st;
     interlaced_pass := interlaced_pass st |}.

Definition set_ulBits (v : Z) (st : lzw_locals) : lzw_locals :=
  {| bitnum := bitnum st; code := code st; oldcode := oldcode st; codesize := codesize st;
     nextcode := nextcode st; nextlim := nextlim st; sMask := sMask st; c := c st; ulBits := v;
     current_pixel_idx := current_pixel_idx st; current_line_idx := current_line_idx st;
     interlaced_pass := interlaced_pass st |}.

Definition set_current_pixel_idx (v : Z) (st : lzw_locals) : lzw_locals :=
  {| bitnum := bitnum st; code := code st; oldcode := oldcode st; codesize := codesize st;
     nextcode := nextcode st; nextlim := nextlim st; sMask := sMask st; c := c st; ulBits :=
     ulBits st; current_pixel_idx := v; current_line_idx := current_line_idx st; interlaced_pass
     := interlaced_pass st |}.

Definition set_current_line_idx (v : Z) (st : lzw_locals) : lzw_locals :=
  {| bitnum := bitnum st; code := code st; oldcode := oldcode st; codesize := codesize st;
     nextcode := nextcode st; nextlim := nextlim st; sMask := sMask st; c := c st; ulBits :=
     ulBits st; current_pixel_idx := current_pixel_idx st; current_line_idx := v; interlaced_pass
     := interlaced_pass st |}.

Definition set_interlaced_pass (v : Z) (st : lzw_locals) : lzw_locals :=
  {| bitnum := bitnum st; code := code st; oldcode := oldcode st; codesize := codesize st;
     nextcode := nextcode st; nextlim := nextlim st; sMask := sMask st; c := c st; ulBits :=
     ulBits st; current_pixel_idx := current_pixel_idx st; current_line_idx := current_line_idx
     st; interlaced_pass := v |}.

(** ** Bit reader *)

Definition read_u32_le (buf : list Z) (off : Z) : Z :=
  rd buf off + 256 * rd buf (off + 1) + 65536 * rd buf (off + 2)
  + 16777216 * rd buf (off + 3).

(** [code = (uint16_t)((ulBits >> bitnum) & sMask); bitnum += codesize;] *)
Definition lzw_extract_code (st : lzw_locals) : lzw_locals :=
  let st := set_code (u16 (Z.land (Z.shiftr (ulBits st) (bitnum st)) (sMask st))) st in
  set_bitnum (bitnum st + codesize st) st.

(** The macro [GET_LZW_CODE]; [eoi_code] is the variable of the enclosing
    function that the macro body names. *)
Definition GET_LZW_CODE (c_indet : Z) (fuel : nat) (eoi_code : Z)
    (ctx : GIF_Context) (st : lzw_locals) : option (GIF_Context * lzw_locals) :=
  if bitnum st >? 32 - codesize st then
    let ctx := set_lzw_read_offset (lzw_read_offset ctx + Z.shiftr (bitnum st) 3) ctx in
    let st := set_bitnum (Z.land (bitnum st) 7) st in
    '(more, ctx) ← gif_get_more_lzw_data c_indet fuel ctx;
    if more =? 0 then Some (ctx, set_code eoi_code st)
    else
      let st := set_ulBits (read_u32_le (scratch_lzw_buffer ctx) (lzw_read_offset ctx)) st in
      Some (ctx, lzw_extract_code st)
  else Some (ctx, lzw_extract_code st).

(** ** Interlace address mapper and compositor (the line flush) *)

Definition interlaced_line_offset : list Z := [0; 4; 2; 1].
Definition interlaced_line_stride : list Z := [8; 8; 4; 2].

(** [interlaced_line_offset[pass] + line * interlaced_line_stride[pass]] *)
Definition interlaced_y_draw (pass line : Z) : Z :=
  rd interlaced_line_offset pass + line * rd interlaced_line_stride pass.

(** [while (y_draw >= ctx->frame_height && interlaced_pass < 3)]: the state
    is [(interlaced_pass, current_line_idx, y_draw)].  The pass counter
    bounds the iterations. *)
Fixpoint interlaced_pass_loop (n : nat) (frame_height : Z) (s : Z * Z * Z) : Z * Z * Z :=
  let '(pass, line, y_draw) := s in
  match n with
  | O => s
  | S n' =>
      if (frame_height <=? y_draw) && (pass <? 3)
      then interlaced_pass_loop n' frame_height (pass + 1, 0, interlaced_y_draw (pass + 1) 0)
      else s
  end.

(** The body of [if (ctx->ucGIFBits & 0x40)] up to the bounds test. *)
Definition interlaced_row (frame_height pass line : Z) : Z * Z * Z :=
  interlaced_pass_loop (Z.to_nat (3 - pass)) frame_height
    (pass, line, interlaced_y_draw pass line).

Definition active_palette (ctx : GIF_Context) : list Z :=
  match active_palette_colors ctx with
  | palette_null => []
  | palette_global => global_palette_colors ctx
  | palette_local => local_palette_colors ctx
  end.

(** Offset of [dest_row_start] from [frame_buffer]: the row term is computed
    in [uint32_t]. *)
Definition dest_row_start (ctx : GIF_Context) (y_draw : Z) : Z :=
  u32 ((frame_y_off ctx + y_draw) * canvas_width ctx * 3) + frame_x_off ctx * 3.

(** One iteration of the [for] loop over the columns. *)
Definition composite_pixel (ctx : GIF_Context) (dest : Z) (frame_buffer : list Z) (i : Z)
  : list Z :=
  let pixel_index := rd (scratch_line_buffer ctx) i in
  if negb (has_transparency ctx =? 0) && (pixel_index =? transparent_index ctx) then
    if disposal_method ctx =? 2
    then wr_seq frame_buffer (dest + i * 3)
           (rd_seq (active_palette ctx) (background_index ctx * 3) 3)
    else frame_buffer
  else wr_seq frame_buffer (dest + i * 3)
         (rd_seq (active_palette ctx) (pixel_index * 3) 3).

Definition composite_line (ctx : GIF_Context) (y_draw : Z) (frame_buffer : list Z)
  : list Z :=
  fold_left (composite_pixel ctx (dest_row_start ctx y_draw))
    (seqZ 0 (frame_width ctx)) frame_buffer.

Inductive flush_result : Type :=
  | flush_ok (frame_buffer : list Z) (st : lzw_locals)
  | flush_out_of_bounds.

(** The body of [if (current_pixel_idx >= ctx->frame_width)]. *)
Definition lzw_flush_line (ctx : GIF_Context) (frame_buffer : list Z) (st : lzw_locals)
  : flush_result :=
  if negb (Z.land (ucGIFBits ctx) 64 =? 0) then
    let '(pass, line, y_draw) :=
      interlaced_row (frame_height ctx) (interlaced_pass st) (current_line_idx st) in
    if frame_height ctx <=? y_draw then flush_out_of_bounds
    else
      let st := set_interlaced_pass pass st in
      let st := set_current_line_idx line st in
      let frame_buffer := composite_line ctx y_draw frame_buffer in
      let st := set_current_pixel_idx 0 st in
      flush_ok frame_buffer (set_current_line_idx (current_line_idx st + 1) st)
  else
    let y_draw := current_line_idx st in
    let frame_buffer := composite_line ctx y_draw frame_buffer in
    let st := set_current_pixel_idx 0 st in
    flush_ok frame_buffer (set_current_line_idx (current_line_idx st + 1) st).

(** ** LZW dictionary and expander (linked representation) *)

(** [for (i = 0; i < clear_code; i++)]: the single-pixel entries. *)
Definition lzw_init_entry (ctx : GIF_Context) (i : Z) : GIF_Context :=
  let ctx :=
    set_scratch_lzw_pixels
      (wr (scratch_lzw_pixels ctx) (GIF_LZW_TABLE_ENTRIES + i) (u8 i)) ctx in
  let ctx := set_scratch_lzw_pixels (wr (scratch_lzw_pixels ctx) i (u8 i)) ctx in
  set_scratch_lzw_table (wr (scratch_lzw_table ctx) i 65535) ctx.

Definition lzw_init_entries (clear_code : Z) (ctx : GIF_Context) : GIF_Context :=
  fold_left lzw_init_entry (seqZ 0 clear_code) ctx.

(** [memset(&lzw_table[clear_code], 0xFF, ...)]: every entry from
    [clear_code] up to the end of the table becomes [0xFFFF]. *)
Definition lzw_reset_table (clear_code : Z) (ctx : GIF_Context) : GIF_Context :=
  set_scratch_lzw_table
    (wr_seq (scratch_lzw_table ctx) clear_code
       (replicate (Z.to_nat (GIF_LZW_TABLE_ENTRIES - clear_code)) 65535)) ctx.

(** The chain walk
    [while (current_lzw_code != 0xFFFF && temp_idx > 0)]: [out] is
    [temp_line_buf] from [temp_idx] to its end. *)
Fixpoint lzw_expand (temp_idx : nat) (ctx : GIF_Context) (current_lzw_code : Z)
    (out : list Z) : list Z :=
  match temp_idx with
  | O => out
  | S temp_idx' =>
      if current_lzw_code =? 65535 then out
      else lzw_expand temp_idx' ctx
             (rd (scratch_lzw_table ctx) current_lzw_code)
             (rd (scratch_lzw_pixels ctx) current_lzw_code :: out)
  end.

Inductive lzw_init_result : Type :=
  | lzw_init_ok (ctx : GIF_Context) (st : lzw_locals)
  | lzw_init_invalid (ctx : GIF_Context).

(** From the label [init_codetable_safe] to the [while] of the main loop. *)
Definition init_codetable_safe (c_indet : Z) (fuel : nat) (clear_code eoi_code : Z)
    (ctx : GIF_Context) (st : lzw_locals) : option lzw_init_result :=
  let st := set_codesize (u16 (lzw_code_start_size ctx + 1)) st in
  let st := set_sMask (u32 (Z.shiftl 1 (codesize st) - 1)) st in
  let st := set_nextcode (u16 (eoi_code + 1)) st in
  let st := set_nextlim (u16 (Z.shiftl 1 (codesize st))) st in
  let st := set_bitnum 0 st in
  let ctx := lzw_reset_table clear_code ctx in
  '(ctx, st) ← GET_LZW_CODE c_indet fuel eoi_code ctx st;
  '(ctx, st) ← (if code st =? clear_code
                then GET_LZW_CODE c_indet fuel eoi_code ctx st
                else Some (ctx, st));
  if GIF_LZW_TABLE_ENTRIES <=? code st then
    Some (lzw_init_invalid
            (gif_report_error ctx GIF_ERROR_DECODE
               "Invalid initial LZW code in Safe mode."))
  else
    let st := set_oldcode (code st) st in
    let st := set_c (u8 (oldcode st)) st in
    let pixels := lzw_expand (Z.to_nat GIF_MAX_WIDTH) ctx (code st) [] in
    let ctx :=
      set_scratch_line_buffer (wr_seq (scratch_line_buffer ctx) 0 pixels) ctx in
    let st := set_current_pixel_idx (current_pixel_idx st + Z.of_nat (length pixels)) st in
    Some (lzw_init_ok ctx st).

(** [if (nextcode < GIF_LZW_TABLE_ENTRIES) { ... }]: the new entry. *)
Definition lzw_add_entry (ctx : GIF_Context) (st : lzw_locals)
  : GIF_Context * lzw_locals :=
  if nextcode st <? GIF_LZW_TABLE_ENTRIES then
    let ctx :=
      set_scratch_lzw_table (wr (scratch_lzw_table ctx) (nextcode st) (oldcode st)) ctx in
    let ctx :=
      set_scratch_lzw_pixels (wr (scratch_lzw_pixels ctx) (nextcode st) (c st)) ctx in
    let st := set_c (rd (scratch_lzw_pixels ctx) (code st)) st in
    let ctx :=
      set_scratch_lzw_pixels
        (wr (scratch_lzw_pixels ctx) (GIF_LZW_TABLE_ENTRIES + nextcode st) (c st)) ctx in
    (ctx, st)
  else (ctx, st).

(** [nextcode++] and the code-width bump. *)
Definition lzw_bump (st : lzw_locals) : lzw_locals :=
  let st := set_nextcode (u16 (nextcode st + 1)) st in
  if (nextlim st <=? nextcode st) && (codesize st <? GIF_MAX_CODE_SIZE) then
    let st := set_codesize (codesize st + 1) st in
    let st := set_nextlim (u16 (Z.shiftl (nextlim st) 1)) st in
    set_sMask (u32 (nextlim st - 1)) st
  else st.

(** Expansion of [code] appended to the line buffer at
    [current_pixel_idx]. *)
Definition lzw_emit (ctx : GIF_Context) (st : lzw_locals) : GIF_Context * lzw_locals :=
  let pixels := lzw_expand (Z.to_nat GIF_MAX_WIDTH) ctx (code st) [] in
  let pixels_to_copy := Z.of_nat (length pixels) in
  let ctx :=
    set_scratch_line_buffer
      (wr_seq (scratch_line_buffer ctx) (current_pixel_idx st) pixels) ctx in
  (ctx, set_current_pixel_idx (current_pixel_idx st + pixels_to_copy) st).

Inductive lzw_step_result : Type :=
  | lzw_step_ok (ctx : GIF_Context) (frame_buffer : list Z) (st : lzw_locals)
  | lzw_step_error (err : Z) (ctx : GIF_Context).

(** The body of [if (code != eoi_code) { ... }] in the main loop: expand the
    code, add the dictionary entry, and flush a line when the line buffer
    holds at least [frame_width] pixels. *)
Definition lzw_process_code (ctx : GIF_Context) (frame_buffer : list Z) (st : lzw_locals)
  : lzw_step_result :=
  let '(ctx, st) := lzw_emit ctx st in
  let '(ctx, st) := lzw_add_entry ctx st in
  let st := lzw_bump st in
  if frame_width ctx <=? current_pixel_idx st then
    match lzw_flush_line ctx frame_buffer st with
    | flush_out_of_bounds =>
        lzw_step_error GIF_ERROR_DECODE
          (gif_report_error ctx GIF_ERROR_DECODE
             "Interlaced GIF decoding error: line out of bounds.")
    | flush_ok frame_buffer st => lzw_step_ok ctx frame_buffer (set_oldcode (code st) st)
    end
  else lzw_step_ok ctx frame_buffer (set_oldcode (code st) st).

(** The main loop [while (code != eoi_code)] and the final
    [return GIF_SUCCESS]. *)
Fixpoint lzw_decode_loop (c_indet : Z) (fuel : nat) (clear_code eoi_code : Z)
    (ctx : GIF_Context) (frame_buffer : list Z) (st : lzw_locals)
  : option (Z * GIF_Context * list Z) :=
  match fuel with
  | O => None
  | S fuel' =>
      if code st =? eoi_code then Some (GIF_SUCCESS, ctx, frame_buffer)
      else
        '(ctx, st) ← GET_LZW_CODE c_indet fuel' eoi_code ctx st;
        if code st =? clear_code then
          r ← init_codetable_safe c_indet fuel' clear_code eoi_code ctx st;
          match r with
          | lzw_init_invalid ctx => Some (GIF_ERROR_DECODE, ctx, frame_buffer)
          | lzw_init_ok ctx st =>
              lzw_decode_loop c_indet fuel' clear_code eoi_code ctx frame_buffer st
          end
        else if negb (code st =? eoi_code) then
          match lzw_process_code ctx frame_buffer st with
          | lzw_step_error err ctx => Some (err, ctx, frame_buffer)
          | lzw_step_ok ctx frame_buffer st =>
              lzw_decode_loop c_indet fuel' clear_code eoi_code ctx frame_buffer st
          end
        else lzw_decode_loop c_indet fuel' clear_code eoi_code ctx frame_buffer st
  end.

Definition lzw_locals_start (ulBits0 : Z) : lzw_locals :=
  {| bitnum := 0; code := 0; oldcode := 0; codesize := 0; nextcode := 0; nextlim := 0;
     sMask := 0; c := 0; ulBits := ulBits0;
     current_pixel_idx := 0; current_line_idx := 0; interlaced_pass := 0 |}.

Definition gif_decode_lzw (c_indet : Z) (fuel : nat) (ctx : GIF_Context)
    (frame_buffer : list Z) : option (Z * GIF_Context * list Z) :=
  let ctx := set_lzw_read_offset 0 ctx in
  let ctx := set_lzw_data_size 0 ctx in
  let ctx := set_lzw_end_of_frame 0 ctx in
  '(more, ctx) ← gif_get_more_lzw_data c_indet fuel ctx;
  if more =? 0 then
    Some (GIF_ERROR_EARLY_EOF,
          gif_report_error ctx GIF_ERROR_EARLY_EOF
            "Failed to get initial LZW data for frame.",
          frame_buffer)
  else
    let st := lzw_locals_start (read_u32_le (scratch_lzw_buffer ctx) 0) in
    let clear_code := u16 (Z.shiftl 1 (lzw_code_start_size ctx)) in
    let eoi_code := u16 (clear_code + 1) in
    let ctx := lzw_init_entries clear_code ctx in
    r ← init_codetable_safe c_indet fuel clear_code eoi_code ctx st;
    match r with
    | lzw_init_invalid ctx => Some (GIF_ERROR_DECODE, ctx, frame_buffer)
    | lzw_init_ok ctx st =>
        lzw_decode_loop c_indet fuel clear_code eoi_code ctx frame_buffer st
    end.

(** ** API *)

(** [memset(ctx, 0, sizeof(GIF_Context))].  The calls already made to a
    callback are history, not part of the structure. *)
Definition zeroed_context (calls : list (Z * string)) : GIF_Context :=
  {| gif_data := []; gif_size := 0; current_pos := 0;
     canvas_width := 0; canvas_height := 0; frame_width := 0; frame_height := 0;
     frame_x_off := 0; frame_y_off := 0; frame_delay_ms := 0; loop_count := 0;
     background_index := 0; transparent_index := 0; has_transparency := 0;
     disposal_method := 0; ucGIFBits := 0;
     global_palette_colors := replicate (Z.to_nat (GIF_MAX_COLORS * 3)) 0;
     local_palette_colors := replicate (Z.to_nat (GIF_MAX_COLORS * 3)) 0;
     active_palette_colors := palette_null;
     lzw_code_start_size := 0; lzw_end_of_frame := 0; lzw_read_offset := 0;
     lzw_data_size := 0;
     scratch_lzw_buffer := []; scratch_lzw_table := []; scratch_lzw_pixels := [];
     scratch_line_buffer := [];
     anim_start_pos := 0;
     file_buf := replicate (Z.to_nat (GIF_LZW_CHUNK_SIZE + 32)) 0;
     error_callback := false; callback_calls := calls |}.

(** The context after the assignments of [gif_init] that precede the first
    read: input range, default loop count, and the partition of the scratch
    buffer (the line buffer is what follows the pixel table). *)
Definition gif_init_context (calls : list (Z * string)) (data : list Z) (size : Z)
    (scratch_buffer : list Z) : GIF_Context :=
  let z := zeroed_context calls in
  let table_off := Z.to_nat GIF_SCRATCH_LZW_MAIN_BUF_SIZE in
  let pixels_off := Z.to_nat (GIF_SCRATCH_LZW_MAIN_BUF_SIZE + GIF_SCRATCH_LZW_TABLE_SIZE) in
  let line_off := Z.to_nat (GIF_SCRATCH_LZW_MAIN_BUF_SIZE + GIF_SCRATCH_LZW_TABLE_SIZE
                            + GIF_SCRATCH_LZW_PIXELS_SIZE) in
  {| gif_data := data; gif_size := size; current_pos := 0;
     canvas_width := 0; canvas_height := 0; frame_width := 0; frame_height := 0;
     frame_x_off := 0; frame_y_off := 0; frame_delay_ms := 0; loop_count := -1;
     background_index := 0; transparent_index := 0; has_transparency := 0;
     disposal_method := 0; ucGIFBits := 0;
     global_palette_colors := global_palette_colors z;
     local_palette_colors := local_palette_colors z;
     active_palette_colors := palette_null;
     lzw_code_start_size := 0; lzw_end_of_frame := 0; lzw_read_offset := 0;
     lzw_data_size := 0;
     scratch_lzw_buffer := take table_off scratch_buffer;
     scratch_lzw_table :=
       u16_cells (drop table_off scratch_buffer) (Z.to_nat GIF_LZW_TABLE_ENTRIES);
     scratch_lzw_pixels :=
       take (Z.to_nat GIF_SCRATCH_LZW_PIXELS_SIZE) (drop pixels_off scratch_buffer);
     scratch_line_buffer := drop line_off scratch_buffer;
     anim_start_pos := 0;
     file_buf := file_buf z;
     error_callback := false; callback_calls := calls |}.

Definition set_canvas (w h : Z) (ctx : GIF_Context) : GIF_Context :=
  {| gif_data := gif_data ctx; gif_size := gif_size ctx; current_pos := current_pos ctx;
     canvas_width := w; canvas_height := h;
     frame_width := frame_width ctx; frame_height := frame_height ctx;
     frame_x_off := frame_x_off ctx; frame_y_off := frame_y_off ctx;
     frame_delay_ms := frame_delay_ms ctx; loop_count := loop_count ctx;
     background_index := background_index ctx;
     transparent_index := transparent_index ctx;
     has_transparency := has_transparency ctx; disposal_method := disposal_method ctx;
     ucGIFBits := ucGIFBits ctx;
     global_palette_colors := global_palette_colors ctx;
     local_palette_colors := local_palette_colors ctx;
     active_palette_colors := active_palette_colors ctx;
     lzw_code_start_size := lzw_code_start_size ctx;
     lzw_end_of_frame := lzw_end_of_frame ctx; lzw_read_offset := lzw_read_offset ctx;
     lzw_data_size := lzw_data_size ctx;
     scratch_lzw_buffer := scratch_lzw_buffer ctx;
     scratch_lzw_table := scratch_lzw_table ctx;
     scratch_lzw_pixels := scratch_lzw_pixels ctx;
     scratch_line_buffer := scratch_line_buffer ctx;
     anim_start_pos := anim_start_pos ctx; file_buf := file_buf ctx;
     error_callback := error_callback ctx; callback_calls := callback_calls ctx |}.

(** [gif_init]; [ctx] is the structure as the caller hands it over (only its
    callback matters, for the two reports made before it is cleared), and
    the pointers are taken to be non-null. *)
Definition gif_init (ctx : GIF_Context) (data : list Z) (size : Z)
    (scratch_buffer : list Z) (scratch_buffer_size : Z) : Z * GIF_Context :=
  if size =? 0 then
    (GIF_ERROR_INVALID_PARAM,
     gif_report_error ctx GIF_ERROR_INVALID_PARAM "Invalid parameters for gif_init.")
  else if scratch_buffer_size <? GIF_SCRATCH_BUFFER_REQUIRED_SIZE then
    (GIF_ERROR_BUFFER_TOO_SMALL,
     gif_report_error ctx GIF_ERROR_BUFFER_TOO_SMALL
       "Scratch buffer too small. Required: %zu bytes.")
  else
    let ctx := gif_init_context (callback_calls ctx) data size scratch_buffer in
    let '(n, bytes, ctx) := gif_read_bytes_internal ctx 13 in
    let ctx := set_file_buf (wr_seq (file_buf ctx) 0 bytes) ctx in
    if n <? 13 then
      (GIF_ERROR_EARLY_EOF,
       gif_report_error ctx GIF_ERROR_EARLY_EOF "Early EOF while reading GIF header.")
    else if negb (bool_decide (rd_seq (file_buf ctx) 0 3 = [71; 73; 70]))
            || (negb (bool_decide (rd_seq (file_buf ctx) 3 3 = [56; 55; 97]))
                && negb (bool_decide (rd_seq (file_buf ctx) 3 3 = [56; 57; 97])))
    then
      (GIF_ERROR_BAD_FILE,
       gif_report_error ctx GIF_ERROR_BAD_FILE "Invalid GIF signature.")
    else
      let ctx :=
        set_canvas (gif_read_u16_le (file_buf ctx) 6) (gif_read_u16_le (file_buf ctx) 8)
          ctx in
      let fdsz := rd (file_buf ctx) 10 in
      let gct_size := Z.shiftl 1 (Z.land fdsz 7 + 1) in
      if negb (Z.land fdsz 128 =? 0) && (gct_size >? GIF_MAX_COLORS) then
        (GIF_ERROR_UNSUPPORTED_COLOR_DEPTH,
         gif_report_error ctx GIF_ERROR_UNSUPPORTED_COLOR_DEPTH
           "Global Color Table size exceeds GIF_MAX_COLORS.")
      else
        let '(n, bytes, ctx) :=
          if negb (Z.land fdsz 128 =? 0)
          then gif_read_bytes_internal ctx (gct_size * 3)
          else (gct_size * 3, [], ctx) in
        let ctx :=
          set_global_palette_colors (wr_seq (global_palette_colors ctx) 0 bytes) ctx in
        if n <? gct_size * 3 then
          (GIF_ERROR_EARLY_EOF,
           gif_report_error ctx GIF_ERROR_EARLY_EOF
             "Early EOF while reading Global Color Table.")
        else
          let ctx := set_background_index (rd (file_buf ctx) 11) ctx in
          let ctx := set_active_palette_colors palette_global ctx in
          let ctx := set_anim_start_pos (current_pos ctx) ctx in
          (GIF_SUCCESS, ctx).

Definition gif_get_info (ctx : GIF_Context) : Z * Z * Z :=
  (GIF_SUCCESS, canvas_width ctx, canvas_height ctx).

Definition gif_rewind (ctx : GIF_Context) : GIF_Context :=
  let ctx := set_current_pos (anim_start_pos ctx) ctx in
  let ctx := set_lzw_end_of_frame 0 ctx in
  let ctx := set_lzw_read_offset 0 ctx in
  set_lzw_data_size 0 ctx.

Definition gif_close (ctx : GIF_Context) : GIF_Context :=
  zeroed_context (callback_calls ctx).

Definition gif_set_error_callback (ctx : GIF_Context) (callback : bool) : GIF_Context :=
  set_error_callback callback ctx.

(** [if (loop_count == -1 || loop_count > 0) { if (loop_count > 0)
    loop_count--; gif_rewind(ctx); }]: [None] is the [else] branch. *)
Definition gif_loop_again (ctx : GIF_Context) : option GIF_Context :=
  if (loop_count ctx =? -1) || (loop_count ctx >? 0) then
    let ctx :=
      if loop_count ctx >? 0 then set_loop_count (loop_count ctx - 1) ctx else ctx in
    Some (gif_rewind ctx)
  else None.

Inductive scan_result : Type :=
  | scan_return (ret : Z) (ctx : GIF_Context)
  | scan_done (ctx : GIF_Context).

(** The [while (ctx->current_pos < ctx->gif_size)] loop of
    [gif_next_frame]: it either returns from the function or is left (by
    [break] or by its condition). *)
Fixpoint gif_next_frame_scan (fuel : nat) (ctx : GIF_Context) : option scan_result :=
  match fuel with
  | O => None
  | S fuel' =>
      if current_pos ctx <? gif_size ctx then
        let '(separator, ctx) := gif_read_byte_internal ctx in
        if separator =? 59 then
          match gif_loop_again ctx with
          | Some ctx => gif_next_frame_scan fuel' ctx
          | None => Some (scan_return 0 ctx)
          end
        else if separator =? 33 then
          ctx ← gif_read_ext fuel' ctx;
          gif_next_frame_scan fuel' ctx
        else if separator =? 44 then Some (scan_done ctx)
        else
          Some (scan_return (-1)
                  (gif_report_error ctx GIF_ERROR_BAD_FILE
                     "Unexpected byte in GIF stream."))
      else Some (scan_done ctx)
  end.

(** [gif_next_frame] from the test that follows the scan loop on: the image
    descriptor, the local colour table, and the LZW data.  The result is
    the return value, the context, the canvas and [*delay_ms]. *)
Definition gif_next_frame_image (c_indet : Z) (fuel : nat) (ctx : GIF_Context)
    (frame_buffer : list Z) (delay_ms : Z) : option (Z * GIF_Context * list Z * Z) :=
  if gif_size ctx <=? current_pos ctx then Some (0, ctx, frame_buffer, delay_ms)
  else
    let ctx := set_frame_x_off (gif_read_u16_le (gif_data ctx) (current_pos ctx)) ctx in
    let ctx := gif_skip_bytes_internal ctx 2 in
    let ctx := set_frame_y_off (gif_read_u16_le (gif_data ctx) (current_pos ctx)) ctx in
    let ctx := gif_skip_bytes_internal ctx 2 in
    let ctx := set_frame_width (gif_read_u16_le (gif_data ctx) (current_pos ctx)) ctx in
    let ctx := gif_skip_bytes_internal ctx 2 in
    let ctx := set_frame_height (gif_read_u16_le (gif_data ctx) (current_pos ctx)) ctx in
    let ctx := gif_skip_bytes_internal ctx 2 in
    if (frame_width ctx =? 0) || (frame_height ctx =? 0) then
      Some (-1, gif_report_error ctx GIF_ERROR_INVALID_FRAME_DIMENSIONS
                  "Frame has zero width or height.", frame_buffer, delay_ms)
    else if (frame_x_off ctx + frame_width ctx >? canvas_width ctx)
            || (frame_y_off ctx + frame_height ctx >? canvas_height ctx) then
      Some (-1, gif_report_error ctx GIF_ERROR_INVALID_FRAME_DIMENSIONS
                  "Frame extends beyond canvas boundaries.", frame_buffer, delay_ms)
    else
      let '(fisrz, ctx) := gif_read_byte_internal ctx in
      let ctx := set_ucGIFBits fisrz ctx in
      let lct_size := Z.shiftl 1 (Z.land fisrz 7 + 1) in
      if negb (Z.land fisrz 128 =? 0) && (lct_size >? GIF_MAX_COLORS) then
        Some (-1, gif_report_error ctx GIF_ERROR_UNSUPPORTED_COLOR_DEPTH
                    "Local Color Table size exceeds GIF_MAX_COLORS.",
              frame_buffer, delay_ms)
      else
        let '(n, bytes, ctx) :=
          if negb (Z.land fisrz 128 =? 0)
          then gif_read_bytes_internal ctx (lct_size * 3)
          else (lct_size * 3, [], ctx) in
        let ctx :=
          set_local_palette_colors (wr_seq (local_palette_colors ctx) 0 bytes) ctx in
        if n <? lct_size * 3 then
          Some (-1, gif_report_error ctx GIF_ERROR_EARLY_EOF
                      "Early EOF while reading Local Color Table.",
                frame_buffer, delay_ms)
        else
          let ctx :=
            set_active_palette_colors
              (if negb (Z.land fisrz 128 =? 0) then palette_local else palette_global)
              ctx in
          let '(start_size, ctx) := gif_read_byte_internal ctx in
          let ctx := set_lzw_code_start_size start_size ctx in
          '(decode_result, ctx, frame_buffer) ← gif_decode_lzw c_indet fuel ctx frame_buffer;
          if negb (decode_result =? GIF_SUCCESS) then
            Some (-1, gif_report_error ctx decode_result "LZW decoding failed for frame.",
                  frame_buffer, delay_ms)
          else Some (1, ctx, frame_buffer, frame_delay_ms ctx).

(** [gif_next_frame], with non-null arguments. *)
Definition gif_next_frame (c_indet : Z) (fuel : nat) (ctx : GIF_Context)
    (frame_buffer : list Z) (delay_ms : Z) : option (Z * GIF_Context * list Z * Z) :=
  let start :=
    if gif_size ctx <=? current_pos ctx then
      match gif_loop_again ctx with
      | Some ctx => scan_done ctx
      | None => scan_return 0 ctx
      end
    else scan_done ctx in
  match start with
  | scan_return ret ctx => Some (ret, ctx, frame_buffer, delay_ms)
  | scan_done ctx =>
      r ← gif_next_frame_scan fuel ctx;
      match r with
      | scan_return ret ctx => Some (ret, ctx, frame_buffer, delay_ms)
      | scan_done ctx => gif_next_frame_image c_indet fuel ctx frame_buffer delay_ms
      end
  end.

(** * Vocabulary of the statements *)

(** ** The cursor invariant *)

Definition cursor_ok (ctx : GIF_Context) : Prop :=
  0 <= current_pos ctx <= gif_size ctx
  /\ 0 <= anim_start_pos ctx <= gif_size ctx
  /\ gif_size ctx < 18446744073709551616.

(** Context states between API calls: after a successful [gif_init], and
    after any later [gif_next_frame], [gif_rewind] or
    [gif_set_error_callback]. *)
Inductive reachable : GIF_Context -> Prop :=
  | reachable_init ctx0 data size scratch scratch_size ctx :
      0 <= size < 18446744073709551616 ->
      gif_init ctx0 data size scratch scratch_size = (GIF_SUCCESS, ctx) ->
      reachable ctx
  | reachable_next_frame c_indet fuel ctx fb delay ret ctx' fb' delay' :
      reachable ctx ->
      gif_next_frame c_indet fuel ctx fb delay = Some (ret, ctx', fb', delay') ->
      reachable ctx'
  | reachable_rewind ctx : reachable ctx -> reachable (gif_rewind ctx)
  | reachable_set_error_callback ctx cb :
      reachable ctx -> reachable (gif_set_error_callback ctx cb).

(** What a graphic-control extension sets. *)
Definition gce_state (ctx : GIF_Context) : Z * Z * Z * Z :=
  (disposal_method ctx, has_transparency ctx, transparent_index ctx, frame_delay_ms ctx).

(** The source bytes a column receives, if any. *)
Definition composited (ctx : GIF_Context) (x : Z) : option (list Z) :=
  let pixel_index := rd (scratch_line_buffer ctx) x in
  if negb (has_transparency ctx =? 0) && (pixel_index =? transparent_index ctx) then
    if disposal_method ctx =? 2
    then Some (rd_seq (active_palette ctx) (background_index ctx * 3) 3)
    else None
  else Some (rd_seq (active_palette ctx) (pixel_index * 3) 3).


(** A cell of the input is a byte. *)
Definition is_byte (b : Z) : Prop := 0 <= b < 256.


(** ** Test inputs *)

(** A zero-filled scratch buffer of the required size. *)
Definition scratch_zero : list Z :=
  replicate (Z.to_nat GIF_SCRATCH_BUFFER_REQUIRED_SIZE) 0.

(** [gif_init] on [data] with a zero-filled scratch buffer, then
    [gif_set_error_callback] with a callback. *)
Definition open_gif (data : list Z) : GIF_Context :=
  gif_set_error_callback
    (gif_init (zeroed_context []) data (Z.of_nat (length data)) scratch_zero
       GIF_SCRATCH_BUFFER_REQUIRED_SIZE).2
    true.

Definition call_ret (r : option (Z * GIF_Context * list Z * Z)) : option Z :=
  '(ret, _, _, _) ← r; Some ret.
Definition call_ctx (r : option (Z * GIF_Context * list Z * Z)) : GIF_Context :=
  match r with Some (_, ctx, _, _) => ctx | None => zeroed_context [] end.
Definition call_canvas (r : option (Z * GIF_Context * list Z * Z)) : list Z :=
  match r with Some (_, _, fb, _) => fb | None => [] end.
Definition call_delay (r : option (Z * GIF_Context * list Z * Z)) : Z :=
  match r with Some (_, _, _, d) => d | None => 0 end.

(** The next call of [gif_next_frame] after the call that gave [r]. *)
Definition call_again (c_indet : Z) (fuel : nat) (r : option (Z * GIF_Context * list Z * Z))
  : option (Z * GIF_Context * list Z * Z) :=
  '(_, ctx, fb, d) ← r; gif_next_frame c_indet fuel ctx fb d.

(** The return values of [n] successive calls of [gif_next_frame]. *)
Fixpoint play (c_indet : Z) (fuel : nat) (n : nat) (ctx : GIF_Context) (fb : list Z)
    (d : Z) : option (list Z) :=
  match n with
  | O => Some []
  | S n' =>
      '(ret, ctx, fb, d) ← gif_next_frame c_indet fuel ctx fb d;
      rets ← play c_indet fuel n' ctx fb d;
      Some (ret :: rets)
  end.
Definition gif_minimal : list Z :=
  [71; 73; 70; 56; 57; 97; 1; 0; 1; 0; 128; 0; 0; 0; 0; 0; 255; 255; 255; 44; 0; 0; 0; 0; 1; 0; 1; 0; 0; 2; 2; 76; 1; 0; 59].
Definition gif_bad_code : list Z :=
  [71; 73; 70; 56; 57; 97; 2; 0; 1; 0; 128; 0; 0; 0; 0; 0; 255; 255; 255; 44; 0; 0; 0; 0; 2; 0; 1; 0; 0; 2; 2; 204; 11; 0; 59].
Definition gif_column : list Z :=
  [71; 73; 70; 56; 57; 97; 1; 0; 4; 0; 128; 0; 0; 0; 0; 0; 255; 255; 255; 44; 0; 0; 0; 0; 1; 0; 4; 0; 0; 2; 2; 68; 92; 0; 59].
Definition gif_two_frames : list Z :=
  [71; 73; 70; 56; 57; 97; 2; 0; 1; 0; 129; 0; 0; 0; 0; 0; 255; 0; 0; 0; 255; 0; 0; 0; 255; 33; 249; 4; 9; 5; 0; 3; 0; 44; 0; 0; 0; 0; 2; 0; 1; 0; 0; 2; 2; 76; 10; 0; 44; 0; 0; 0; 0; 2; 0; 1; 0; 0; 2; 2; 156; 10; 0; 59].
Definition gif_loop0 : list Z :=
  [71; 73; 70; 56; 57; 97; 2; 0; 1; 0; 128; 0; 0; 0; 0; 0; 255; 255; 255; 33; 255; 11; 78; 69; 84; 83; 67; 65; 80; 69; 50; 46; 48; 3; 1; 0; 0; 0; 44; 0; 0; 0; 0; 2; 0; 1; 0; 0; 2; 2; 12; 10; 0; 59].
Definition gif_loop2 : list Z :=
  [71; 73; 70; 56; 57; 97; 2; 0; 1; 0; 128; 0; 0; 0; 0; 0; 255; 255; 255; 33; 255; 11; 78; 69; 84; 83; 67; 65; 80; 69; 50; 46; 48; 3; 1; 2; 0; 0; 44; 0; 0; 0; 0; 2; 0; 1; 0; 0; 2; 2; 12; 10; 0; 59].
Definition gif_truncated : list Z :=
  [71; 73; 70; 56; 57; 97; 2; 0; 2; 0; 128; 0; 0; 0; 0; 0; 255; 255; 255; 44; 0; 0; 0; 0; 2; 0; 2; 0; 0; 2; 2; 76].

(** ** Sub-block sequences *)

(** The bytes of a sub-block sequence: every block behind its length byte,
    then the zero-length terminator. *)
Definition sub_blocks (bs : list (list Z)) : list Z :=
  concat (map (fun b => Z.of_nat (length b) :: b) bs) ++ [0].

(** A data sub-block holds 1 to 255 bytes. *)
Definition block_ok (b : list Z) : Prop := (0 < length b <= 255)%nat.

(** ** The header *)

(** Size in bytes of the global colour table announced by the packed byte
    of the logical screen descriptor (0 when the flag is clear). *)
Definition gct_bytes (data : list Z) : Z :=
  if Z.land (rd data 10) 128 =? 0 then 0 else 3 * 2 ^ (rd data 10 mod 8 + 1).

(** The six signature bytes are "GIF87a" or "GIF89a". *)
Definition signature_ok (data : list Z) : bool :=
  bool_decide (rd_seq data 0 3 = [71; 73; 70])
  && (bool_decide (rd_seq data 3 3 = [56; 55; 97])
      || bool_decide (rd_seq data 3 3 = [56; 57; 97])).

(** ** The frame rectangle *)

(** The frame rectangle and the canvas size. *)
Definition frame_rect (ctx : GIF_Context) : Z * Z * Z * Z * Z * Z :=
  (frame_x_off ctx, frame_y_off ctx, frame_width ctx, frame_height ctx,
   canvas_width ctx, canvas_height ctx).

(** The frame is not empty and lies inside the canvas. *)
Definition frame_inside_canvas (ctx : GIF_Context) : Prop :=
  frame_width ctx <> 0 /\ frame_height ctx <> 0
  /\ frame_x_off ctx + frame_width ctx <= canvas_width ctx
  /\ frame_y_off ctx + frame_height ctx <= canvas_height ctx.

(** ** More test inputs *)

(** A 1x1 GIF whose first byte after the colour table is 0. *)
Definition gif_stray : list Z :=
  [71; 73; 70; 56; 57; 97; 1; 0; 1; 0; 128; 0; 0; 0; 0; 0; 255; 255; 255; 0; 59].
(** A 1x1 GIF whose image descriptor has width 0. *)
Definition gif_zero_width : list Z :=
  [71; 73; 70; 56; 57; 97; 1; 0; 1; 0; 128; 0; 0; 0; 0; 0; 255; 255; 255;
   44; 0; 0; 0; 0; 0; 0; 1; 0; 0; 2; 2; 76; 1; 0; 59].
(** A 1x1 GIF whose image descriptor is 2x1. *)
Definition gif_oversize : list Z :=
  [71; 73; 70; 56; 57; 97; 1; 0; 1; 0; 128; 0; 0; 0; 0; 0; 255; 255; 255;
   44; 0; 0; 0; 0; 2; 0; 1; 0; 0; 2; 2; 76; 1; 0; 59].

(** ** The decoder's code width *)

(** [codesize] is at most [GIF_MAX_CODE_SIZE], [nextlim] is [1 << codesize]
    and [sMask] selects [codesize] bits. *)
Definition code_width_ok (st : lzw_locals) : Prop :=
  0 <= codesize st <= GIF_MAX_CODE_SIZE
  /\ nextlim st = 2 ^ codesize st
  /\ sMask st = 2 ^ codesize st - 1.

(** What the frame header hands to the decoder. *)
Definition decoder_inputs (ctx : GIF_Context) : Z * Z :=
  (lzw_code_start_size ctx, ucGIFBits ctx).

(** ** The callback history *)

(** Between [ctx] and [ctx'] the callback was called at least once, and its
    last call carried one of [codes]. *)
Definition reported (ctx ctx' : GIF_Context) (codes : list Z) : Prop :=
  exists l code msg,
    callback_calls ctx' = callback_calls ctx ++ l ++ [(code, msg)] /\ code ∈ codes.

(** The callback is set, and the history [calls] has only been added to. *)
Definition callback_history (calls : list (Z * string)) (ctx : GIF_Context) : Prop :=
  error_callback ctx = true /\ calls `prefix_of` callback_calls ctx.

(** A 1x1 GIF with a comment extension ("hi") before its image. *)
Definition gif_comment : list Z :=
  [71; 73; 70; 56; 57; 97; 1; 0; 1; 0; 128; 0; 0; 0; 0; 0; 255; 255; 255;
   33; 254; 2; 104; 105; 0;
   44; 0; 0; 0; 0; 1; 0; 1; 0; 0; 2; 2; 76; 1; 0; 59].

(** ** What only [gif_init] sets *)

(** The input, the canvas size, the background index, the global colour
    table, the start of the animation and the callback. *)
Definition header_state (ctx : GIF_Context)
  : list Z * Z * Z * Z * Z * list Z * Z * bool :=
  (gif_data ctx, gif_size ctx, canvas_width ctx, canvas_height ctx,
   background_index ctx, global_palette_colors ctx, anim_start_pos ctx,
   error_callback ctx).

(** ** The byte copier that the turbo configuration calls *)

(** [while (d + sizeof(uint32_t) <= pEnd && (uintptr_t)s % 4 == 0
    && (uintptr_t)d % 4 == 0)]: four bytes are read at [s] and then stored
    at [d].  [base] is the address of [buf[0]]; [s], [d] and [pEnd] are
    indices into [buf]. *)
Fixpoint lzw_copy_words (n : nat) (base : Z) (buf : list Z) (s d pEnd : Z)
  : list Z * Z * Z :=
  match n with
  | O => (buf, s, d)
  | S n' =>
      if (d + 4 <=? pEnd) && ((base + s) mod 4 =? 0) && ((base + d) mod 4 =? 0)
      then lzw_copy_words n' base (wr_seq buf d (rd_seq buf s 4)) (s + 4) (d + 4) pEnd
      else (buf, s, d)
  end.

(** [while (d < pEnd) *d++ = *s++;] *)
Fixpoint lzw_copy_tail (n : nat) (buf : list Z) (s d pEnd : Z) : list Z :=
  match n with
  | O => buf
  | S n' =>
      if d <? pEnd then lzw_copy_tail n' (wr buf d (rd buf s)) (s + 1) (d + 1) pEnd
      else buf
  end.

(** [gif_lzw_copy_bytes]: [symbols] and [lengths] are the two cells pointed
    to, taken to lie outside [buf]; the result is the return value, the
    buffer and the two cells.  Neither loop runs more than [len] times. *)
Definition gif_lzw_copy_bytes (base : Z) (buf : list Z) (offset symbols lengths : Z)
  : Z * list Z * Z * Z :=
  let len := lengths in
  let u32Offset := symbols in
  let s := Z.land u32Offset 8388607 in
  let d := offset in
  let pEnd := d + len in
  if offset + len >? GIF_LZW_BASE_BUF_SIZE + GIF_LZW_TABLE_ENTRIES * 2 then
    (0, buf, symbols, lengths)
  else
    let '(buf, s, d) := lzw_copy_words (Z.to_nat len) base buf s d pEnd in
    let buf := lzw_copy_tail (Z.to_nat len) buf s d pEnd in
    if negb (Z.land u32Offset 8388608 =? 0) then
      let d := pEnd in
      let len := len + 1 in
      if offset + len >? GIF_LZW_BASE_BUF_SIZE + GIF_LZW_TABLE_ENTRIES * 2 then
        (0, buf, symbols, lengths)
      else
        (len, wr buf d (u8 (Z.shiftr u32Offset 24)), u32 offset, u16 len)
    else (len, buf, symbols, lengths).

(** The copy of [n] bytes from index [s] to index [d], one byte at a time
    from the lowest index up: the reference that [gif_lzw_copy_bytes] is
    compared with. *)
Fixpoint copy_forward (n : nat) (buf : list Z) (s d : Z) : list Z :=
  match n with
  | O => buf
  | S n' => copy_forward n' (wr buf d (rd buf s)) (s + 1) (d + 1)
  end.

(** ** [gif_next_frame] with its pointer arguments *)


(** ** Canvas addresses *)

(** Byte offset in the canvas of column [x] of frame row [y]: the pixel at
    canvas column [frame_x_off + x] of canvas row [frame_y_off + y], three
    bytes per pixel, in unbounded arithmetic. *)
Definition canvas_offset (ctx : GIF_Context) (y x : Z) : Z :=
  ((frame_y_off ctx + y) * canvas_width ctx + (frame_x_off ctx + x)) * 3.

(** ** Streams without a kind of extension *)

(** No extension introducer 0x21 of the input is followed by the label
    [label]. *)
Definition no_extension (label : Z) (data : list Z) : Prop :=
  forall i, 0 <= i -> rd data i = 33 -> rd data (i + 1) <> label.

(** [g] is what a graphic-control block of the input of [ctx0] sets: the
    state after [gif_read_graphic_control_ext] on a context with the same
    input whose cursor stands just behind the bytes 0x21 0xF9. *)
Definition set_by_graphic_control (ctx0 : GIF_Context) (g : Z * Z * Z * Z) : Prop :=
  exists c,
    gif_data c = gif_data ctx0 /\ gif_size c = gif_size ctx0
    /\ 2 <= current_pos c <= gif_size c
    /\ rd (gif_data c) (current_pos c - 2) = 33
    /\ rd (gif_data c) (current_pos c - 1) = 249
    /\ g = gce_state (gif_read_graphic_control_ext c).

(** ** Test inputs for the row address and for a late truncation *)

(** A GIF with a 34179 x 41888 canvas and one interlaced 1x1 frame at
    (0, 41887), LZW codes CLEAR, 1, 1, END; the frame's only pixel is at
    canvas byte 3 * 34179 * 41887 = 4294967319 = 2^32 + 23. *)
Definition gif_wide_canvas : list Z :=
  [71; 73; 70; 56; 57; 97; 131; 133; 160; 163; 128; 0; 0; 0; 0; 0; 255; 255; 255;
   44; 0; 0; 159; 163; 1; 0; 1; 0; 64; 2; 2; 76; 10; 0; 59].


(** ** A row on the canvas *)

(** Between the canvases [fb] and [fb'], frame row [y] has been composited
    at its place: every column of the row holds the three bytes it
    receives (or keeps its bytes when it receives none), and no byte
    outside the row has changed. *)
Definition row_composited (ctx : GIF_Context) (y : Z) (fb fb' : list Z) : Prop :=
  (forall x, 0 <= x < frame_width ctx ->
     rd_seq fb' (canvas_offset ctx y x) 3
     = default (rd_seq fb (canvas_offset ctx y x) 3) (composited ctx x))
  /\ (forall j, j < canvas_offset ctx y 0 \/ canvas_offset ctx y (frame_width ctx) <= j ->
        rd fb' j = rd fb j).

(** The input of [c] is that of [ctx0], and the graphic-control state of
    [c] is that of [ctx0] or what a graphic-control block of the input
    sets. *)
Definition graphic_control_kept (ctx0 c : GIF_Context) : Prop :=
  gif_data c = gif_data ctx0 /\ gif_size c = gif_size ctx0
  /\ (gce_state c = gce_state ctx0 \/ set_by_graphic_control ctx0 (gce_state c)).

(** * Properties *)

#[local] Opaque lzw_expand.

(** ** Arrays *)

Lemma size_t_range z : 0 <= size_t z < 18446744073709551616.
Proof. unfold size_t. apply Z.mod_pos_bound. lia. Qed.

Lemma size_t_small z : 0 <= z < 18446744073709551616 -> size_t z = z.
Proof. intros. unfold size_t. apply Z.mod_small. lia. Qed.

Lemma length_wr (l : list Z) i v : length (wr l i v) = length l.
Proof. unfold wr. case_match; [done | apply length_insert]. Qed.

Lemma rd_wr_eq (l : list Z) i v :
  0 <= i < Z.of_nat (length l) -> rd (wr l i v) i = v.
Proof.
  intros H. unfold rd, wr.
  destruct (i <? 0) eqn:E; [lia |].
  rewrite list_lookup_insert_eq; [done | lia].
Qed.

Lemma rd_wr_ne (l : list Z) i j v : i <> j -> rd (wr l i v) j = rd l j.
Proof.
  intros H. unfold rd, wr.
  destruct (j <? 0) eqn:Ej; [done |].
  destruct (i <? 0) eqn:Ei; [done |].
  rewrite list_lookup_insert_ne; [done | lia].
Qed.

Lemma length_wr_seq_at (l : list Z) : forall off src, length (wr_seq_at l off src) = length l.
Proof.
  induction l as [| x l IH]; intros off src; [done |].
  destruct off as [| off]; [destruct src |]; simpl; by rewrite ?IH.
Qed.

Lemma length_wr_seq src (l : list Z) off : length (wr_seq l off src) = length l.
Proof. unfold wr_seq. destruct (off <? 0); apply length_wr_seq_at. Qed.

Lemma lookup_wr_seq_at (l : list Z) : forall off src k,
  wr_seq_at l off src !! k
  = if decide (off <= k < off + length src)%nat
    then (if decide (k < length l)%nat then src !! (k - off)%nat else None)
    else l !! k.
Proof.
  induction l as [| x l IH]; intros off src k.
  { repeat case_decide; simpl in *; done || lia. }
  destruct off as [| off].
  - destruct src as [| b src].
    + case_decide; [simpl in *; lia | done].
    + destruct k as [| k].
      * repeat case_decide; simpl in *; done || lia.
      * cbn [wr_seq_at]. rewrite !lookup_cons. rewrite IH.
        repeat case_decide; simpl in *; try lia; try done.
        by rewrite Nat.sub_0_r.
  - destruct k as [| k].
    + case_decide; [lia | done].
    + cbn [wr_seq_at]. rewrite !lookup_cons. rewrite IH.
      repeat case_decide; simpl in *; try lia; done.
Qed.

Lemma rd_wr_seq_outside src (l : list Z) off j :
  j < off \/ off + Z.of_nat (length src) <= j -> rd (wr_seq l off src) j = rd l j.
Proof.
  intros H. unfold rd, wr_seq.
  destruct (j <? 0) eqn:Ej; [done |].
  destruct (off <? 0) eqn:Eo; rewrite lookup_wr_seq_at; case_decide; try done.
  - rewrite length_drop in *. lia.
  - lia.
Qed.

Lemma rd_wr_seq_inside src (l : list Z) off j :
  0 <= off -> off <= j < off + Z.of_nat (length src) -> j < Z.of_nat (length l) ->
  rd (wr_seq l off src) j = rd src (j - off).
Proof.
  intros Hoff Hj Hl. unfold rd, wr_seq.
  destruct (j <? 0) eqn:Ej; [lia |].
  destruct (off <? 0) eqn:Eo; [lia |].
  destruct (j - off <? 0) eqn:Ed; [lia |].
  rewrite lookup_wr_seq_at. repeat case_decide; try lia.
  by replace (Z.to_nat j - Z.to_nat off)%nat with (Z.to_nat (j - off)) by lia.
Qed.

Lemma length_rd_seq n : forall (l : list Z) off, length (rd_seq l off n) = n.
Proof. induction n as [| n IH]; intros; simpl; [done | by rewrite IH]. Qed.

Lemma rd_rd_seq n : forall (l : list Z) off k,
  0 <= k < Z.of_nat n -> rd (rd_seq l off n) k = rd l (off + k).
Proof.
  induction n as [| n IH]; intros l off k Hk; simpl; [lia |].
  destruct (decide (k = 0)) as [-> | Hne].
  - by rewrite Z.add_0_r.
  - unfold rd at 1. destruct (k <? 0) eqn:E; [lia |].
    replace (Z.to_nat k) with (S (Z.to_nat (k - 1))) by lia. simpl.
    specialize (IH l (off + 1) (k - 1)).
    unfold rd at 1 in IH. destruct (k - 1 <? 0) eqn:E'; [lia |].
    rewrite IH by lia. f_equal. lia.
Qed.

(** ** What the LZW decoder leaves alone *)


Section LzwPreserves.
Variable P : GIF_Context -> Prop.
Hypothesis P_read_byte : forall ctx, P ctx -> P (gif_read_byte_internal ctx).2.
Hypothesis P_read_bytes : forall ctx len, P ctx -> P (gif_read_bytes_internal ctx len).2.
Hypothesis P_report : forall ctx e m, P ctx -> P (gif_report_error ctx e m).
Hypothesis P_end_of_frame : forall v ctx, P ctx -> P (set_lzw_end_of_frame v ctx).
Hypothesis P_read_offset : forall v ctx, P ctx -> P (set_lzw_read_offset v ctx).
Hypothesis P_data_size : forall v ctx, P ctx -> P (set_lzw_data_size v ctx).
Hypothesis P_lzw_buffer : forall v ctx, P ctx -> P (set_scratch_lzw_buffer v ctx).
Hypothesis P_lzw_table : forall v ctx, P ctx -> P (set_scratch_lzw_table v ctx).
Hypothesis P_lzw_pixels : forall v ctx, P ctx -> P (set_scratch_lzw_pixels v ctx).
Hypothesis P_line_buffer : forall v ctx, P ctx -> P (set_scratch_line_buffer v ctx).

Local Hint Resolve P_report P_end_of_frame P_read_offset P_data_size P_lzw_buffer
  P_lzw_table P_lzw_pixels P_line_buffer : core.

Lemma get_more_lzw_data_loop_preserves fuel : forall c ctx r ctx',
  gif_get_more_lzw_data_loop fuel c ctx = Some (r, ctx') -> P ctx -> P ctx'.
Proof.
  induction fuel as [| fuel IH]; intros c ctx r ctx' H HP; simpl in H; [done |].
  destruct (_ && _) in H; [| by simplify_eq].
  pose proof (P_read_byte ctx HP) as Hb.
  destruct (gif_read_byte_internal ctx) as [b ctx1]; simpl in Hb.
  destruct (b =? 0); [simplify_eq; auto |].
  pose proof (P_read_bytes ctx1 b Hb) as Hn.
  destruct (gif_read_bytes_internal ctx1 b) as [[n bytes] ctx2]; simpl in Hn.
  destruct (n <? b); [simplify_eq; auto |].
  eapply IH; [exact H | auto].
Qed.

Lemma get_more_lzw_data_preserves c fuel ctx r ctx' :
  gif_get_more_lzw_data c fuel ctx = Some (r, ctx') -> P ctx -> P ctx'.
Proof.
  unfold gif_get_more_lzw_data. intros H HP.
  destruct (negb _) in H; [by simplify_eq |].
  eapply get_more_lzw_data_loop_preserves; [exact H |].
  repeat case_match; auto.
Qed.

Lemma GET_LZW_CODE_preserves c fuel eoi ctx st ctx' st' :
  GET_LZW_CODE c fuel eoi ctx st = Some (ctx', st') -> P ctx -> P ctx'.
Proof.
  unfold GET_LZW_CODE. intros H HP.
  destruct (_ >? _) in H; [| by simplify_eq].
  destruct (gif_get_more_lzw_data _ _ _) as [[more ctx1] |] eqn:E; cbn [mbind option_bind] in H; [| done].
  apply get_more_lzw_data_preserves in E; [| auto].
  destruct (more =? 0); by simplify_eq.
Qed.

Lemma lzw_init_entries_preserves clear_code ctx :
  P ctx -> P (lzw_init_entries clear_code ctx).
Proof.
  unfold lzw_init_entries. generalize (seqZ 0 clear_code). intros l. revert ctx.
  induction l as [| i l IH]; intros ctx HP; simpl; [done |].
  apply IH. unfold lzw_init_entry. auto.
Qed.

Lemma init_codetable_safe_preserves c fuel clear eoi ctx st r :
  init_codetable_safe c fuel clear eoi ctx st = Some r -> P ctx ->
  match r with lzw_init_ok ctx' _ => P ctx' | lzw_init_invalid ctx' => P ctx' end.
Proof.
  unfold init_codetable_safe. intros H HP.
  destruct (GET_LZW_CODE _ _ _ _ _) as [[ctx1 st1] |] eqn:E1; cbn [mbind option_bind] in H; [| done].
  apply GET_LZW_CODE_preserves in E1; [| unfold lzw_reset_table; auto].
  destruct (code st1 =? clear).
  - destruct (GET_LZW_CODE _ _ _ _ _) as [[ctx2 st2] |] eqn:E2; cbn [mbind option_bind] in H; [| done].
    apply GET_LZW_CODE_preserves in E2; [| done].
    destruct (_ <=? _); inversion H; subst; auto.
  - cbn [mbind option_bind] in H. destruct (_ <=? _); inversion H; subst; auto.
Qed.

Lemma lzw_process_code_preserves ctx fb st :
  P ctx ->
  match lzw_process_code ctx fb st with
  | lzw_step_ok ctx' _ _ => P ctx'
  | lzw_step_error _ ctx' => P ctx'
  end.
Proof.
  intros HP. unfold lzw_process_code, lzw_emit, lzw_add_entry.
  repeat case_match; simplify_eq; auto 10.
Qed.

Lemma lzw_decode_loop_preserves c fuel clear eoi : forall ctx fb st r ctx' fb',
  lzw_decode_loop c fuel clear eoi ctx fb st = Some (r, ctx', fb') -> P ctx -> P ctx'.
Proof.
  induction fuel as [| fuel IH]; intros ctx fb st r ctx' fb' H HP; simpl in H; [done |].
  destruct (code st =? eoi); [by simplify_eq |].
  destruct (GET_LZW_CODE _ _ _ _ _) as [[ctx1 st1] |] eqn:E1; cbn [mbind option_bind] in H; [| done].
  apply GET_LZW_CODE_preserves in E1; [| done].
  destruct (code st1 =? clear).
  - destruct (init_codetable_safe _ _ _ _ _ _) as [r1 |] eqn:E2; cbn [mbind option_bind] in H; [| done].
    apply init_codetable_safe_preserves in E2; [| done].
    destruct r1; [eapply IH; eauto | by simplify_eq].
  - destruct (negb _); [| eapply IH; eauto].
    pose proof (lzw_process_code_preserves ctx1 fb st1 E1) as Hs.
    destruct (lzw_process_code ctx1 fb st1); [eapply IH; eauto | by simplify_eq].
Qed.

Lemma gif_decode_lzw_preserves c fuel ctx fb r ctx' fb' :
  gif_decode_lzw c fuel ctx fb = Some (r, ctx', fb') -> P ctx -> P ctx'.
Proof.
  unfold gif_decode_lzw. intros H HP.
  destruct (gif_get_more_lzw_data _ _ _) as [[more ctx1] |] eqn:E; cbn [mbind option_bind] in H; [| done].
  apply get_more_lzw_data_preserves in E; [| auto].
  destruct (more =? 0); [simplify_eq; auto |].
  destruct (init_codetable_safe _ _ _ _ _ _) as [r1 |] eqn:E2; cbn [mbind option_bind] in H; [| done].
  apply init_codetable_safe_preserves in E2; [| by apply lzw_init_entries_preserves].
  destruct r1; [eapply lzw_decode_loop_preserves; eauto | by simplify_eq].
Qed.
End LzwPreserves.

(** Name the first [let] of a hypothesis [H : (let x := e in b) = r]. *)
Ltac name_let H y :=
  lazymatch type of H with
  | (let x := ?e in @?b x) = ?r =>
      pose (y := e); change (b y = r) in H; cbv beta in H
  end.

(** ** What the image stage of [gif_next_frame] leaves alone *)

Section ImagePreserves.
Variable P : GIF_Context -> Prop.
Hypothesis P_read_byte : forall ctx, P ctx -> P (gif_read_byte_internal ctx).2.
Hypothesis P_read_bytes : forall ctx len, P ctx -> P (gif_read_bytes_internal ctx len).2.
Hypothesis P_skip : forall ctx len, P ctx -> P (gif_skip_bytes_internal ctx len).
Hypothesis P_report : forall ctx e m, P ctx -> P (gif_report_error ctx e m).
Hypothesis P_end_of_frame : forall v ctx, P ctx -> P (set_lzw_end_of_frame v ctx).
Hypothesis P_read_offset : forall v ctx, P ctx -> P (set_lzw_read_offset v ctx).
Hypothesis P_data_size : forall v ctx, P ctx -> P (set_lzw_data_size v ctx).
Hypothesis P_lzw_buffer : forall v ctx, P ctx -> P (set_scratch_lzw_buffer v ctx).
Hypothesis P_lzw_table : forall v ctx, P ctx -> P (set_scratch_lzw_table v ctx).
Hypothesis P_lzw_pixels : forall v ctx, P ctx -> P (set_scratch_lzw_pixels v ctx).
Hypothesis P_line_buffer : forall v ctx, P ctx -> P (set_scratch_line_buffer v ctx).
Hypothesis P_frame_x_off : forall v ctx, P ctx -> P (set_frame_x_off v ctx).
Hypothesis P_frame_y_off : forall v ctx, P ctx -> P (set_frame_y_off v ctx).
Hypothesis P_frame_width : forall v ctx, P ctx -> P (set_frame_width v ctx).
Hypothesis P_frame_height : forall v ctx, P ctx -> P (set_frame_height v ctx).
Hypothesis P_ucGIFBits : forall v ctx, P ctx -> P (set_ucGIFBits v ctx).
Hypothesis P_local_palette : forall v ctx, P ctx -> P (set_local_palette_colors v ctx).
Hypothesis P_active_palette : forall v ctx, P ctx -> P (set_active_palette_colors v ctx).
Hypothesis P_code_start_size : forall v ctx, P ctx -> P (set_lzw_code_start_size v ctx).

Local Hint Resolve P_skip P_report P_frame_x_off P_frame_y_off P_frame_width
  P_frame_height P_ucGIFBits P_local_palette P_active_palette P_code_start_size : core.

Lemma gif_next_frame_image_preserves c fuel ctx fb d ret ctx' fb' d' :
  gif_next_frame_image c fuel ctx fb d = Some (ret, ctx', fb', d') -> P ctx -> P ctx'.
Proof.
  intros H HP. cbv beta delta [gif_next_frame_image] in H.
  destruct (gif_size ctx <=? current_pos ctx); [by inversion H; subst |].
  name_let H c1. assert (P c1) as H1 by (subst c1; auto). clearbody c1.
  name_let H c2. assert (P c2) as H2 by (subst c2; auto). clearbody c2.
  name_let H c3. assert (P c3) as H3 by (subst c3; auto). clearbody c3.
  name_let H c4. assert (P c4) as H4 by (subst c4; auto). clearbody c4.
  name_let H c5. assert (P c5) as H5 by (subst c5; auto). clearbody c5.
  name_let H c6. assert (P c6) as H6 by (subst c6; auto). clearbody c6.
  name_let H c7. assert (P c7) as H7 by (subst c7; auto). clearbody c7.
  name_let H c8. assert (P c8) as H8 by (subst c8; auto). clearbody c8.
  clear H1 H2 H3 H4 H5 H6 H7 c1 c2 c3 c4 c5 c6 c7.
  destruct (_ || _); [inversion H; subst; auto |].
  destruct (_ || _); [inversion H; subst; auto |].
  pose proof (P_read_byte c8 H8) as Hb.
  destruct (gif_read_byte_internal c8) as [fisrz c9]; cbn [snd] in Hb.
  name_let H c10. assert (P c10) as H10 by (subst c10; auto). clearbody c10.
  cbv zeta in H.
  destruct (_ && _); [inversion H; subst; auto |].
  match type of H with context [if ?b then gif_read_bytes_internal ?x ?n else ?e] =>
    assert (P (if b then gif_read_bytes_internal x n else e).2) as H11
      by (destruct b; [apply P_read_bytes | cbn [snd]]; done);
    destruct (if b then gif_read_bytes_internal x n else e) as [[n' bytes] c11] end.
  cbn [snd] in H11.
  destruct (_ <? _); [inversion H; subst; auto |].
  match type of H with context [gif_read_byte_internal ?x] =>
    assert (P x) as H12 by auto;
    pose proof (P_read_byte x H12) as H13;
    destruct (gif_read_byte_internal x) as [ss c13] end.
  cbn [snd] in H13.
  destruct (gif_decode_lzw _ _ _ _) as [[[r c14] fb14] |] eqn:E;
    cbn [mbind option_bind] in H; [| done].
  apply (gif_decode_lzw_preserves P) in E; auto.
  destruct (negb _); inversion H; subst; auto.
Qed.
End ImagePreserves.

Lemma cursor_ok_report ctx e m : cursor_ok ctx -> cursor_ok (gif_report_error ctx e m).
Proof. unfold gif_report_error. by destruct (error_callback ctx). Qed.

Lemma cursor_ok_read_byte ctx : cursor_ok ctx -> cursor_ok (gif_read_byte_internal ctx).2.
Proof.
  unfold gif_read_byte_internal. intros H.
  destruct (current_pos ctx <? gif_size ctx) eqn:E; simpl.
  - unfold cursor_ok in *. simpl. lia.
  - by apply cursor_ok_report.
Qed.

Lemma cursor_ok_read_bytes ctx len :
  cursor_ok ctx -> cursor_ok (gif_read_bytes_internal ctx len).2.
Proof.
  unfold gif_read_bytes_internal. intros (Hp & Ha & Hs).
  pose proof (size_t_range (current_pos ctx + len)) as Hw.
  destruct (size_t (current_pos ctx + len) >? gif_size ctx) eqn:E.
  - rewrite (size_t_small (gif_size ctx - current_pos ctx)) by lia.
    destruct (gif_size ctx - current_pos ctx >? 0) eqn:E'; simpl; [| done].
    rewrite size_t_small by lia. unfold cursor_ok. simpl. lia.
  - destruct (len >? 0) eqn:E'; simpl; [| done].
    unfold cursor_ok. simpl. lia.
Qed.

Lemma cursor_ok_skip ctx len : cursor_ok ctx -> cursor_ok (gif_skip_bytes_internal ctx len).
Proof.
  unfold gif_skip_bytes_internal. intros (Hp & Ha & Hs).
  pose proof (size_t_range (current_pos ctx + len)) as Hw.
  destruct (size_t (current_pos ctx + len) <=? gif_size ctx) eqn:E;
    unfold cursor_ok; simpl; lia.
Qed.

Lemma cursor_ok_discard fuel : forall ctx ctx',
  gif_discard_sub_blocks fuel ctx = Some ctx' -> cursor_ok ctx -> cursor_ok ctx'.
Proof.
  induction fuel as [| fuel IH]; intros ctx ctx' H Hc; simpl in H; [done |].
  pose proof (cursor_ok_read_byte ctx Hc) as Hb.
  destruct (gif_read_byte_internal ctx) as [b ctx1]; simpl in Hb.
  destruct (_ && _); [simplify_eq; by apply cursor_ok_report |].
  destruct (b =? 0); [simplify_eq; by apply cursor_ok_skip |].
  eapply IH; [exact H | by apply cursor_ok_skip].
Qed.

Lemma cursor_ok_gce ctx : cursor_ok ctx -> cursor_ok (gif_read_graphic_control_ext ctx).
Proof.
  unfold gif_read_graphic_control_ext. intros Hc.
  pose proof (cursor_ok_read_byte _ (cursor_ok_skip ctx 1 Hc)) as H1.
  destruct (gif_read_byte_internal (gif_skip_bytes_internal ctx 1)) as [rdit ctx1].
  simpl in H1.
  match goal with |- context [gif_read_byte_internal ?x] =>
    assert (cursor_ok x) as H2 by (apply cursor_ok_skip; exact H1);
    pose proof (cursor_ok_read_byte _ H2) as H3;
    destruct (gif_read_byte_internal x) as [ti ctx2] end.
  simpl in H3. apply cursor_ok_skip. exact H3.
Qed.

Lemma cursor_ok_application_ext fuel ctx ctx' :
  gif_read_application_ext fuel ctx = Some ctx' -> cursor_ok ctx -> cursor_ok ctx'.
Proof.
  unfold gif_read_application_ext. intros H Hc.
  pose proof (cursor_ok_read_byte ctx Hc) as Hb.
  destruct (gif_read_byte_internal ctx) as [b ctx1]; simpl in Hb.
  destruct (b =? 11); [| by eapply cursor_ok_discard].
  pose proof (cursor_ok_read_bytes ctx1 8 Hb) as H8.
  destruct (gif_read_bytes_internal ctx1 8) as [[n8 b8] ctx2]; simpl in H8.
  pose proof (cursor_ok_read_bytes ctx2 3 H8) as H3.
  destruct (gif_read_bytes_internal ctx2 3) as [[n3 b3] ctx3]; simpl in H3.
  pose proof (cursor_ok_read_byte ctx3 H3) as Hs.
  destruct (gif_read_byte_internal ctx3) as [sb ctx4]; simpl in Hs.
  destruct (negb _).
  - eapply cursor_ok_discard; [exact H | by apply cursor_ok_report].
  - eapply cursor_ok_discard; [exact H |].
    apply cursor_ok_skip.
    by apply (cursor_ok_skip ctx4 1) in Hs.
Qed.

Lemma cursor_ok_read_ext fuel ctx ctx' :
  gif_read_ext fuel ctx = Some ctx' -> cursor_ok ctx -> cursor_ok ctx'.
Proof.
  unfold gif_read_ext. intros H Hc.
  pose proof (cursor_ok_read_byte ctx Hc) as Hb.
  destruct (gif_read_byte_internal ctx) as [b ctx1]; simpl in Hb.
  destruct (b =? 249); [simplify_eq; by apply cursor_ok_gce |].
  destruct (b =? 255); [by eapply cursor_ok_application_ext |].
  eapply cursor_ok_discard; [exact H | by apply cursor_ok_report].
Qed.

Lemma cursor_ok_rewind ctx : cursor_ok ctx -> cursor_ok (gif_rewind ctx).
Proof. unfold cursor_ok, gif_rewind. simpl. lia. Qed.

Lemma cursor_ok_loop_again ctx ctx' :
  gif_loop_again ctx = Some ctx' -> cursor_ok ctx -> cursor_ok ctx'.
Proof.
  unfold gif_loop_again. intros H Hc.
  destruct (_ || _); [| done]. simplify_eq.
  apply cursor_ok_rewind. by destruct (loop_count ctx >? 0).
Qed.

Lemma cursor_ok_scan fuel : forall ctx r,
  gif_next_frame_scan fuel ctx = Some r -> cursor_ok ctx ->
  match r with scan_return _ ctx' => cursor_ok ctx' | scan_done ctx' => cursor_ok ctx' end.
Proof.
  induction fuel as [| fuel IH]; intros ctx r H Hc; simpl in H; [done |].
  destruct (current_pos ctx <? gif_size ctx); [| by simplify_eq].
  pose proof (cursor_ok_read_byte ctx Hc) as Hb.
  destruct (gif_read_byte_internal ctx) as [b ctx1]; simpl in Hb.
  destruct (b =? 59).
  { destruct (gif_loop_again ctx1) as [ctx2 |] eqn:E; [| by simplify_eq].
    eapply IH; [exact H | by eapply cursor_ok_loop_again]. }
  destruct (b =? 33).
  { destruct (gif_read_ext fuel ctx1) as [ctx2 |] eqn:E; simpl in H; [| done].
    eapply IH; [exact H | by eapply cursor_ok_read_ext]. }
  destruct (b =? 44); simplify_eq; [done | by apply cursor_ok_report].
Qed.

Lemma cursor_ok_decode c fuel ctx fb r ctx' fb' :
  gif_decode_lzw c fuel ctx fb = Some (r, ctx', fb') -> cursor_ok ctx -> cursor_ok ctx'.
Proof.
  apply (gif_decode_lzw_preserves cursor_ok);
    auto using cursor_ok_read_byte, cursor_ok_read_bytes, cursor_ok_report.
Qed.

Lemma cursor_ok_other_fields ctx ctx' :
  gif_size ctx' = gif_size ctx -> current_pos ctx' = current_pos ctx ->
  anim_start_pos ctx' = anim_start_pos ctx -> cursor_ok ctx -> cursor_ok ctx'.
Proof. unfold cursor_ok. intros -> -> ->. done. Qed.

Lemma cursor_ok_image c fuel ctx fb d ret ctx' fb' d' :
  gif_next_frame_image c fuel ctx fb d = Some (ret, ctx', fb', d') ->
  cursor_ok ctx -> cursor_ok ctx'.
Proof.
  apply (gif_next_frame_image_preserves cursor_ok);
    auto using cursor_ok_read_byte, cursor_ok_read_bytes, cursor_ok_skip, cursor_ok_report;
    intros v x Hx; (apply (cursor_ok_other_fields x); [reflexivity .. | exact Hx]).
Qed.

Lemma cursor_ok_next_frame c fuel ctx fb d ret ctx' fb' d' :
  gif_next_frame c fuel ctx fb d = Some (ret, ctx', fb', d') ->
  cursor_ok ctx -> cursor_ok ctx'.
Proof.
  unfold gif_next_frame. intros H Hc.
  assert (exists ctx1, cursor_ok ctx1 /\
    ((ret = 0 /\ ctx' = ctx1) \/
     (r ← gif_next_frame_scan fuel ctx1;
      match r with
      | scan_return ret ctx => Some (ret, ctx, fb, d)
      | scan_done ctx => gif_next_frame_image c fuel ctx fb d
      end) = Some (ret, ctx', fb', d'))) as (ctx1 & Hc1 & [[_ ->] | H1]); [| done |].
  { destruct (gif_size ctx <=? current_pos ctx); [| eauto].
    destruct (gif_loop_again ctx) as [ctx1 |] eqn:E.
    - exists ctx1. split; [by eapply cursor_ok_loop_again | by right].
    - exists ctx. split; [done | left]. by simplify_eq. }
  destruct (gif_next_frame_scan fuel ctx1) as [r |] eqn:E;
    cbn [mbind option_bind] in H1; [| done].
  apply cursor_ok_scan in E; [| done].
  destruct r; [by simplify_eq | by eapply cursor_ok_image].
Qed.

Lemma cursor_ok_init ctx0 data size scratch scratch_size ret ctx :
  0 <= size < 18446744073709551616 ->
  gif_init ctx0 data size scratch scratch_size = (ret, ctx) ->
  ret = GIF_SUCCESS -> cursor_ok ctx.
Proof.
  unfold gif_init. intros Hs H Hret.
  destruct (size =? 0); [by simplify_eq |].
  destruct (scratch_size <? _); [by simplify_eq |].
  assert (cursor_ok (gif_init_context (callback_calls ctx0) data size scratch)) as Hc
    by (unfold cursor_ok; simpl; lia).
  apply (cursor_ok_read_bytes _ 13) in Hc.
  destruct (gif_read_bytes_internal _ 13) as [[n bytes] ctx1]; simpl in Hc.
  destruct (n <? 13); [by simplify_eq |].
  destruct (_ || _); [by simplify_eq |].
  destruct (_ && _); [by simplify_eq |].
  match type of H with context [if ?b then gif_read_bytes_internal ?x ?n else ?e] =>
    assert (cursor_ok (if b then gif_read_bytes_internal x n else e).2) as H2
      by (destruct b; [apply cursor_ok_read_bytes | simpl];
          (eapply cursor_ok_other_fields; [reflexivity .. | exact Hc]));
    destruct (if b then gif_read_bytes_internal x n else e) as [[n' bytes'] ctx3] end.
  simpl in H2.
  destruct (_ <? _); [by simplify_eq |].
  simplify_eq. destruct H2 as (? & ? & ?). unfold cursor_ok. simpl. lia.
Qed.

Lemma reachable_cursor_ok ctx : reachable ctx -> cursor_ok ctx.
Proof.
  induction 1 as [ctx0 data size scratch ssz ctx Hs Hi
                 | c fuel ctx fb d ret ctx' fb' d' _ IH Hn
                 | ctx _ IH | ctx cb _ IH].
  - by eapply cursor_ok_init.
  - by eapply cursor_ok_next_frame.
  - by apply cursor_ok_rewind.
  - exact IH.
Qed.

Lemma report_error_fields ctx e m :
  gif_size (gif_report_error ctx e m) = gif_size ctx
  /\ current_pos (gif_report_error ctx e m) = current_pos ctx
  /\ error_callback (gif_report_error ctx e m) = error_callback ctx.
Proof. unfold gif_report_error. destruct (error_callback ctx) eqn:E; simpl; auto. Qed.

Lemma read_byte_advance ctx :
  current_pos (gif_read_byte_internal ctx).2
  = current_pos ctx + (if current_pos ctx <? gif_size ctx then 1 else 0).
Proof.
  unfold gif_read_byte_internal.
  destruct (current_pos ctx <? gif_size ctx); simpl; [done |].
  destruct (report_error_fields ctx GIF_ERROR_EARLY_EOF
              "Unexpected EOF while reading byte.") as (_ & -> & _). lia.
Qed.

Lemma read_bytes_advance ctx len :
  cursor_ok ctx -> 0 <= len -> current_pos ctx + len < 18446744073709551616 ->
  (gif_read_bytes_internal ctx len).1.1 = Z.min len (gif_size ctx - current_pos ctx)
  /\ Z.of_nat (length (gif_read_bytes_internal ctx len).1.2)
     = (gif_read_bytes_internal ctx len).1.1
  /\ current_pos (gif_read_bytes_internal ctx len).2
     = current_pos ctx + (gif_read_bytes_internal ctx len).1.1.
Proof.
  intros (Hp & Ha & Hs) Hl Hw. unfold gif_read_bytes_internal.
  rewrite (size_t_small (current_pos ctx + len)) by lia.
  rewrite (size_t_small (gif_size ctx - current_pos ctx)) by lia.
  destruct (current_pos ctx + len >? gif_size ctx) eqn:E.
  - destruct (gif_size ctx - current_pos ctx >? 0) eqn:E'; simpl.
    + rewrite length_rd_seq, size_t_small by lia. lia.
    + lia.
  - destruct (len >? 0) eqn:E'; simpl.
    + rewrite length_rd_seq, size_t_small by lia. lia.
    + lia.
Qed.

Lemma skip_saturates ctx len :
  cursor_ok ctx -> 0 <= len -> current_pos ctx + len < 18446744073709551616 ->
  current_pos (gif_skip_bytes_internal ctx len)
  = Z.min (current_pos ctx + len) (gif_size ctx).
Proof.
  intros (Hp & Ha & Hs) Hl Hw. unfold gif_skip_bytes_internal.
  rewrite size_t_small by lia.
  destruct (current_pos ctx + len <=? gif_size ctx) eqn:E; simpl; lia.
Qed.

(** C9.  The cursor never passes the end of the input: [current_pos <=
    gif_size] holds in every context state reached through the API, every
    reader operation keeps it, a single-byte read advances by one exactly
    when a byte is left, a block read advances by the number of bytes it
    returns (the smaller of the request and what is left), and a skip moves
    to the smaller of the target and the end of the input. *)
Theorem cursor_stays_within_input :
  (forall ctx, reachable ctx -> 0 <= current_pos ctx <= gif_size ctx)
  /\ (forall ctx, cursor_ok ctx ->
        cursor_ok (gif_read_byte_internal ctx).2
        /\ current_pos (gif_read_byte_internal ctx).2
           = current_pos ctx + (if current_pos ctx <? gif_size ctx then 1 else 0))
  /\ (forall ctx len, cursor_ok ctx -> 0 <= len ->
        current_pos ctx + len < 18446744073709551616 ->
        cursor_ok (gif_read_bytes_internal ctx len).2
        /\ (gif_read_bytes_internal ctx len).1.1
           = Z.min len (gif_size ctx - current_pos ctx)
        /\ Z.of_nat (length (gif_read_bytes_internal ctx len).1.2)
           = (gif_read_bytes_internal ctx len).1.1
        /\ current_pos (gif_read_bytes_internal ctx len).2
           = current_pos ctx + (gif_read_bytes_internal ctx len).1.1)
  /\ (forall ctx len, cursor_ok ctx -> 0 <= len ->
        current_pos ctx + len < 18446744073709551616 ->
        cursor_ok (gif_skip_bytes_internal ctx len)
        /\ current_pos (gif_skip_bytes_internal ctx len)
           = Z.min (current_pos ctx + len) (gif_size ctx)).
Proof.
  split; [| split; [| split]].
  - intros ctx H. by destruct (reachable_cursor_ok ctx H) as (? & _).
  - intros ctx H. split; [by apply cursor_ok_read_byte | apply read_byte_advance].
  - intros ctx len H Hl Hw. split; [by apply cursor_ok_read_bytes |].
    by apply read_bytes_advance.
  - intros ctx len H Hl Hw. split; [by apply cursor_ok_skip | by apply skip_saturates].
Qed.

(** C10.  A single-byte read at or beyond the end of the input returns 0,
    leaves the cursor where it is, and reports [GIF_ERROR_EARLY_EOF] to the
    callback when one is installed; the caller gets the byte 0 and goes on:
    [gif_read_ext] takes it for the label of an unknown extension. *)
Theorem read_byte_at_end_yields_zero ctx :
  gif_size ctx <= current_pos ctx ->
  (gif_read_byte_internal ctx).1 = 0
  /\ (gif_read_byte_internal ctx).2
     = gif_report_error ctx GIF_ERROR_EARLY_EOF "Unexpected EOF while reading byte."
  /\ current_pos (gif_read_byte_internal ctx).2 = current_pos ctx
  /\ (error_callback ctx = true ->
      callback_calls (gif_read_byte_internal ctx).2
      = callback_calls ctx
        ++ [(GIF_ERROR_EARLY_EOF, "Unexpected EOF while reading byte."%string)])
  /\ (forall fuel, exists ctx',
        gif_read_ext (S fuel) ctx = Some ctx' /\ current_pos ctx' = current_pos ctx).
Proof.
  intros H.
  assert (gif_read_byte_internal ctx
          = (0, gif_report_error ctx GIF_ERROR_EARLY_EOF
                  "Unexpected EOF while reading byte.")) as Hr.
  { unfold gif_read_byte_internal.
    destruct (current_pos ctx <? gif_size ctx) eqn:E; [lia | done]. }
  rewrite Hr. simpl.
  split; [done |]. split; [done |].
  split; [apply report_error_fields |].
  split.
  { intros Hcb. unfold gif_report_error. by rewrite Hcb. }
  intros fuel. unfold gif_read_ext. rewrite Hr. simpl.
  set (ctx1 := gif_report_error (gif_report_error ctx _ _) _ _).
  assert (gif_size ctx1 = gif_size ctx /\ current_pos ctx1 = current_pos ctx)
    as [Hs1 Hp1].
  { subst ctx1.
    destruct (report_error_fields
                (gif_report_error ctx GIF_ERROR_EARLY_EOF
                   "Unexpected EOF while reading byte.")
                GIF_ERROR_DECODE "Unknown GIF extension encountered.") as (-> & -> & _).
    destruct (report_error_fields ctx GIF_ERROR_EARLY_EOF
                "Unexpected EOF while reading byte.") as (-> & -> & _). done. }
  unfold gif_read_byte_internal.
  destruct (current_pos ctx1 <? gif_size ctx1) eqn:E; [lia |].
  set (ctx2 := gif_report_error ctx1 _ _).
  destruct (report_error_fields ctx1 GIF_ERROR_EARLY_EOF
              "Unexpected EOF while reading byte.") as (Hs2 & Hp2 & _).
  fold ctx2 in Hs2, Hp2.
  destruct (gif_size ctx2 <=? current_pos ctx2) eqn:E2; [| lia]. simpl.
  eexists. split; [reflexivity |].
  destruct (report_error_fields ctx2 GIF_ERROR_EARLY_EOF
              "Unexpected EOF while discarding sub-blocks.") as (_ & -> & _). lia.
Qed.

Lemma gce_state_report ctx e m : gce_state (gif_report_error ctx e m) = gce_state ctx.
Proof. unfold gif_report_error. by destruct (error_callback ctx). Qed.

Lemma gce_state_read_byte ctx : gce_state (gif_read_byte_internal ctx).2 = gce_state ctx.
Proof.
  unfold gif_read_byte_internal. destruct (_ <? _); simpl; [done |].
  apply gce_state_report.
Qed.

Lemma gce_state_read_bytes ctx len :
  gce_state (gif_read_bytes_internal ctx len).2 = gce_state ctx.
Proof. unfold gif_read_bytes_internal. by destruct (_ >? 0). Qed.

Lemma gce_state_skip ctx len : gce_state (gif_skip_bytes_internal ctx len) = gce_state ctx.
Proof. unfold gif_skip_bytes_internal. by destruct (_ <=? _). Qed.

Lemma gce_state_discard fuel : forall ctx ctx',
  gif_discard_sub_blocks fuel ctx = Some ctx' -> gce_state ctx' = gce_state ctx.
Proof.
  induction fuel as [| fuel IH]; intros ctx ctx' H; simpl in H; [done |].
  pose proof (gce_state_read_byte ctx) as Hb.
  destruct (gif_read_byte_internal ctx) as [b ctx1]; simpl in Hb.
  destruct (_ && _); [inversion H; subst; by rewrite gce_state_report |].
  destruct (b =? 0); [inversion H; subst; by rewrite gce_state_skip |].
  apply IH in H. by rewrite H, gce_state_skip.
Qed.

Lemma gce_state_application_ext fuel ctx ctx' :
  gif_read_application_ext fuel ctx = Some ctx' -> gce_state ctx' = gce_state ctx.
Proof.
  unfold gif_read_application_ext. intros H.
  pose proof (gce_state_read_byte ctx) as Hb.
  destruct (gif_read_byte_internal ctx) as [b ctx1]; simpl in Hb.
  destruct (b =? 11); [| apply gce_state_discard in H; congruence].
  pose proof (gce_state_read_bytes ctx1 8) as H8.
  destruct (gif_read_bytes_internal ctx1 8) as [[n8 b8] ctx2]; simpl in H8.
  pose proof (gce_state_read_bytes ctx2 3) as H3.
  destruct (gif_read_bytes_internal ctx2 3) as [[n3 b3] ctx3]; simpl in H3.
  pose proof (gce_state_read_byte ctx3) as Hs.
  destruct (gif_read_byte_internal ctx3) as [sb ctx4]; simpl in Hs.
  destruct (negb _); apply gce_state_discard in H; rewrite H.
  - rewrite gce_state_report. congruence.
  - rewrite gce_state_skip.
    change (gce_state (gif_skip_bytes_internal ctx4 1) = gce_state ctx).
    rewrite gce_state_skip. congruence.
Qed.

(** Only the graphic-control label leads to a change of the
    graphic-control state. *)
Lemma gce_state_read_ext fuel ctx ctx' :
  current_pos ctx < gif_size ctx -> rd (gif_data ctx) (current_pos ctx) <> 249 ->
  gif_read_ext fuel ctx = Some ctx' -> gce_state ctx' = gce_state ctx.
Proof.
  unfold gif_read_ext. intros Hp Hl H.
  pose proof (gce_state_read_byte ctx) as Hb.
  assert ((gif_read_byte_internal ctx).1 = rd (gif_data ctx) (current_pos ctx)) as Hv.
  { unfold gif_read_byte_internal.
    destruct (current_pos ctx <? gif_size ctx) eqn:E; [done | lia]. }
  destruct (gif_read_byte_internal ctx) as [b ctx1]; simpl in Hb, Hv. subst b.
  destruct (_ =? 249) eqn:E; [lia |].
  destruct (_ =? 255); [apply gce_state_application_ext in H; congruence |].
  apply gce_state_discard in H. rewrite H, gce_state_report. done.
Qed.

Lemma gce_state_decode c fuel ctx fb r ctx' fb' :
  gif_decode_lzw c fuel ctx fb = Some (r, ctx', fb') -> gce_state ctx' = gce_state ctx.
Proof.
  intros H.
  apply (gif_decode_lzw_preserves (fun x => gce_state x = gce_state ctx)) in H;
    [done | | | | | | | | | | | done]; try (intros; assumption).
  - intros x Hx. by rewrite gce_state_read_byte.
  - intros x len Hx. by rewrite gce_state_read_bytes.
  - intros x e m Hx. by rewrite gce_state_report.
Qed.

Lemma gce_state_image c fuel ctx fb d ret ctx' fb' d' :
  gif_next_frame_image c fuel ctx fb d = Some (ret, ctx', fb', d') ->
  gce_state ctx' = gce_state ctx.
Proof.
  intros H.
  apply (gif_next_frame_image_preserves (fun x => gce_state x = gce_state ctx)) in H;
    try done; try (intros; assumption).
  - intros x Hx. by rewrite gce_state_read_byte.
  - intros x len Hx. by rewrite gce_state_read_bytes.
  - intros x len Hx. by rewrite gce_state_skip.
  - intros x e m Hx. by rewrite gce_state_report.
Qed.

(** ** Interlace address mapper *)

Lemma interlaced_y_draw_values line :
  interlaced_y_draw 0 line = line * 8 /\ interlaced_y_draw 1 line = 4 + line * 8
  /\ interlaced_y_draw 2 line = 2 + line * 4 /\ interlaced_y_draw 3 line = 1 + line * 2.
Proof.
  unfold interlaced_y_draw.
  change (rd interlaced_line_offset 0) with 0. change (rd interlaced_line_offset 1) with 4.
  change (rd interlaced_line_offset 2) with 2. change (rd interlaced_line_offset 3) with 1.
  change (rd interlaced_line_stride 0) with 8. change (rd interlaced_line_stride 1) with 8.
  change (rd interlaced_line_stride 2) with 4. change (rd interlaced_line_stride 3) with 2.
  lia.
Qed.

(** The pass loop, by cases: the row of the current pass when it is inside
    the frame, else row 0 of the first later pass that starts inside the
    frame, else a row outside the frame. *)
Lemma interlaced_row_cases h p i :
  0 <= p <= 3 -> 0 <= i ->
  (interlaced_y_draw p i < h /\ interlaced_row h p i = (p, i, interlaced_y_draw p i))
  \/ (h <= interlaced_y_draw p i /\
      exists q, p < q <= 3 /\ interlaced_y_draw q 0 < h
        /\ (forall r, p < r < q -> h <= interlaced_y_draw r 0)
        /\ interlaced_row h p i = (q, 0, interlaced_y_draw q 0))
  \/ (h <= interlaced_y_draw p i /\ (forall r, p < r <= 3 -> h <= interlaced_y_draw r 0)
      /\ h <= (interlaced_row h p i).2).
Proof.
  intros Hp Hi.
  destruct (interlaced_y_draw_values i) as (Y0 & Y1 & Y2 & Y3).
  destruct (interlaced_y_draw_values 0) as (Z0 & Z1 & Z2 & Z3).
  assert (p = 0 \/ p = 1 \/ p = 2 \/ p = 3) as [-> | [-> | [-> | ->]]] by lia;
    unfold interlaced_row;
    [ change (Z.to_nat (3 - 0)) with 3%nat | change (Z.to_nat (3 - 1)) with 2%nat
    | change (Z.to_nat (3 - 2)) with 1%nat | change (Z.to_nat (3 - 3)) with 0%nat ];
    cbn [interlaced_pass_loop];
    change (0 + 1) with 1; change (1 + 1) with 2; change (2 + 1) with 3;
    change (0 <? 3) with true; change (1 <? 3) with true; change (2 <? 3) with true;
    rewrite ?andb_true_r;
    match goal with |- context [interlaced_y_draw ?p i < h] =>
      destruct (Z.le_gt_cases h (interlaced_y_draw p i)) as [C | C] end;
    destruct (Z.le_gt_cases h (interlaced_y_draw 1 0)) as [C1 | C1];
    destruct (Z.le_gt_cases h (interlaced_y_draw 2 0)) as [C2 | C2];
    destruct (Z.le_gt_cases h (interlaced_y_draw 3 0)) as [C3 | C3];
    repeat match goal with
    | |- context [?a <=? ?b] => destruct (Z.leb_spec a b); try (exfalso; lia)
    end;
    first
      [ left; split; [lia | reflexivity]
      | right; right; split; [lia |]; split;
        [ intros r Hr;
          assert (r = 1 \/ r = 2 \/ r = 3) as [-> | [-> | ->]] by lia; lia
        | cbn [snd]; lia ]
      | right; left; split; [lia |];
        first
          [ exists 1; split; [lia |]; split; [lia |]; split;
            [intros; lia | reflexivity]
          | exists 2; split; [lia |]; split; [lia |]; split;
            [intros r Hr; assert (r = 1) as -> by lia; lia | reflexivity]
          | exists 3; split; [lia |]; split; [lia |]; split;
            [intros r Hr; assert (r = 1 \/ r = 2) as [-> | ->] by lia; lia
            | reflexivity] ] ].
Qed.

Lemma interlaced_y_draw_unfold p i :
  interlaced_y_draw p i = rd interlaced_line_offset p + i * rd interlaced_line_stride p.
Proof. reflexivity. Qed.

Lemma interlaced_start p : interlaced_y_draw p 0 = rd interlaced_line_offset p.
Proof. unfold interlaced_y_draw. lia. Qed.

Lemma flush_interlaced_same_pass ctx fb st :
  Z.land (ucGIFBits ctx) 64 <> 0 ->
  0 <= interlaced_pass st <= 3 -> 0 <= current_line_idx st ->
  interlaced_y_draw (interlaced_pass st) (current_line_idx st) < frame_height ctx ->
  lzw_flush_line ctx fb st
  = flush_ok
      (composite_line ctx (interlaced_y_draw (interlaced_pass st) (current_line_idx st)) fb)
      (set_current_line_idx (current_line_idx st + 1) (set_current_pixel_idx 0 st)).
Proof.
  intros Hi Hp Hl Hy. unfold lzw_flush_line.
  destruct (Z.land (ucGIFBits ctx) 64 =? 0) eqn:E; [lia |]. cbn [negb].
  destruct (interlaced_row_cases (frame_height ctx) _ _ Hp Hl)
    as [[_ ->] | [[? _] | [? _]]]; [| lia | lia].
  destruct (Z.leb_spec (frame_height ctx)
              (interlaced_y_draw (interlaced_pass st) (current_line_idx st))); [lia |].
  by destruct st.
Qed.

Lemma flush_interlaced_next_pass ctx fb st q :
  Z.land (ucGIFBits ctx) 64 <> 0 ->
  0 <= interlaced_pass st <= 3 -> 0 <= current_line_idx st ->
  frame_height ctx <= interlaced_y_draw (interlaced_pass st) (current_line_idx st) ->
  interlaced_pass st < q <= 3 ->
  interlaced_y_draw q 0 < frame_height ctx ->
  (forall r, interlaced_pass st < r < q -> frame_height ctx <= interlaced_y_draw r 0) ->
  lzw_flush_line ctx fb st
  = flush_ok (composite_line ctx (interlaced_y_draw q 0) fb)
      (set_current_line_idx 1 (set_current_pixel_idx 0 (set_interlaced_pass q st))).
Proof.
  intros Hi Hp Hl Hy Hq Hqy Hr. unfold lzw_flush_line.
  destruct (Z.land (ucGIFBits ctx) 64 =? 0) eqn:E; [lia |]. cbn [negb].
  destruct (interlaced_row_cases (frame_height ctx) _ _ Hp Hl)
    as [[? _] | [[_ (q' & Hq' & Hq'y & Hr' & ->)] | (_ & Hn & _)]]; [lia | |].
  - assert (q' = q) as ->.
    { destruct (Z.lt_trichotomy q' q) as [? | [? | ?]]; [| done |].
      - specialize (Hr q'). lia.
      - specialize (Hr' q). lia. }
    destruct (Z.leb_spec (frame_height ctx) (interlaced_y_draw q 0)); [lia |].
    by destruct st.
  - specialize (Hn q). lia.
Qed.

Lemma flush_interlaced_out_of_bounds ctx fb st :
  Z.land (ucGIFBits ctx) 64 <> 0 ->
  0 <= interlaced_pass st <= 3 -> 0 <= current_line_idx st ->
  frame_height ctx <= interlaced_y_draw (interlaced_pass st) (current_line_idx st) ->
  (forall r, interlaced_pass st < r <= 3 -> frame_height ctx <= interlaced_y_draw r 0) ->
  lzw_flush_line ctx fb st = flush_out_of_bounds.
Proof.
  intros Hi Hp Hl Hy Hr. unfold lzw_flush_line.
  destruct (Z.land (ucGIFBits ctx) 64 =? 0) eqn:E; [lia |]. cbn [negb].
  destruct (interlaced_row_cases (frame_height ctx) _ _ Hp Hl)
    as [[? _] | [[_ (q' & Hq' & Hq'y & _)] | (_ & _ & Hn)]]; [lia | |].
  - specialize (Hr q'). lia.
  - destruct (interlaced_row _ _ _) as [[pass line] y]. cbn [snd] in Hn.
    destruct (Z.leb_spec (frame_height ctx) y); [done | lia].
Qed.

(** What processing one code leaves alone: the frame geometry, and the pass
    and row counters up to the flush. *)
Lemma process_code_before_flush ctx st :
  let ctx2 := (lzw_add_entry (lzw_emit ctx st).1 (lzw_emit ctx st).2).1 in
  let st3 := lzw_bump (lzw_add_entry (lzw_emit ctx st).1 (lzw_emit ctx st).2).2 in
  ucGIFBits ctx2 = ucGIFBits ctx /\ frame_height ctx2 = frame_height ctx
  /\ frame_width ctx2 = frame_width ctx
  /\ interlaced_pass st3 = interlaced_pass st
  /\ current_line_idx st3 = current_line_idx st.
Proof.
  unfold lzw_emit, lzw_add_entry, lzw_bump. cbn [fst snd].
  repeat match goal with |- context [if ?b then _ else _] => destruct b end;
    cbn; auto.
Qed.

(** ** Compositor *)

Lemma rd_seq_ext n : forall (l l' : list Z) off,
  (forall k, 0 <= k < Z.of_nat n -> rd l (off + k) = rd l' (off + k)) ->
  rd_seq l off n = rd_seq l' off n.
Proof.
  induction n as [| n IH]; intros l l' off H; simpl; [done |].
  f_equal.
  - specialize (H 0). rewrite Z.add_0_r in H. apply H. lia.
  - apply IH. intros k Hk. replace (off + 1 + k) with (off + (1 + k)) by lia.
    apply H. lia.
Qed.

Lemma rd_seq_wr_seq_same (l src : list Z) off :
  0 <= off -> off + Z.of_nat (length src) <= Z.of_nat (length l) ->
  rd_seq (wr_seq l off src) off (length src) = src.
Proof.
  intros Ho Hl. apply list_eq. intros k.
  destruct (decide (k < length src)%nat) as [Hk | Hk].
  - pose proof (rd_rd_seq (length src) (wr_seq l off src) off (Z.of_nat k)) as H1.
    rewrite rd_wr_seq_inside in H1 by lia.
    replace (off + Z.of_nat k - off) with (Z.of_nat k) in H1 by lia.
    specialize (H1 ltac:(lia)).
    unfold rd in H1. destruct (Z.of_nat k <? 0) eqn:E; [lia |].
    rewrite Nat2Z.id in H1.
    destruct (lookup_lt_is_Some_2 src k Hk) as [v Hv].
    destruct (lookup_lt_is_Some_2 (rd_seq (wr_seq l off src) off (length src)) k)
      as [w Hw]; [by rewrite length_rd_seq |].
    rewrite Hv, Hw in *. simpl in H1. congruence.
  - rewrite !lookup_ge_None_2; [done | lia | rewrite length_rd_seq; lia].
Qed.

Lemma rd_seq_wr_seq_copy (l p : list Z) off k n :
  0 <= off -> off + Z.of_nat n <= Z.of_nat (length l) ->
  rd_seq (wr_seq l off (rd_seq p k n)) off n = rd_seq p k n.
Proof.
  intros Ho Hl. pose proof (rd_seq_wr_seq_same l (rd_seq p k n) off Ho) as H.
  rewrite length_rd_seq in H. by apply H.
Qed.

Lemma rd_seq_wr_seq_disjoint (l src : list Z) off off' n :
  off' + Z.of_nat n <= off \/ off + Z.of_nat (length src) <= off' ->
  rd_seq (wr_seq l off src) off' n = rd_seq l off' n.
Proof.
  intros H. apply rd_seq_ext. intros k Hk. apply rd_wr_seq_outside. lia.
Qed.

Lemma length_composite_pixel ctx d fb i : length (composite_pixel ctx d fb i) = length fb.
Proof.
  unfold composite_pixel. repeat case_match; rewrite ?length_wr_seq; done.
Qed.

Lemma length_composite_fold ctx d l : forall fb,
  length (fold_left (composite_pixel ctx d) l fb) = length fb.
Proof.
  induction l as [| i l IH]; intros fb; simpl; [done |].
  rewrite IH. apply length_composite_pixel.
Qed.

Lemma composite_pixel_other ctx d fb i x :
  i <> x -> rd_seq (composite_pixel ctx d fb i) (d + x * 3) 3 = rd_seq fb (d + x * 3) 3.
Proof.
  intros H. unfold composite_pixel.
  repeat case_match; try done;
    apply rd_seq_wr_seq_disjoint; rewrite length_rd_seq; lia.
Qed.

Lemma composite_fold_other ctx d x l : forall fb,
  x ∉ l ->
  rd_seq (fold_left (composite_pixel ctx d) l fb) (d + x * 3) 3 = rd_seq fb (d + x * 3) 3.
Proof.
  induction l as [| i l IH]; intros fb H; cbn [fold_left]; [done |].
  apply not_elem_of_cons in H as [Hx Hl].
  rewrite IH by done. apply composite_pixel_other. congruence.
Qed.

Lemma composite_pixel_same ctx d fb x :
  0 <= d + x * 3 -> d + x * 3 + 3 <= Z.of_nat (length fb) ->
  rd_seq (composite_pixel ctx d fb x) (d + x * 3) 3
  = default (rd_seq fb (d + x * 3) 3) (composited ctx x).
Proof.
  intros H0 H1. unfold composite_pixel, composited.
  repeat case_match; try done; cbn [default];
    apply rd_seq_wr_seq_copy; lia.
Qed.

Lemma composite_line_column ctx y fb x :
  0 <= x < frame_width ctx -> 0 <= dest_row_start ctx y ->
  dest_row_start ctx y + 3 * frame_width ctx <= Z.of_nat (length fb) ->
  rd_seq (composite_line ctx y fb) (dest_row_start ctx y + x * 3) 3
  = default (rd_seq fb (dest_row_start ctx y + x * 3) 3) (composited ctx x).
Proof.
  intros Hx Hd Hl. unfold composite_line.
  assert (x ∈ seqZ 0 (frame_width ctx)) as Hin by (apply elem_of_seqZ; lia).
  apply list_elem_of_split in Hin as (l1 & l2 & Hs).
  pose proof (NoDup_seqZ 0 (frame_width ctx)) as Hnd. rewrite Hs in *.
  apply NoDup_app in Hnd as (_ & Hd1 & Hd2). apply NoDup_cons in Hd2 as [Hx2 _].
  rewrite fold_left_app. cbn [fold_left].
  rewrite composite_fold_other by done.
  rewrite composite_pixel_same by (rewrite ?length_composite_fold; lia).
  rewrite composite_fold_other; [done |].
  intros Hx1. apply (Hd1 x Hx1). left.
Qed.

Lemma process_code_out_of_bounds ctx fb st :
  Z.land (ucGIFBits ctx) 64 <> 0 ->
  0 <= interlaced_pass st <= 3 -> 0 <= current_line_idx st ->
  frame_height ctx <= interlaced_y_draw (interlaced_pass st) (current_line_idx st) ->
  (forall r, interlaced_pass st < r <= 3 -> frame_height ctx <= interlaced_y_draw r 0) ->
  match lzw_process_code ctx fb st with
  | lzw_step_ok _ fb' st' => fb' = fb /\ current_pixel_idx st' < frame_width ctx
  | lzw_step_error err _ => err = GIF_ERROR_DECODE
  end.
Proof.
  intros Hi Hp Hl Hy Hr.
  pose proof (process_code_before_flush ctx st) as Hf. cbv zeta in Hf.
  unfold lzw_process_code.
  destruct (lzw_emit ctx st) as [ctx1 st1]. cbn [fst snd] in Hf.
  destruct (lzw_add_entry ctx1 st1) as [ctx2 st2]. cbn [fst snd] in Hf.
  destruct Hf as (H1 & H2 & H3 & H4 & H5).
  destruct (Z.leb_spec (frame_width ctx2) (current_pixel_idx (lzw_bump st2))) as [Hw | Hw].
  - rewrite flush_interlaced_out_of_bounds; [done | congruence | lia | lia | |].
    + rewrite H2, H4, H5. done.
    + intros r. rewrite H2, H4. apply Hr.
  - split; [done |]. cbn. lia.
Qed.

(** C8.  The compositor, column by column: after a line is flushed, the
    three canvas bytes of column [x] hold the palette entry of the
    background index when the pixel is the transparent index of a frame with
    transparency and the disposal method is 2, are what they were when it is
    transparent and the disposal method is not 2, and hold the palette entry
    of the pixel index otherwise. *)
Theorem compositor_writes_pixel ctx y fb x :
  0 <= x < frame_width ctx ->
  0 <= dest_row_start ctx y ->
  dest_row_start ctx y + 3 * frame_width ctx <= Z.of_nat (length fb) ->
  let idx := rd (scratch_line_buffer ctx) x in
  let dest := dest_row_start ctx y + x * 3 in
  let palette := active_palette ctx in
  (has_transparency ctx <> 0 -> idx = transparent_index ctx -> disposal_method ctx = 2 ->
   rd_seq (composite_line ctx y fb) dest 3 = rd_seq palette (background_index ctx * 3) 3)
  /\ (has_transparency ctx <> 0 -> idx = transparent_index ctx ->
      disposal_method ctx <> 2 ->
      rd_seq (composite_line ctx y fb) dest 3 = rd_seq fb dest 3)
  /\ (has_transparency ctx = 0 \/ idx <> transparent_index ctx ->
      rd_seq (composite_line ctx y fb) dest 3 = rd_seq palette (idx * 3) 3).
Proof.
  intros Hx Hd Hl idx dest palette.
  pose proof (composite_line_column ctx y fb x Hx Hd Hl) as H.
  fold dest in H. unfold composited in H. fold idx palette in H.
  split; [| split].
  - intros Ht Hi H2. rewrite H.
    destruct (has_transparency ctx =? 0) eqn:E1; [lia |].
    destruct (idx =? transparent_index ctx) eqn:E2; [| lia].
    destruct (disposal_method ctx =? 2) eqn:E3; [done | lia].
  - intros Ht Hi H2. rewrite H.
    destruct (has_transparency ctx =? 0) eqn:E1; [lia |].
    destruct (idx =? transparent_index ctx) eqn:E2; [| lia].
    destruct (disposal_method ctx =? 2) eqn:E3; [lia | done].
  - intros Ht. rewrite H.
    destruct (has_transparency ctx =? 0) eqn:E1; [done |].
    destruct (idx =? transparent_index ctx) eqn:E2; [lia | done].
Qed.

(** ** The decoder on concrete streams *)

(** C1 (evaluation at the failing input).  [gif_bad_code] is a 2x1 image
    whose LZW stream is CLEAR, 1, 7, END with 3-bit codes: when 7 is pulled
    [nextcode] is 6 and entry 7 is unset.  The decoder reports nothing,
    [gif_next_frame] returns 1, and the second pixel is drawn from the stale
    cell [lzw_pixels[7]]. *)
Theorem bad_code_is_decoded c_indet :
  let r := gif_next_frame c_indet 100 (open_gif gif_bad_code) (replicate 6 170) 0 in
  call_ret r = Some 1
  /\ callback_calls (call_ctx r) = []
  /\ call_canvas r = [255; 255; 255; 0; 0; 0].
Proof. vm_compute. done. Qed.

(** C3 (counterexample).  On the minimal 1x1 GIF the second call of
    [gif_next_frame] returns 1, not 0. *)
Lemma minimal_gif_second_call :
  let r1 := gif_next_frame 0 100 (open_gif gif_minimal) (replicate 3 170) 0 in
  let r2 := call_again 0 100 r1 in
  loop_count (open_gif gif_minimal) = -1
  /\ call_ret r1 = Some 1 /\ call_ret r2 = Some 1 /\ call_ret r2 <> Some 0.
Proof. vm_compute. done. Qed.

Lemma minimal_gif_first c fb d :
  gif_next_frame c 100 (open_gif gif_minimal) fb d
  = Some (1, call_ctx (gif_next_frame 0 100 (open_gif gif_minimal) [] 0), fb, 0).
Proof. vm_compute. reflexivity. Qed.

Lemma minimal_gif_later c fb d :
  gif_next_frame c 100 (call_ctx (gif_next_frame 0 100 (open_gif gif_minimal) [] 0)) fb d
  = Some (1, call_ctx (gif_next_frame 0 100 (open_gif gif_minimal) [] 0), fb, 0).
Proof. vm_compute. reflexivity. Qed.

Lemma minimal_gif_play_later c fb n : forall d,
  play c 100 n (call_ctx (gif_next_frame 0 100 (open_gif gif_minimal) [] 0)) fb d
  = Some (replicate n 1).
Proof.
  induction n as [| n IH]; intros d; [done |].
  cbn [play]. rewrite minimal_gif_later. cbn [mbind option_bind].
  rewrite IH. done.
Qed.

(** C4 (counterexample).  [gif_two_frames] has a graphic-control extension
    (disposal 2, transparent index 3) before its first image and none
    before its second, whose pixels are 3 and 2.  The second frame is
    decoded with disposal method 2 and transparency on: its pixel 3 is
    drawn as the background colour, not as palette entry 3. *)
Lemma second_frame_inherits_graphic_control :
  let r1 := gif_next_frame 0 100 (open_gif gif_two_frames) (replicate 6 170) 0 in
  let r2 := call_again 0 100 r1 in
  call_ret r1 = Some 1
  /\ rd gif_two_frames (current_pos (call_ctx r1)) = 44
  /\ call_ret r2 = Some 1
  /\ disposal_method (call_ctx r2) = 2 /\ has_transparency (call_ctx r2) = 1
  /\ call_canvas r2 = [0; 0; 0; 0; 255; 0]
  /\ ~ (disposal_method (call_ctx r2) = 0 /\ has_transparency (call_ctx r2) = 0).
Proof. vm_compute. repeat split; try done. intros [? _]. done. Qed.

(** C5 (counterexample).  [gif_loop0] stores loop count 0 in its NETSCAPE
    extension: the animation is played once, and the second call of
    [gif_next_frame] returns 0. *)
Lemma stored_zero_plays_once :
  let r1 := gif_next_frame 0 100 (open_gif gif_loop0) (replicate 6 170) 0 in
  let r2 := call_again 0 100 r1 in
  call_ret r1 = Some 1 /\ loop_count (call_ctx r1) = 0 /\ call_ret r2 = Some 0.
Proof. vm_compute. done. Qed.

(** C7 (evaluation at the failing input).  [gif_column] is the 1x4 image
    with pixels 0, 1, 0, 1, encoded as CLEAR, 0, 1, 6, END.  Code 1 and
    code 6 each fill the line buffer beyond [frame_width = 1]; each time one
    line is flushed and the rest of the buffer is dropped.  The call
    returns 1 with rows 2 and 3 of the canvas never written. *)
Theorem column_gif_loses_pixels c_indet :
  let r := gif_next_frame c_indet 100 (open_gif gif_column) (replicate 12 170) 0 in
  call_ret r = Some 1
  /\ callback_calls (call_ctx r) = []
  /\ call_canvas r = [0; 0; 0; 0; 0; 0; 170; 170; 170; 170; 170; 170].
Proof. vm_compute. done. Qed.

(** ** Reads inside the input *)

Lemma rd_is_byte (l : list Z) i : Forall is_byte l -> is_byte (rd l i).
Proof.
  intros H. unfold rd. destruct (i <? 0); [unfold is_byte; lia |].
  destruct (l !! Z.to_nat i) as [b |] eqn:E; simpl; [| unfold is_byte; lia].
  by eapply Forall_lookup_1.
Qed.

Lemma read_byte_inside ctx :
  current_pos ctx < gif_size ctx ->
  gif_read_byte_internal ctx
  = (rd (gif_data ctx) (current_pos ctx), set_current_pos (current_pos ctx + 1) ctx).
Proof.
  intros H. unfold gif_read_byte_internal.
  destruct (current_pos ctx <? gif_size ctx) eqn:E; [done | lia].
Qed.

Lemma skip_inside ctx len :
  0 <= current_pos ctx -> 0 <= len -> current_pos ctx + len <= gif_size ctx ->
  gif_size ctx < 18446744073709551616 ->
  gif_skip_bytes_internal ctx len = set_current_pos (current_pos ctx + len) ctx.
Proof.
  intros Hp Hl H Hs. unfold gif_skip_bytes_internal.
  rewrite size_t_small by lia.
  destruct (current_pos ctx + len <=? gif_size ctx) eqn:E; [done | lia].
Qed.

Lemma read_bytes_inside ctx len :
  0 <= current_pos ctx -> 0 < len -> current_pos ctx + len <= gif_size ctx ->
  gif_size ctx < 18446744073709551616 ->
  gif_read_bytes_internal ctx len
  = (len, rd_seq (gif_data ctx) (current_pos ctx) (Z.to_nat len),
     set_current_pos (current_pos ctx + len) ctx).
Proof.
  intros Hp Hl H Hs. unfold gif_read_bytes_internal.
  rewrite (size_t_small (current_pos ctx + len)) by lia.
  destruct (current_pos ctx + len >? gif_size ctx) eqn:E; [lia |].
  destruct (len >? 0) eqn:E'; [| lia].
  by rewrite size_t_small by lia.
Qed.

Lemma read_bytes_short ctx len :
  0 <= current_pos ctx < gif_size ctx -> gif_size ctx < current_pos ctx + len ->
  current_pos ctx + len < 18446744073709551616 ->
  gif_read_bytes_internal ctx len
  = (gif_size ctx - current_pos ctx,
     rd_seq (gif_data ctx) (current_pos ctx) (Z.to_nat (gif_size ctx - current_pos ctx)),
     set_current_pos (gif_size ctx) ctx).
Proof.
  intros Hp H Hs. unfold gif_read_bytes_internal.
  rewrite (size_t_small (current_pos ctx + len)) by lia.
  destruct (current_pos ctx + len >? gif_size ctx) eqn:E; [| lia].
  rewrite (size_t_small (gif_size ctx - current_pos ctx)) by lia.
  destruct (gif_size ctx - current_pos ctx >? 0) eqn:E'; [| lia].
  rewrite size_t_small by lia. do 2 f_equal. lia.
Qed.

Lemma skip_keeps_input ctx len :
  gif_size (gif_skip_bytes_internal ctx len) = gif_size ctx
  /\ gif_data (gif_skip_bytes_internal ctx len) = gif_data ctx.
Proof. unfold gif_skip_bytes_internal. by destruct (_ <=? _). Qed.

(** ** Termination of the sub-block skipper *)

Lemma discard_sub_blocks_terminates fuel : forall ctx,
  cursor_ok ctx -> gif_size ctx + 255 < 18446744073709551616 ->
  Forall is_byte (gif_data ctx) ->
  gif_size ctx - current_pos ctx < Z.of_nat fuel ->
  exists ctx', gif_discard_sub_blocks fuel ctx = Some ctx'.
Proof.
  induction fuel as [| fuel IH]; intros ctx Hc Hs Hb Hf.
  { destruct Hc as (? & _). lia. }
  cbn [gif_discard_sub_blocks].
  destruct (Z.lt_ge_cases (current_pos ctx) (gif_size ctx)) as [Hp | Hp].
  - rewrite read_byte_inside by done.
    pose proof (rd_is_byte (gif_data ctx) (current_pos ctx) Hb) as Hv.
    set (b := rd (gif_data ctx) (current_pos ctx)) in *. unfold is_byte in Hv.
    destruct (_ && _); [eauto |].
    destruct (b =? 0) eqn:E0; [eauto |].
    apply IH.
    + apply cursor_ok_skip. destruct Hc as (? & ? & ?). unfold cursor_ok. simpl. lia.
    + by destruct (skip_keeps_input (set_current_pos (current_pos ctx + 1) ctx) b) as [-> _].
    + by destruct (skip_keeps_input (set_current_pos (current_pos ctx + 1) ctx) b) as [_ ->].
    + destruct Hc as (? & ? & ?). unfold gif_skip_bytes_internal. cbn.
      rewrite size_t_small by lia.
      destruct (_ <=? _); cbn; lia.
  - unfold gif_read_byte_internal.
    destruct (current_pos ctx <? gif_size ctx) eqn:E; [lia |].
    destruct (report_error_fields ctx GIF_ERROR_EARLY_EOF
                "Unexpected EOF while reading byte.") as (Hs' & Hp' & _).
    rewrite Hs', Hp'. cbn [Z.eqb andb].
    destruct (gif_size ctx <=? current_pos ctx) eqn:E'; [eauto | lia].
Qed.

Lemma loop_count_report ctx e m : loop_count (gif_report_error ctx e m) = loop_count ctx.
Proof. unfold gif_report_error. by destruct (error_callback ctx). Qed.

Lemma loop_count_read_byte ctx : loop_count (gif_read_byte_internal ctx).2 = loop_count ctx.
Proof.
  unfold gif_read_byte_internal. destruct (_ <? _); simpl; [done |].
  apply loop_count_report.
Qed.

Lemma loop_count_skip ctx len : loop_count (gif_skip_bytes_internal ctx len) = loop_count ctx.
Proof. unfold gif_skip_bytes_internal. by destruct (_ <=? _). Qed.

Lemma loop_count_discard fuel : forall ctx ctx',
  gif_discard_sub_blocks fuel ctx = Some ctx' -> loop_count ctx' = loop_count ctx.
Proof.
  induction fuel as [| fuel IH]; intros ctx ctx' H; simpl in H; [done |].
  pose proof (loop_count_read_byte ctx) as Hb.
  destruct (gif_read_byte_internal ctx) as [b ctx1]; simpl in Hb.
  destruct (_ && _); [inversion H; subst; by rewrite loop_count_report |].
  destruct (b =? 0); [inversion H; subst; by rewrite loop_count_skip |].
  apply IH in H. by rewrite H, loop_count_skip.
Qed.

Lemma application_ext_loop_count fuel ctx :
  cursor_ok ctx -> gif_size ctx + 255 < 18446744073709551616 ->
  Forall is_byte (gif_data ctx) ->
  current_pos ctx + 16 <= gif_size ctx ->
  rd (gif_data ctx) (current_pos ctx) = 11 ->
  rd (gif_data ctx) (current_pos ctx + 12) = 3 ->
  gif_size ctx - current_pos ctx < Z.of_nat fuel ->
  exists ctx',
    gif_read_application_ext fuel ctx = Some ctx'
    /\ loop_count ctx' = i16 (gif_read_u16_le (gif_data ctx) (current_pos ctx + 14)).
Proof.
  intros (Hp & Ha & Hs) Hs' Hb Hl H11 H3 Hf.
  unfold gif_read_application_ext.
  rewrite read_byte_inside by lia. rewrite H11. cbn [Z.eqb Pos.eqb].
  rewrite read_bytes_inside by (cbn; lia). cbn [current_pos set_current_pos gif_size].
  rewrite read_bytes_inside by (cbn; lia).
  rewrite read_byte_inside by (cbn; lia).
  cbn [current_pos set_current_pos gif_data].
  replace (current_pos ctx + 1 + 8 + 3) with (current_pos ctx + 12) by lia.
  rewrite H3. cbn [Z.eqb Pos.eqb negb].
  rewrite (skip_inside _ 1) by (cbn; lia).
  cbn [current_pos set_current_pos gif_data].
  match goal with |- context [gif_discard_sub_blocks fuel ?x] =>
    destruct (discard_sub_blocks_terminates fuel x) as [ctx' Hd] end.
  - apply cursor_ok_skip. unfold cursor_ok. cbn. lia.
  - match goal with |- context [gif_skip_bytes_internal ?x ?l] =>
      by destruct (skip_keeps_input x l) as [-> _] end.
  - match goal with |- context [gif_skip_bytes_internal ?x ?l] =>
      by destruct (skip_keeps_input x l) as [_ ->] end.
  - rewrite skip_inside by (cbn; lia). cbn. lia.
  - exists ctx'. split; [done |].
    apply loop_count_discard in Hd. rewrite Hd, loop_count_skip. cbn.
    do 2 f_equal. lia.
Qed.

Lemma next_frame_at_trailer_finishes c fuel ctx fb d :
  loop_count ctx = 0 -> current_pos ctx < gif_size ctx ->
  rd (gif_data ctx) (current_pos ctx) = 59 ->
  gif_next_frame c (S fuel) ctx fb d
  = Some (0, set_current_pos (current_pos ctx + 1) ctx, fb, d).
Proof.
  intros Hl Hp Hb. unfold gif_next_frame.
  destruct (gif_size ctx <=? current_pos ctx) eqn:E; [lia |].
  cbn [gif_next_frame_scan].
  destruct (current_pos ctx <? gif_size ctx) eqn:E'; [| lia].
  rewrite read_byte_inside by done. rewrite Hb. cbn [Z.eqb Pos.eqb].
  unfold gif_loop_again. cbn [loop_count set_current_pos]. rewrite Hl. done.
Qed.

(** C5 (as the code has it).  The loop count of a well-formed application
    extension is stored as read, as a signed 16-bit value; and with a loop
    count of 0 (the stored value 0) [gif_next_frame] returns 0 at the
    trailer without rewinding: the animation plays once. *)
Theorem stored_loop_count_zero_plays_once :
  (forall fuel ctx,
     cursor_ok ctx -> gif_size ctx + 255 < 18446744073709551616 ->
     Forall is_byte (gif_data ctx) ->
     current_pos ctx + 16 <= gif_size ctx ->
     rd (gif_data ctx) (current_pos ctx) = 11 ->
     rd (gif_data ctx) (current_pos ctx + 12) = 3 ->
     gif_size ctx - current_pos ctx < Z.of_nat fuel ->
     exists ctx',
       gif_read_application_ext fuel ctx = Some ctx'
       /\ loop_count ctx' = i16 (gif_read_u16_le (gif_data ctx) (current_pos ctx + 14)))
  /\ i16 0 = 0
  /\ (forall c_indet fuel ctx fb d,
        loop_count ctx = 0 -> current_pos ctx < gif_size ctx ->
        rd (gif_data ctx) (current_pos ctx) = 59 ->
        gif_next_frame c_indet (S fuel) ctx fb d
        = Some (0, set_current_pos (current_pos ctx + 1) ctx, fb, d)).
Proof.
  split; [| split; [done |]].
  - intros. by apply application_ext_loop_count.
  - intros. by apply next_frame_at_trailer_finishes.
Qed.

(** ** A sub-block cut short by the end of the input *)


Lemma read_bytes_past_end ctx len :
  0 <= current_pos ctx <= gif_size ctx -> gif_size ctx < current_pos ctx + len ->
  current_pos ctx + len < 18446744073709551616 ->
  exists bytes,
    gif_read_bytes_internal ctx len
    = (gif_size ctx - current_pos ctx, bytes, set_current_pos (gif_size ctx) ctx).
Proof.
  intros Hp H Hs.
  destruct (decide (current_pos ctx = gif_size ctx)) as [He | Hne].
  - exists []. unfold gif_read_bytes_internal.
    rewrite (size_t_small (current_pos ctx + len)) by lia.
    destruct (current_pos ctx + len >? gif_size ctx) eqn:E; [| lia].
    rewrite (size_t_small (gif_size ctx - current_pos ctx)) by lia.
    destruct (gif_size ctx - current_pos ctx >? 0) eqn:E'; [lia |].
    rewrite <- He. by destruct ctx.
  - eexists. apply read_bytes_short; lia.
Qed.





(** ** The theorems at concrete inputs *)

Lemma stored_loop_count_witness :
  (exists ctx',
     gif_read_application_ext 100 (set_current_pos 21 (open_gif gif_loop0)) = Some ctx'
     /\ loop_count ctx' = 0)
  /\ gif_next_frame 0 1
       (call_ctx (gif_next_frame 0 100 (open_gif gif_loop0) (replicate 6 170) 0)) [] 0
     = Some (0,
             set_current_pos 54
               (call_ctx (gif_next_frame 0 100 (open_gif gif_loop0) (replicate 6 170) 0)),
             [], 0).
Proof.
  destruct stored_loop_count_zero_plays_once as (H1 & _ & H2). split.
  - apply (H1 100%nat (set_current_pos 21 (open_gif gif_loop0))).
    + vm_compute. repeat split; discriminate.
    + vm_compute. reflexivity.
    + vm_compute. repeat constructor; discriminate.
    + vm_compute. discriminate.
    + vm_compute. reflexivity.
    + vm_compute. reflexivity.
    + vm_compute. reflexivity.
  - apply (H2 0 0%nat
             (call_ctx (gif_next_frame 0 100 (open_gif gif_loop0) (replicate 6 170) 0))
             [] 0).
    + vm_compute. reflexivity.
    + vm_compute. reflexivity.
    + vm_compute. reflexivity.
Defined.

Lemma compositor_writes_pixel_witness :
  let ctx := call_ctx (gif_next_frame 0 100 (open_gif gif_bad_code) (replicate 6 170) 0) in
  rd_seq (composite_line ctx 0 (replicate 6 170)) (dest_row_start ctx 0 + 0 * 3) 3
  = rd_seq (active_palette ctx) (rd (scratch_line_buffer ctx) 0 * 3) 3.
Proof.
  intros ctx.
  assert (0 <= 0 < frame_width ctx) as H1 by (vm_compute; split; [discriminate | reflexivity]).
  assert (0 <= dest_row_start ctx 0) as H2 by (vm_compute; discriminate).
  assert (dest_row_start ctx 0 + 3 * frame_width ctx <= Z.of_nat (length (replicate 6 170)))
    as H3 by (vm_compute; discriminate).
  destruct (compositor_writes_pixel ctx 0 (replicate 6 170) 0 H1 H2 H3) as (_ & _ & H).
  apply H. left. vm_compute. reflexivity.
Defined.

Lemma cursor_stays_within_input_witness :
  0 <= current_pos (open_gif gif_minimal) <= gif_size (open_gif gif_minimal).
Proof.
  apply (proj1 cursor_stays_within_input).
  apply reachable_set_error_callback.
  apply (reachable_init (zeroed_context []) gif_minimal (Z.of_nat (length gif_minimal))
           scratch_zero GIF_SCRATCH_BUFFER_REQUIRED_SIZE).
  - vm_compute. split; [discriminate | reflexivity].
  - vm_compute. reflexivity.
Defined.

Lemma read_byte_at_end_witness :
  (gif_read_byte_internal (zeroed_context [])).1 = 0
  /\ current_pos (gif_read_byte_internal (zeroed_context [])).2 = 0.
Proof.
  destruct (read_byte_at_end_yields_zero (zeroed_context [])) as (H1 & _ & H2 & _).
  - vm_compute. discriminate.
  - split; [exact H1 | exact H2].
Defined.

(** * Further properties of the code *)

(** ** The animation loop *)

(** X1.  At the end of the input with no repeat left, [gif_next_frame] returns 0
    and changes neither the context, the canvas nor [*delay_ms]; this is
    the state of a context after [gif_close]. *)
Theorem finished_animation_stays_finished c_indet fuel ctx fb d :
  gif_size ctx <= current_pos ctx -> loop_count ctx <> -1 -> loop_count ctx <= 0 ->
  gif_next_frame c_indet fuel ctx fb d = Some (0, ctx, fb, d)
  /\ (forall ctx0, gif_next_frame c_indet fuel (gif_close ctx0) fb d
                   = Some (0, gif_close ctx0, fb, d)).
Proof.
  intros Hp Hl Hl'. split.
  - unfold gif_next_frame, gif_loop_again.
    destruct (gif_size ctx <=? current_pos ctx) eqn:E; [| lia].
    destruct (loop_count ctx =? -1) eqn:E1; [lia |].
    destruct (loop_count ctx >? 0) eqn:E2; [lia |]. done.
  - intros ctx0. reflexivity.
Qed.

Lemma finished_animation_witness :
  gif_next_frame 0 0 (gif_close (open_gif gif_minimal)) [1; 2; 3] 7
  = Some (0, gif_close (open_gif gif_minimal), [1; 2; 3], 7).
Proof.
  apply (finished_animation_stays_finished 0 0 (gif_close (open_gif gif_minimal))
           [1; 2; 3] 7); vm_compute; discriminate.
Defined.

Lemma scan_trailer_at_start_diverges fuel : forall ctx,
  loop_count ctx = -1 -> 0 <= anim_start_pos ctx < gif_size ctx ->
  rd (gif_data ctx) (anim_start_pos ctx) = 59 ->
  current_pos ctx = anim_start_pos ctx ->
  gif_next_frame_scan fuel ctx = None.
Proof.
  induction fuel as [| fuel IH]; intros ctx Hl Ha Hb Hp; [done |].
  cbn [gif_next_frame_scan].
  destruct (current_pos ctx <? gif_size ctx) eqn:E; [| lia].
  rewrite read_byte_inside by lia. rewrite Hp, Hb. cbn [Z.eqb Pos.eqb].
  unfold gif_loop_again. cbn [loop_count set_current_pos]. rewrite Hl.
  cbn [Z.eqb Pos.eqb orb Z.gtb Z.compare].
  apply IH; cbn; done.
Qed.

(** X2.  A stream whose animation starts with the trailer (a GIF with no image)
    and whose loop count is the default -1 makes [gif_next_frame] rewind
    for ever: no amount of fuel lets it return. *)
Theorem frameless_gif_never_returns c_indet ctx fb d :
  loop_count ctx = -1 -> 0 <= anim_start_pos ctx < gif_size ctx ->
  rd (gif_data ctx) (anim_start_pos ctx) = 59 ->
  current_pos ctx = anim_start_pos ctx \/ gif_size ctx <= current_pos ctx ->
  forall fuel, gif_next_frame c_indet fuel ctx fb d = None.
Proof.
  intros Hl Ha Hb Hp fuel. unfold gif_next_frame.
  destruct (gif_size ctx <=? current_pos ctx) eqn:E.
  - unfold gif_loop_again. rewrite Hl. cbn [Z.eqb Pos.eqb orb Z.gtb Z.compare].
    rewrite scan_trailer_at_start_diverges; done.
  - rewrite scan_trailer_at_start_diverges; try done. lia.
Qed.

Lemma frameless_gif_witness :
  gif_next_frame 0 1000 (open_gif (take 19 gif_minimal ++ [59])) [] 0 = None.
Proof.
  apply (frameless_gif_never_returns 0 (open_gif (take 19 gif_minimal ++ [59])) [] 0).
  - vm_compute. reflexivity.
  - vm_compute. split; [discriminate | reflexivity].
  - vm_compute. reflexivity.
  - left. vm_compute. reflexivity.
Defined.

(** ** Termination of the bounded loops *)

(** X3.  The sub-block skipper stops: on an input of bytes it returns within
    [gif_size - current_pos + 1] iterations, with the cursor inside the
    input. *)
Theorem discard_sub_blocks_returns fuel ctx :
  cursor_ok ctx -> gif_size ctx + 255 < 18446744073709551616 ->
  Forall is_byte (gif_data ctx) ->
  gif_size ctx - current_pos ctx < Z.of_nat fuel ->
  exists ctx',
    gif_discard_sub_blocks fuel ctx = Some ctx'
    /\ current_pos ctx <= current_pos ctx' <= gif_size ctx'
    /\ gif_size ctx' = gif_size ctx.
Proof.
  intros Hc Hs Hb Hf.
  destruct (discard_sub_blocks_terminates fuel ctx Hc Hs Hb Hf) as [ctx' H].
  exists ctx'. split; [done |].
  pose proof (cursor_ok_discard fuel ctx ctx' H Hc) as (Hp' & _).
  revert ctx ctx' H Hc Hs Hb Hf Hp'.
  induction fuel as [| fuel IH]; intros ctx ctx' H Hc Hs Hb Hf Hp'; [done |].
  cbn [gif_discard_sub_blocks] in H.
  destruct Hc as (Hp & Ha & Hsz).
  destruct (Z.lt_ge_cases (current_pos ctx) (gif_size ctx)) as [Hlt | Hge].
  - rewrite read_byte_inside in H by done.
    pose proof (rd_is_byte (gif_data ctx) (current_pos ctx) Hb) as Hv.
    unfold is_byte in Hv.
    set (b := rd (gif_data ctx) (current_pos ctx)) in *.
    destruct (_ && _).
    { inversion H; subst.
      destruct (report_error_fields (set_current_pos (current_pos ctx + 1) ctx)
                  GIF_ERROR_EARLY_EOF "Unexpected EOF while discarding sub-blocks.")
        as (-> & -> & _). cbn. lia. }
    destruct (skip_keeps_input (set_current_pos (current_pos ctx + 1) ctx) b)
      as [Hks Hkd].
    assert (current_pos ctx + 1
            <= current_pos (gif_skip_bytes_internal
                              (set_current_pos (current_pos ctx + 1) ctx) b)
            <= gif_size ctx) as Hk.
    { unfold gif_skip_bytes_internal. cbn. rewrite size_t_small by lia.
      destruct (_ <=? _) eqn:E; cbn; lia. }
    destruct (b =? 0).
    { inversion H; subst. rewrite Hks. cbn. cbn in Hk. lia. }
    apply IH in H.
    + rewrite Hks in H. cbn in H. lia.
    + unfold cursor_ok. rewrite Hks. cbn.
      destruct (skip_keeps_input (set_current_pos (current_pos ctx + 1) ctx) b).
      unfold gif_skip_bytes_internal in *. destruct (_ <=? _); cbn in *; lia.
    + by rewrite Hks.
    + by rewrite Hkd.
    + rewrite Hks. cbn. lia.
    + done.
  - unfold gif_read_byte_internal in H.
    destruct (current_pos ctx <? gif_size ctx) eqn:E; [lia |].
    destruct (report_error_fields ctx GIF_ERROR_EARLY_EOF
                "Unexpected EOF while reading byte.") as (Hs' & Hp'' & _).
    rewrite Hs', Hp'' in H. cbn [Z.eqb andb] in H.
    destruct (gif_size ctx <=? current_pos ctx) eqn:E'; [| lia].
    inversion H; subst.
    match goal with |- context [gif_report_error ?x ?e ?m] =>
      destruct (report_error_fields x e m) as (-> & -> & _) end.
    rewrite Hs', Hp''. lia.
Qed.

Lemma discard_sub_blocks_witness :
  exists ctx',
    gif_discard_sub_blocks 100 (set_current_pos 30 (open_gif gif_minimal)) = Some ctx'
    /\ 30 <= current_pos ctx' <= gif_size ctx' /\ gif_size ctx' = 35.
Proof.
  apply (discard_sub_blocks_returns 100 (set_current_pos 30 (open_gif gif_minimal))).
  - vm_compute. repeat split; discriminate.
  - vm_compute. reflexivity.
  - vm_compute. repeat constructor; discriminate.
  - vm_compute. reflexivity.
Defined.

(** ** Sub-block sequences *)

Lemma rd_app_r (pre l : list Z) k :
  0 <= k -> rd (pre ++ l) (Z.of_nat (length pre) + k) = rd l k.
Proof.
  intros Hk. unfold rd.
  destruct (Z.ltb_spec (Z.of_nat (length pre) + k) 0); [exfalso; lia |].
  destruct (Z.ltb_spec k 0); [exfalso; lia |].
  rewrite lookup_app_r by lia. do 2 f_equal. lia.
Qed.

Lemma rd_seq_app_r n : forall (pre l : list Z) k,
  0 <= k -> rd_seq (pre ++ l) (Z.of_nat (length pre) + k) n = rd_seq l k n.
Proof.
  induction n as [| n IH]; intros pre l k Hk; [done |].
  cbn [rd_seq]. rewrite rd_app_r by done. f_equal.
  rewrite <- Z.add_assoc. apply IH. lia.
Qed.

Lemma rd_seq_prefix (b rest : list Z) : rd_seq (b ++ rest) 0 (length b) = b.
Proof.
  induction b as [| x b IH]; [done |].
  cbn [length rd_seq]. f_equal.
  change (0 + 1) with (Z.of_nat (length [x]) + 0).
  change ((x :: b) ++ rest) with ([x] ++ (b ++ rest)).
  rewrite rd_seq_app_r by done. exact IH.
Qed.

Lemma sub_blocks_cons b bs :
  sub_blocks (b :: bs) = Z.of_nat (length b) :: b ++ sub_blocks bs.
Proof. unfold sub_blocks. cbn. by rewrite <- app_assoc. Qed.

Lemma length_sub_blocks_cons b bs :
  Z.of_nat (length (sub_blocks (b :: bs)))
  = 1 + Z.of_nat (length b) + Z.of_nat (length (sub_blocks bs)).
Proof. rewrite sub_blocks_cons. cbn [length]. rewrite length_app. lia. Qed.

Lemma set_current_pos_twice v w ctx :
  set_current_pos v (set_current_pos w ctx) = set_current_pos v ctx.
Proof. reflexivity. Qed.

Lemma discard_well_formed bs : forall fuel pre rest ctx,
  gif_data ctx = pre ++ sub_blocks bs ++ rest ->
  gif_size ctx = Z.of_nat (length (gif_data ctx)) ->
  gif_size ctx < 18446744073709551616 ->
  current_pos ctx = Z.of_nat (length pre) ->
  Forall block_ok bs -> (length bs < fuel)%nat ->
  gif_discard_sub_blocks fuel ctx
  = Some (let ctx' := set_current_pos
                        (Z.of_nat (length pre) + Z.of_nat (length (sub_blocks bs))) ctx in
          if decide (rest = [])
          then gif_report_error ctx' GIF_ERROR_EARLY_EOF
                 "Unexpected EOF while discarding sub-blocks."
          else ctx').
Proof.
  induction bs as [| b bs IH]; intros fuel pre rest ctx Hd Hs Hm Hp Hb Hf.
  - destruct fuel as [| fuel]; [simpl in Hf; lia |].
    cbn [gif_discard_sub_blocks].
    assert (Z.of_nat (length (gif_data ctx))
            = Z.of_nat (length pre) + 1 + Z.of_nat (length rest)) as Hlen
      by (rewrite Hd, !length_app; cbn; lia).
    rewrite read_byte_inside by lia.
    assert (rd (gif_data ctx) (current_pos ctx) = 0) as Hv.
    { rewrite Hd, Hp.
      replace (Z.of_nat (length pre)) with (Z.of_nat (length pre) + 0) at 1 by lia.
      by rewrite rd_app_r. }
    rewrite Hv, Hp.
    cbn [Z.eqb andb gif_size current_pos set_current_pos].
    change (Z.of_nat (length (sub_blocks []))) with 1.
    destruct (decide (rest = [])) as [-> | Hne].
    + cbn [length] in Hlen.
      destruct (Z.leb_spec (gif_size ctx) (Z.of_nat (length pre) + 1)); [done | lia].
    + assert (0 < length rest)%nat by (destruct rest; [done | cbn; lia]).
      destruct (Z.leb_spec (gif_size ctx) (Z.of_nat (length pre) + 1)); [lia |].
      rewrite skip_inside by (cbn; lia). cbn [current_pos set_current_pos].
      rewrite set_current_pos_twice. do 2 f_equal. lia.
  - destruct fuel as [| fuel]; [simpl in Hf; lia |].
    apply Forall_cons in Hb as [Hb0 Hb].
    cbn [gif_discard_sub_blocks].
    assert (Z.of_nat (length (gif_data ctx))
            = Z.of_nat (length pre) + Z.of_nat (length (sub_blocks (b :: bs)))
              + Z.of_nat (length rest)) as Hlen
      by (rewrite Hd, !length_app; lia).
    rewrite length_sub_blocks_cons in Hlen.
    assert (0 < Z.of_nat (length (sub_blocks bs))) as Hpos
      by (unfold sub_blocks; rewrite length_app; cbn; lia).
    unfold block_ok in Hb0.
    rewrite read_byte_inside by lia.
    assert (rd (gif_data ctx) (current_pos ctx) = Z.of_nat (length b)) as Hv.
    { rewrite Hd, Hp.
      replace (Z.of_nat (length pre)) with (Z.of_nat (length pre) + 0) at 1 by lia.
      rewrite rd_app_r by done. by rewrite sub_blocks_cons. }
    rewrite Hv.
    destruct (Z.eqb_spec (Z.of_nat (length b)) 0); [lia |]. cbn [andb].
    rewrite skip_inside by (cbn; lia).
    cbn [current_pos set_current_pos]. rewrite set_current_pos_twice.
    rewrite (IH fuel (pre ++ Z.of_nat (length b) :: b) rest).
    + cbv zeta. rewrite length_app, length_sub_blocks_cons. cbn [length].
      rewrite !set_current_pos_twice.
      replace (Z.of_nat (length pre + S (length b)) + Z.of_nat (length (sub_blocks bs)))
        with (Z.of_nat (length pre)
              + (1 + Z.of_nat (length b) + Z.of_nat (length (sub_blocks bs)))) by lia.
      done.
    + cbn [gif_data set_current_pos]. rewrite Hd, sub_blocks_cons.
      rewrite <- ?app_assoc. cbn [app]. rewrite <- ?app_assoc. done.
    + cbn. done.
    + cbn. done.
    + cbn. rewrite length_app. cbn [length]. lia.
    + done.
    + simpl in Hf. lia.
Qed.

(** X4.  The sub-block skipper consumes exactly a well-formed sub-block
    sequence: it stops just behind the terminator, reporting nothing
    unless the terminator is the last byte of the input, in which case it
    reports [GIF_ERROR_EARLY_EOF] all the same. *)
Theorem discard_sub_blocks_skips_sequence fuel pre bs rest ctx :
  gif_data ctx = pre ++ sub_blocks bs ++ rest ->
  gif_size ctx = Z.of_nat (length (gif_data ctx)) ->
  gif_size ctx < 18446744073709551616 ->
  current_pos ctx = Z.of_nat (length pre) ->
  Forall block_ok bs -> (length bs < fuel)%nat ->
  gif_discard_sub_blocks fuel ctx
  = Some (let ctx' := set_current_pos
                        (Z.of_nat (length pre) + Z.of_nat (length (sub_blocks bs))) ctx in
          if decide (rest = [])
          then gif_report_error ctx' GIF_ERROR_EARLY_EOF
                 "Unexpected EOF while discarding sub-blocks."
          else ctx').
Proof. apply discard_well_formed. Qed.

Lemma discard_sub_blocks_skips_witness :
  gif_discard_sub_blocks 5 (set_current_pos 30 (open_gif gif_minimal))
  = Some (set_current_pos 34 (open_gif gif_minimal)).
Proof.
  pose proof (discard_sub_blocks_skips_sequence 5 (take 30 gif_minimal) [[76; 1]] [59]
                (set_current_pos 30 (open_gif gif_minimal))) as H.
  rewrite H.
  - vm_compute. reflexivity.
  - vm_compute. reflexivity.
  - vm_compute. reflexivity.
  - vm_compute. reflexivity.
  - vm_compute. reflexivity.
  - repeat constructor.
  - vm_compute. lia.
Defined.

(** ** The sub-block assembler *)

Lemma wr_seq_at_app (l : list Z) : forall off a b,
  wr_seq_at (wr_seq_at l off a) (off + length a) b = wr_seq_at l off (a ++ b).
Proof.
  induction l as [| x l IH]; intros off a b; [done |].
  destruct off as [| off].
  - destruct a as [| y a]; [done |].
    cbn [wr_seq_at length Nat.add app]. f_equal. apply (IH 0%nat).
  - cbn [wr_seq_at Nat.add]. f_equal. apply IH.
Qed.

Lemma wr_seq_at_nil (l : list Z) : forall off, wr_seq_at l off [] = l.
Proof.
  induction l as [| x l IH]; intros off; [done |].
  destruct off as [| off]; [done |]. cbn [wr_seq_at]. by rewrite IH.
Qed.

Lemma wr_seq_nil (l : list Z) n : wr_seq l n [] = l.
Proof. unfold wr_seq. destruct (n <? 0); [rewrite drop_nil |]; apply wr_seq_at_nil. Qed.

Lemma wr_seq_app (l a b : list Z) n :
  0 <= n -> wr_seq (wr_seq l n a) (n + Z.of_nat (length a)) b = wr_seq l n (a ++ b).
Proof.
  intros Hn. unfold wr_seq.
  destruct (Z.ltb_spec n 0); [lia |].
  destruct (Z.ltb_spec (n + Z.of_nat (length a)) 0); [lia |].
  replace (Z.to_nat (n + Z.of_nat (length a))) with (Z.to_nat n + length a)%nat by lia.
  apply wr_seq_at_app.
Qed.

Lemma more_lzw_data_loop_assembles bs : forall fuel c pre rest ctx,
  gif_data ctx = pre ++ sub_blocks bs ++ rest ->
  gif_size ctx = Z.of_nat (length (gif_data ctx)) ->
  gif_size ctx < 18446744073709551616 ->
  current_pos ctx = Z.of_nat (length pre) ->
  Forall block_ok bs ->
  lzw_end_of_frame ctx = 0 -> 0 <= lzw_data_size ctx ->
  lzw_data_size ctx + Z.of_nat (length (concat bs))
  < GIF_LZW_BASE_BUF_SIZE - GIF_LZW_CHUNK_SIZE ->
  (length bs < fuel)%nat ->
  exists ctx',
    gif_get_more_lzw_data_loop fuel c ctx = Some (1, ctx')
    /\ lzw_end_of_frame ctx' = 1
    /\ lzw_data_size ctx' = lzw_data_size ctx + Z.of_nat (length (concat bs))
    /\ scratch_lzw_buffer ctx'
       = wr_seq (scratch_lzw_buffer ctx) (lzw_data_size ctx) (concat bs)
    /\ current_pos ctx' = Z.of_nat (length pre) + Z.of_nat (length (sub_blocks bs))
    /\ lzw_read_offset ctx' = lzw_read_offset ctx
    /\ callback_calls ctx' = callback_calls ctx.
Proof.
  induction bs as [| b bs IH]; intros fuel c pre rest ctx Hd Hs Hm Hp Hb He Hn Ht Hf.
  - destruct fuel as [| fuel]; [simpl in Hf; lia |].
    cbn [gif_get_more_lzw_data_loop].
    assert (Z.of_nat (length (gif_data ctx))
            = Z.of_nat (length pre) + 1 + Z.of_nat (length rest)) as Hlen
      by (rewrite Hd, !length_app; cbn; lia).
    cbn [concat length] in Ht.
    destruct (Z.ltb_spec (lzw_data_size ctx) (GIF_LZW_BASE_BUF_SIZE - GIF_LZW_CHUNK_SIZE))
      as [_ | ?]; [| lia].
    destruct (Z.ltb_spec (current_pos ctx) (gif_size ctx)) as [_ | ?]; [| lia].
    cbn [andb].
    rewrite read_byte_inside by lia.
    assert (rd (gif_data ctx) (current_pos ctx) = 0) as Hv.
    { rewrite Hd, Hp.
      replace (Z.of_nat (length pre)) with (Z.of_nat (length pre) + 0) at 1 by lia.
      by rewrite rd_app_r. }
    rewrite Hv. cbn [Z.eqb]. eexists. split; [reflexivity |].
    cbn [lzw_end_of_frame set_lzw_end_of_frame lzw_data_size scratch_lzw_buffer
         current_pos set_current_pos lzw_read_offset callback_calls concat length].
    rewrite Hp, wr_seq_nil. change (Z.of_nat (length (sub_blocks []))) with 1.
    repeat split; try done; lia.
  - destruct fuel as [| fuel]; [simpl in Hf; lia |].
    apply Forall_cons in Hb as [Hb0 Hb]. unfold block_ok in Hb0.
    cbn [gif_get_more_lzw_data_loop].
    assert (Z.of_nat (length (gif_data ctx))
            = Z.of_nat (length pre) + Z.of_nat (length (sub_blocks (b :: bs)))
              + Z.of_nat (length rest)) as Hlen
      by (rewrite Hd, !length_app; lia).
    rewrite length_sub_blocks_cons in Hlen.
    cbn [concat] in Ht. rewrite length_app in Ht.
    destruct (Z.ltb_spec (lzw_data_size ctx) (GIF_LZW_BASE_BUF_SIZE - GIF_LZW_CHUNK_SIZE))
      as [_ | ?]; [| lia].
    destruct (Z.ltb_spec (current_pos ctx) (gif_size ctx)) as [_ | ?]; [| lia].
    cbn [andb].
    rewrite read_byte_inside by lia.
    assert (rd (gif_data ctx) (current_pos ctx) = Z.of_nat (length b)) as Hv.
    { rewrite Hd, Hp.
      replace (Z.of_nat (length pre)) with (Z.of_nat (length pre) + 0) at 1 by lia.
      rewrite rd_app_r by done. by rewrite sub_blocks_cons. }
    rewrite Hv.
    destruct (Z.eqb_spec (Z.of_nat (length b)) 0) as [? | _]; [lia |].
    rewrite read_bytes_inside by (cbn; lia).
    cbn [current_pos gif_data set_current_pos].
    assert (rd_seq (gif_data ctx) (current_pos ctx + 1) (Z.to_nat (Z.of_nat (length b)))
            = b) as Hbytes.
    { rewrite Hd, Hp, Nat2Z.id, sub_blocks_cons.
      change (pre ++ (Z.of_nat (length b) :: b ++ sub_blocks bs) ++ rest)
        with (pre ++ [Z.of_nat (length b)] ++ (b ++ sub_blocks bs) ++ rest).
      rewrite app_assoc.
      replace (Z.of_nat (length pre) + 1)
        with (Z.of_nat (length (pre ++ [Z.of_nat (length b)])) + 0)
        by (rewrite length_app; cbn; lia).
      rewrite rd_seq_app_r by done. rewrite <- app_assoc. apply rd_seq_prefix. }
    rewrite Hbytes.
    cbn [lzw_data_size scratch_lzw_buffer set_scratch_lzw_buffer set_lzw_data_size
         set_current_pos].
    destruct (Z.ltb_spec (Z.of_nat (length b)) (Z.of_nat (length b))) as [? | _]; [lia |].
    match goal with |- context [gif_get_more_lzw_data_loop fuel ?cc ?x] =>
      destruct (IH fuel cc (pre ++ Z.of_nat (length b) :: b) rest x)
        as (ctx' & Hr & H1 & H2 & H3 & H4 & H5 & H6) end.
    + cbn. rewrite Hd, sub_blocks_cons.
      rewrite <- ?app_assoc. cbn [app]. rewrite <- ?app_assoc. done.
    + cbn. done.
    + cbn. done.
    + cbn. rewrite length_app. cbn [length]. lia.
    + done.
    + cbn. done.
    + cbn. lia.
    + cbn. lia.
    + simpl in Hf. lia.
    + exists ctx'. split; [exact Hr |]. cbn in H1, H2, H3, H4, H5, H6.
      cbn [concat].
      split; [done |]. split; [rewrite H2, length_app; lia |].
      split; [rewrite H3; by rewrite wr_seq_app |].
      split; [| done].
      rewrite H4, length_app, length_sub_blocks_cons. cbn [length]. lia.
Qed.

(** X5.  The sub-block assembler on a fresh frame whose LZW data is a
    well-formed sub-block sequence of fewer than [5 * 255] bytes: it
    returns 1 with the blocks concatenated at the start of the LZW buffer,
    [lzw_data_size] their total length, the end-of-frame flag set, the
    cursor just behind the terminator, and nothing reported. *)
Theorem more_lzw_data_assembles_blocks c_indet fuel pre bs rest ctx :
  gif_data ctx = pre ++ sub_blocks bs ++ rest ->
  gif_size ctx = Z.of_nat (length (gif_data ctx)) ->
  gif_size ctx < 18446744073709551616 ->
  current_pos ctx = Z.of_nat (length pre) ->
  Forall block_ok bs ->
  lzw_end_of_frame ctx = 0 -> lzw_read_offset ctx = 0 -> lzw_data_size ctx = 0 ->
  Z.of_nat (length (concat bs)) < 1275 ->
  (length bs < fuel)%nat ->
  exists ctx',
    gif_get_more_lzw_data c_indet fuel ctx = Some (1, ctx')
    /\ lzw_end_of_frame ctx' = 1
    /\ lzw_read_offset ctx' = 0
    /\ lzw_data_size ctx' = Z.of_nat (length (concat bs))
    /\ scratch_lzw_buffer ctx' = wr_seq (scratch_lzw_buffer ctx) 0 (concat bs)
    /\ current_pos ctx' = Z.of_nat (length pre) + Z.of_nat (length (sub_blocks bs))
    /\ callback_calls ctx' = callback_calls ctx.
Proof.
  intros Hd Hs Hm Hp Hb He Ho Hn Ht Hf. unfold gif_get_more_lzw_data.
  rewrite He, Ho. cbn [Z.eqb negb Z.gtb Z.compare].
  destruct (more_lzw_data_loop_assembles bs fuel c_indet pre rest ctx)
    as (ctx' & Hr & H1 & H2 & H3 & H4 & H5 & H6); try done.
  - lia.
  - rewrite Hn. exact Ht.
  - exists ctx'. rewrite Hn in H2, H3. rewrite Ho in H5. by repeat split.
Qed.

Lemma more_lzw_data_assembles_witness :
  exists ctx',
    gif_get_more_lzw_data 0 5 (set_current_pos 30 (open_gif gif_minimal)) = Some (1, ctx')
    /\ lzw_data_size ctx' = 2
    /\ rd_seq (scratch_lzw_buffer ctx') 0 2 = [76; 1]
    /\ current_pos ctx' = 34.
Proof.
  destruct (more_lzw_data_assembles_blocks 0 5 (take 30 gif_minimal) [[76; 1]] [59]
              (set_current_pos 30 (open_gif gif_minimal)))
    as (ctx' & Hr & _ & _ & H2 & H3 & H4 & _).
  - vm_compute. reflexivity.
  - vm_compute. reflexivity.
  - vm_compute. reflexivity.
  - vm_compute. reflexivity.
  - repeat constructor.
  - vm_compute. reflexivity.
  - vm_compute. reflexivity.
  - vm_compute. reflexivity.
  - vm_compute. reflexivity.
  - vm_compute. lia.
  - exists ctx'. split; [exact Hr |]. split; [exact H2 |].
    split; [rewrite H3; vm_compute; reflexivity | exact H4].
Defined.

(** ** The graphic-control extension *)

Lemma land_3 a : Z.land a 3 = a mod 4.
Proof. apply (Z.land_ones a 2). lia. Qed.

Lemma land_1 a : Z.land a 1 = a mod 2.
Proof. apply (Z.land_ones a 1). lia. Qed.

(** X6.  A graphic-control block that lies inside the input: the disposal method
    is bits 2 and 3 of the packed byte (the third disposal bit of the
    format is dropped), the transparency flag is bit 0, the delay is the
    16-bit little-endian count of hundredths times 10, reduced modulo
    65536, and the cursor moves over the six bytes of the block; nothing is
    reported. *)
Theorem graphic_control_ext_fields ctx :
  cursor_ok ctx -> current_pos ctx + 6 <= gif_size ctx ->
  Forall is_byte (gif_data ctx) ->
  let data := gif_data ctx in
  let pos := current_pos ctx in
  let ctx' := gif_read_graphic_control_ext ctx in
  disposal_method ctx' = (rd data (pos + 1) / 4) mod 4
  /\ has_transparency ctx' = rd data (pos + 1) mod 2
  /\ frame_delay_ms ctx' = ((rd data (pos + 2) + 256 * rd data (pos + 3)) * 10) mod 65536
  /\ transparent_index ctx' = rd data (pos + 4)
  /\ current_pos ctx' = pos + 6
  /\ callback_calls ctx' = callback_calls ctx
  /\ loop_count ctx' = loop_count ctx.
Proof.
  intros (Hp & Ha & Hs) Hl Hb data pos ctx'. subst ctx'.
  unfold gif_read_graphic_control_ext.
  rewrite (skip_inside ctx 1) by lia.
  rewrite read_byte_inside by (cbn; lia).
  cbn [current_pos gif_data set_current_pos set_disposal_method set_has_transparency
       set_frame_delay_ms].
  rewrite (skip_inside _ 2) by (cbn; lia).
  rewrite read_byte_inside by (cbn; lia).
  rewrite (skip_inside _ 1) by (cbn; lia).
  cbn [current_pos gif_data set_current_pos set_disposal_method set_has_transparency
       set_frame_delay_ms set_transparent_index disposal_method has_transparency
       frame_delay_ms transparent_index callback_calls loop_count].
  fold data pos.
  pose proof (rd_is_byte data (pos + 1) Hb) as Hv. unfold is_byte in Hv.
  replace (pos + 1 + 1) with (pos + 2) by lia.
  replace (pos + 2 + 2) with (pos + 4) by lia.
  replace (pos + 4 + 1 + 1) with (pos + 6) by lia.
  replace (pos + 2 + 1) with (pos + 3) by lia.
  repeat split; try reflexivity.
  - rewrite land_3, Z.shiftr_div_pow2 by lia. done.
  - apply land_1.
  - unfold u16, gif_read_u16_le. by replace (pos + 2 + 1) with (pos + 3) by lia.
Qed.

Lemma graphic_control_ext_witness :
  let ctx' := gif_read_graphic_control_ext (set_current_pos 27 (open_gif gif_two_frames)) in
  disposal_method ctx' = 2 /\ has_transparency ctx' = 1 /\ frame_delay_ms ctx' = 50
  /\ transparent_index ctx' = 3 /\ current_pos ctx' = 33.
Proof.
  destruct (graphic_control_ext_fields (set_current_pos 27 (open_gif gif_two_frames)))
    as (H1 & H2 & H3 & H4 & H5 & _).
  - vm_compute. repeat split; discriminate.
  - vm_compute. discriminate.
  - vm_compute. repeat constructor; discriminate.
  - cbv zeta. rewrite H1, H2, H3, H4, H5. vm_compute. repeat split; reflexivity.
Defined.

(** ** Initialisation *)

Lemma header_buf_rd (data : list Z) k :
  0 <= k < 13 ->
  rd (wr_seq (replicate (Z.to_nat (GIF_LZW_CHUNK_SIZE + 32)) 0) 0 (rd_seq data 0 13)) k
  = rd data k.
Proof.
  intros Hk. rewrite rd_wr_seq_inside.
  - rewrite rd_rd_seq by lia. f_equal. lia.
  - lia.
  - rewrite length_rd_seq. lia.
  - rewrite length_replicate.
    change (Z.of_nat (Z.to_nat (GIF_LZW_CHUNK_SIZE + 32))) with 287. lia.
Qed.

Lemma header_buf_rd_seq (data : list Z) off n :
  0 <= off -> off + Z.of_nat n <= 13 ->
  rd_seq (wr_seq (replicate (Z.to_nat (GIF_LZW_CHUNK_SIZE + 32)) 0) 0 (rd_seq data 0 13))
    off n
  = rd_seq data off n.
Proof. intros Ho Hn. apply rd_seq_ext. intros k Hk. apply header_buf_rd. lia. Qed.

Lemma gct_size_value fdsz : Z.shiftl 1 (Z.land fdsz 7 + 1) = 2 ^ (fdsz mod 8 + 1).
Proof.
  assert (Z.land fdsz 7 = fdsz mod 8) as -> by (apply (Z.land_ones fdsz 3); lia).
  apply Z.shiftl_1_l.
Qed.

Lemma gct_size_bounds fdsz : 2 <= 2 ^ (fdsz mod 8 + 1) <= 256.
Proof.
  pose proof (Z.mod_pos_bound fdsz 8 ltac:(lia)) as H.
  assert (fdsz mod 8 = 0 \/ fdsz mod 8 = 1 \/ fdsz mod 8 = 2 \/ fdsz mod 8 = 3
          \/ fdsz mod 8 = 4 \/ fdsz mod 8 = 5 \/ fdsz mod 8 = 6 \/ fdsz mod 8 = 7)
    as [-> | [-> | [-> | [-> | [-> | [-> | [-> | ->]]]]]]] by lia; cbn; lia.
Qed.

Lemma init_return_value_cases ctx0 data size scratch scratch_size :
  size = Z.of_nat (length data) -> size < 18446744073709551616 ->
  (gif_init ctx0 data size scratch scratch_size).1
  = if size =? 0 then GIF_ERROR_INVALID_PARAM
    else if scratch_size <? 18394 then GIF_ERROR_BUFFER_TOO_SMALL
    else if size <? 13 then GIF_ERROR_EARLY_EOF
    else if negb (signature_ok data) then GIF_ERROR_BAD_FILE
    else if size <? 13 + gct_bytes data then GIF_ERROR_EARLY_EOF
    else GIF_SUCCESS.
Proof.
  intros Hs Hm. cbv beta delta [gif_init].
  destruct (Z.eqb_spec size 0) as [? | Hne]; [done |].
  change GIF_SCRATCH_BUFFER_REQUIRED_SIZE with 18394.
  destruct (Z.ltb_spec scratch_size 18394) as [? | Hreq]; [done |].
  set (c0 := gif_init_context (callback_calls ctx0) data size scratch).
  assert (current_pos c0 = 0 /\ gif_size c0 = size /\ gif_data c0 = data
          /\ file_buf c0 = replicate (Z.to_nat (GIF_LZW_CHUNK_SIZE + 32)) 0)
    as (Hp0 & Hs0 & Hd0 & Hf0) by done.
  clearbody c0. cbv zeta.
  destruct (Z.ltb_spec size 13) as [Hlt | Hge].
  { destruct (read_bytes_past_end c0 13) as [bytes Hr]; [lia .. |].
    rewrite Hr, Hp0, Hs0. cbv beta iota.
    destruct (Z.ltb_spec (size - 0) 13); [done | lia]. }
  rewrite (read_bytes_inside c0 13) by lia. cbv beta iota.
  change (13 <? 13) with false. cbv iota.
  cbn [file_buf gif_data current_pos set_file_buf set_current_pos set_canvas].
  rewrite Hf0, Hd0, Hp0.
  change (Z.to_nat 13) with 13%nat.
  rewrite !header_buf_rd_seq by (cbn; lia). rewrite header_buf_rd by lia.
  unfold signature_ok.
  destruct (bool_decide (rd_seq data 0 3 = [71; 73; 70])); [| done].
  destruct (bool_decide (rd_seq data 3 3 = [56; 55; 97]));
    destruct (bool_decide (rd_seq data 3 3 = [56; 57; 97])); try done.
  all: cbn [negb orb andb].
  all: rewrite gct_size_value; pose proof (gct_size_bounds (rd data 10)) as Hg.
  all: destruct (Z.gtb_spec (2 ^ (rd data 10 mod 8 + 1)) GIF_MAX_COLORS) as [Hbad | _];
    [change GIF_MAX_COLORS with 256 in Hbad; lia |]; rewrite andb_false_r.
  all: unfold gct_bytes.
  all: destruct (Z.eqb_spec (Z.land (rd data 10) 128) 0) as [Hz | Hnz]; cbn [negb].
  all: try (rewrite Z.ltb_irrefl;
            destruct (Z.ltb_spec size (13 + 0)); [lia | done]).
  all: match goal with |- context [gif_read_bytes_internal ?x ?n] =>
         destruct (Z.ltb_spec size (13 + 3 * 2 ^ (rd data 10 mod 8 + 1))) as [Hsh | Hok];
         [ destruct (read_bytes_past_end x n) as [bytes Hr];
           [cbn [current_pos gif_size set_canvas set_file_buf set_current_pos]; lia .. |];
           rewrite Hr; cbn [gif_size current_pos set_canvas set_file_buf set_current_pos];
           rewrite ?Hs0, ?Hp0;
           destruct (Z.ltb_spec (size - (0 + 13)) (2 ^ (rd data 10 mod 8 + 1) * 3));
           [done | lia]
         | rewrite (read_bytes_inside x n)
             by (cbn [current_pos gif_size set_canvas set_file_buf set_current_pos]; lia);
           rewrite Z.ltb_irrefl; done ]
       end.
Qed.

(** X7.  The return value of [gif_init], decided in this order: an empty input,
    a scratch buffer below the required 18394 bytes, an input shorter than
    the 13 header bytes, a wrong signature, a global colour table cut by the
    end of the input.  [GIF_ERROR_UNSUPPORTED_COLOR_DEPTH] is never
    returned: a table announced by three bits has at most 256 entries. *)
Theorem gif_init_return_value ctx0 data size scratch scratch_size :
  size = Z.of_nat (length data) -> size < 18446744073709551616 ->
  (gif_init ctx0 data size scratch scratch_size).1
  = if size =? 0 then GIF_ERROR_INVALID_PARAM
    else if scratch_size <? 18394 then GIF_ERROR_BUFFER_TOO_SMALL
    else if size <? 13 then GIF_ERROR_EARLY_EOF
    else if negb (signature_ok data) then GIF_ERROR_BAD_FILE
    else if size <? 13 + gct_bytes data then GIF_ERROR_EARLY_EOF
    else GIF_SUCCESS.
Proof. apply init_return_value_cases. Qed.

(** X8.  The context that a successful [gif_init] leaves: the cursor and the
    animation start just behind the header and the global colour table, the
    canvas size, background index and table taken from the header, the
    global palette active, the loop count at its default -1, no
    graphic-control state, and no callback installed (the structure is
    cleared, so a callback set before [gif_init] is lost). *)
Theorem gif_init_success_state ctx0 data size scratch scratch_size :
  size = Z.of_nat (length data) -> size < 18446744073709551616 ->
  18394 <= scratch_size -> signature_ok data = true -> 13 + gct_bytes data <= size ->
  let ctx := (gif_init ctx0 data size scratch scratch_size).2 in
  (gif_init ctx0 data size scratch scratch_size).1 = GIF_SUCCESS
  /\ gif_data ctx = data /\ gif_size ctx = size
  /\ current_pos ctx = 13 + gct_bytes data
  /\ anim_start_pos ctx = 13 + gct_bytes data
  /\ canvas_width ctx = gif_read_u16_le data 6
  /\ canvas_height ctx = gif_read_u16_le data 8
  /\ background_index ctx = rd data 11
  /\ rd_seq (global_palette_colors ctx) 0 (Z.to_nat (gct_bytes data))
     = rd_seq data 13 (Z.to_nat (gct_bytes data))
  /\ active_palette_colors ctx = palette_global
  /\ loop_count ctx = -1
  /\ gce_state ctx = (0, 0, 0, 0)
  /\ error_callback ctx = false
  /\ callback_calls ctx = callback_calls ctx0.
Proof.
  intros Hs Hm Hreq Hsig Hsz ctx. subst ctx.
  split.
  { rewrite init_return_value_cases by done.
    assert (0 <= gct_bytes data) as Hg.
    { unfold gct_bytes. destruct (_ =? 0); [lia |].
      pose proof (gct_size_bounds (rd data 10)). lia. }
    destruct (Z.eqb_spec size 0); [lia |].
    destruct (Z.ltb_spec scratch_size 18394); [lia |].
    destruct (Z.ltb_spec size 13); [lia |].
    rewrite Hsig. cbn [negb].
    destruct (Z.ltb_spec size (13 + gct_bytes data)); [lia | done]. }
  cbv beta delta [gif_init].
  assert (0 <= gct_bytes data) as Hg.
  { unfold gct_bytes. destruct (_ =? 0); [lia |].
    pose proof (gct_size_bounds (rd data 10)). lia. }
  destruct (Z.eqb_spec size 0) as [? | Hne]; [lia |].
  change GIF_SCRATCH_BUFFER_REQUIRED_SIZE with 18394.
  destruct (Z.ltb_spec scratch_size 18394) as [? | _]; [lia |].
  set (c0 := gif_init_context (callback_calls ctx0) data size scratch).
  assert (current_pos c0 = 0 /\ gif_size c0 = size /\ gif_data c0 = data
          /\ file_buf c0 = replicate (Z.to_nat (GIF_LZW_CHUNK_SIZE + 32)) 0
          /\ global_palette_colors c0 = replicate (Z.to_nat (GIF_MAX_COLORS * 3)) 0
          /\ loop_count c0 = -1 /\ gce_state c0 = (0, 0, 0, 0)
          /\ error_callback c0 = false /\ callback_calls c0 = callback_calls ctx0)
    as (Hp0 & Hs0 & Hd0 & Hf0 & Hg0 & Hl0 & Hgce0 & Hcb0 & Hcc0) by done.
  clearbody c0. cbv zeta.
  rewrite (read_bytes_inside c0 13) by lia. cbv beta iota.
  change (13 <? 13) with false. cbv iota.
  cbn [file_buf gif_data current_pos set_file_buf set_current_pos set_canvas].
  rewrite Hf0, Hd0, Hp0.
  change (Z.to_nat 13) with 13%nat.
  rewrite !header_buf_rd_seq by (cbn; lia). rewrite header_buf_rd by lia.
  unfold signature_ok in Hsig.
  apply andb_true_iff in Hsig as [Hsig1 Hsig2]. rewrite Hsig1. cbn [negb orb].
  assert (negb (bool_decide (rd_seq data 3 3 = [56; 55; 97]))
          && negb (bool_decide (rd_seq data 3 3 = [56; 57; 97])) = false) as ->.
  { destruct (bool_decide (rd_seq data 3 3 = [56; 55; 97]));
      destruct (bool_decide (rd_seq data 3 3 = [56; 57; 97])); done. }
  rewrite gct_size_value. pose proof (gct_size_bounds (rd data 10)) as Hb.
  destruct (Z.gtb_spec (2 ^ (rd data 10 mod 8 + 1)) GIF_MAX_COLORS) as [Hbad | _];
    [change GIF_MAX_COLORS with 256 in Hbad; lia |]. rewrite andb_false_r.
  unfold gct_bytes in *.
  destruct (Z.eqb_spec (Z.land (rd data 10) 128) 0) as [Hz | Hnz]; cbn [negb].
  - rewrite Z.ltb_irrefl. cbn [snd].
    unfold gce_state in *.
    cbn [gif_data gif_size current_pos anim_start_pos canvas_width canvas_height
         background_index global_palette_colors active_palette_colors loop_count
         error_callback callback_calls file_buf disposal_method has_transparency
         transparent_index frame_delay_ms
         set_anim_start_pos set_active_palette_colors set_background_index
         set_global_palette_colors set_canvas set_file_buf set_current_pos wr_seq].
    rewrite header_buf_rd by lia.
    unfold gif_read_u16_le. rewrite !header_buf_rd by lia.
    repeat split; try done; lia.
  - match goal with |- context [gif_read_bytes_internal ?x ?n] =>
      rewrite (read_bytes_inside x n)
        by (cbn [current_pos gif_size set_canvas set_file_buf set_current_pos]; lia)
    end.
    rewrite Z.ltb_irrefl. cbn [snd].
    unfold gce_state in *.
    cbn [gif_data gif_size current_pos anim_start_pos canvas_width canvas_height
         background_index global_palette_colors active_palette_colors loop_count
         error_callback callback_calls file_buf disposal_method has_transparency
         transparent_index frame_delay_ms
         set_anim_start_pos set_active_palette_colors set_background_index
         set_global_palette_colors set_canvas set_file_buf set_current_pos].
    rewrite header_buf_rd by lia.
    unfold gif_read_u16_le. rewrite !header_buf_rd by lia.
    rewrite ?Hg0, ?Hd0, ?Hp0, ?Hs0.
    replace (2 ^ (rd data 10 mod 8 + 1) * 3) with (3 * 2 ^ (rd data 10 mod 8 + 1)) by lia.
    repeat split; try done; try lia.
    apply rd_seq_wr_seq_copy; [lia |].
    rewrite length_replicate. change GIF_MAX_COLORS with 256. lia.
Qed.

Lemma gif_init_return_value_witness :
  (gif_init (zeroed_context []) gif_minimal 35 scratch_zero 18394).1 = GIF_SUCCESS
  /\ (gif_init (zeroed_context []) (take 10 gif_minimal) 10 scratch_zero 18394).1
     = GIF_ERROR_EARLY_EOF
  /\ (gif_init (zeroed_context []) (0 :: drop 1 gif_minimal) 35 scratch_zero 18394).1
     = GIF_ERROR_BAD_FILE
  /\ (gif_init (zeroed_context []) gif_minimal 35 scratch_zero 18393).1
     = GIF_ERROR_BUFFER_TOO_SMALL.
Proof.
  split; [| split; [| split]].
  - rewrite (gif_init_return_value (zeroed_context []) gif_minimal 35 scratch_zero 18394);
      vm_compute; reflexivity.
  - rewrite (gif_init_return_value (zeroed_context []) (take 10 gif_minimal) 10
               scratch_zero 18394); vm_compute; reflexivity.
  - rewrite (gif_init_return_value (zeroed_context []) (0 :: drop 1 gif_minimal) 35
               scratch_zero 18394); vm_compute; reflexivity.
  - rewrite (gif_init_return_value (zeroed_context []) gif_minimal 35 scratch_zero 18393);
      vm_compute; reflexivity.
Defined.

Lemma gif_init_success_witness :
  let ctx := (gif_init (zeroed_context []) gif_minimal 35 scratch_zero 18394).2 in
  current_pos ctx = 19 /\ anim_start_pos ctx = 19 /\ canvas_width ctx = 1
  /\ canvas_height ctx = 1 /\ loop_count ctx = -1
  /\ rd_seq (global_palette_colors ctx) 0 6 = [0; 0; 0; 255; 255; 255].
Proof.
  destruct (gif_init_success_state (zeroed_context []) gif_minimal 35 scratch_zero 18394)
    as (_ & _ & _ & H1 & H2 & H3 & H4 & _ & H5 & _ & H6 & _).
  - vm_compute. reflexivity.
  - vm_compute. reflexivity.
  - vm_compute. discriminate.
  - vm_compute. reflexivity.
  - vm_compute. discriminate.
  - cbv zeta. rewrite H1, H2, H3, H4, H6.
    change (Z.to_nat (gct_bytes gif_minimal)) with 6%nat in H5. rewrite H5.
    vm_compute. repeat split; reflexivity.
Defined.

(** ** Outcomes of [gif_next_frame] *)

Lemma frame_inside_canvas_other_fields ctx ctx' :
  frame_rect ctx' = frame_rect ctx -> frame_inside_canvas ctx -> frame_inside_canvas ctx'.
Proof.
  unfold frame_rect, frame_inside_canvas. intros H. inversion H as [[H1 H2 H3 H4 H5 H6]].
  by rewrite H1, H2, H3, H4, H5, H6.
Qed.

Lemma frame_rect_report ctx e m : frame_rect (gif_report_error ctx e m) = frame_rect ctx.
Proof. unfold gif_report_error. by destruct (error_callback ctx). Qed.

Lemma frame_rect_read_byte ctx : frame_rect (gif_read_byte_internal ctx).2 = frame_rect ctx.
Proof.
  unfold gif_read_byte_internal. destruct (_ <? _); cbn [snd]; [done |].
  apply frame_rect_report.
Qed.

Lemma frame_rect_read_bytes ctx len :
  frame_rect (gif_read_bytes_internal ctx len).2 = frame_rect ctx.
Proof. unfold gif_read_bytes_internal. by destruct (_ >? 0). Qed.

Lemma frame_inside_canvas_decode c fuel ctx fb r ctx' fb' :
  gif_decode_lzw c fuel ctx fb = Some (r, ctx', fb') ->
  frame_inside_canvas ctx -> frame_inside_canvas ctx'.
Proof.
  apply (gif_decode_lzw_preserves frame_inside_canvas).
  - intros x. apply frame_inside_canvas_other_fields, frame_rect_read_byte.
  - intros x len. apply frame_inside_canvas_other_fields, frame_rect_read_bytes.
  - intros x e m. apply frame_inside_canvas_other_fields, frame_rect_report.
  - intros v x. by apply frame_inside_canvas_other_fields.
  - intros v x. by apply frame_inside_canvas_other_fields.
  - intros v x. by apply frame_inside_canvas_other_fields.
  - intros v x. by apply frame_inside_canvas_other_fields.
  - intros v x. by apply frame_inside_canvas_other_fields.
  - intros v x. by apply frame_inside_canvas_other_fields.
  - intros v x. by apply frame_inside_canvas_other_fields.
Qed.

Lemma scan_return_values fuel : forall ctx ret ctx',
  gif_next_frame_scan fuel ctx = Some (scan_return ret ctx') -> ret = 0 \/ ret = -1.
Proof.
  induction fuel as [| fuel IH]; intros ctx ret ctx' H; [done |].
  cbn [gif_next_frame_scan] in H.
  destruct (current_pos ctx <? gif_size ctx); [| done].
  destruct (gif_read_byte_internal ctx) as [b ctx1].
  destruct (b =? 59).
  { destruct (gif_loop_again ctx1); [by eapply IH |]. inversion H; subst. by left. }
  destruct (b =? 33).
  { destruct (gif_read_ext fuel ctx1) as [ctx2 |]; cbn [mbind option_bind] in H; [| done].
    by eapply IH. }
  destruct (b =? 44); [done |]. inversion H; subst. by right.
Qed.

Lemma image_outcomes c fuel ctx fb d ret ctx' fb' d' :
  gif_next_frame_image c fuel ctx fb d = Some (ret, ctx', fb', d') ->
  (ret = 1 /\ d' = frame_delay_ms ctx' /\ frame_inside_canvas ctx')
  \/ (ret = 0 /\ fb' = fb /\ d' = d)
  \/ (ret = -1 /\ d' = d).
Proof.
  intros H. cbv beta delta [gif_next_frame_image] in H.
  destruct (gif_size ctx <=? current_pos ctx); [inversion H; subst; auto |].
  name_let H c1. clearbody c1. name_let H c2. clearbody c2.
  name_let H c3. clearbody c3. name_let H c4. clearbody c4.
  name_let H c5. clearbody c5. name_let H c6. clearbody c6.
  name_let H c7. clearbody c7. name_let H c8. clearbody c8.
  clear c1 c2 c3 c4 c5 c6 c7.
  destruct ((frame_width c8 =? 0) || (frame_height c8 =? 0)) eqn:E1;
    [inversion H; subst; auto |].
  destruct (_ || _) eqn:E2 in H; [inversion H; subst; auto |].
  assert (frame_inside_canvas c8) as HV.
  { apply orb_false_iff in E1 as [E1a E1b]. apply orb_false_iff in E2 as [E2a E2b].
    unfold frame_inside_canvas. lia. }
  clear E1 E2.
  pose proof (frame_rect_read_byte c8) as Hb.
  destruct (gif_read_byte_internal c8) as [fisrz c9]; cbn [snd] in Hb.
  name_let H c10.
  assert (frame_inside_canvas c10) as H10.
  { subst c10. apply (frame_inside_canvas_other_fields c8); [| done].
    by rewrite <- Hb. }
  clearbody c10. clear Hb HV c8 c9. cbv zeta in H.
  destruct (_ && _); [inversion H; subst; auto |].
  match type of H with context [if ?b then gif_read_bytes_internal ?x ?n else ?e] =>
    assert (frame_inside_canvas (if b then gif_read_bytes_internal x n else e).2) as H11
      by (destruct b; [| done];
          apply (frame_inside_canvas_other_fields c10); [| done];
          apply frame_rect_read_bytes);
    destruct (if b then gif_read_bytes_internal x n else e) as [[n' bytes] c11] end.
  cbn [snd] in H11.
  destruct (_ <? _); [inversion H; subst; auto |].
  match type of H with context [gif_read_byte_internal ?x] =>
    assert (frame_inside_canvas x) as H12
      by (apply (frame_inside_canvas_other_fields c11); done);
    pose proof (frame_rect_read_byte x) as H13;
    destruct (gif_read_byte_internal x) as [ss c13] end.
  cbn [snd] in H13.
  destruct (gif_decode_lzw _ _ _ _) as [[[r c14] fb14] |] eqn:E;
    cbn [mbind option_bind] in H; [| done].
  apply frame_inside_canvas_decode in E.
  - destruct (negb _); inversion H; subst; auto.
  - apply (frame_inside_canvas_other_fields c13); [done |].
    by apply (frame_inside_canvas_other_fields _ _ H13).
Qed.

Lemma next_frame_outcomes_not_null c_indet fuel ctx fb d ret ctx' fb' d' :
  gif_next_frame c_indet fuel ctx fb d = Some (ret, ctx', fb', d') ->
  (ret = 1 /\ d' = frame_delay_ms ctx' /\ frame_inside_canvas ctx')
  \/ (ret = 0 /\ fb' = fb /\ d' = d)
  \/ (ret = -1 /\ d' = d).
Proof.
  unfold gif_next_frame. intros H.
  assert (exists ctx1,
    (ret = 0 /\ fb' = fb /\ d' = d) \/
    (r ← gif_next_frame_scan fuel ctx1;
     match r with
     | scan_return ret ctx => Some (ret, ctx, fb, d)
     | scan_done ctx => gif_next_frame_image c_indet fuel ctx fb d
     end) = Some (ret, ctx', fb', d')) as (ctx1 & [H0 | H1]); [| by auto |].
  { destruct (gif_size ctx <=? current_pos ctx); [| eauto].
    destruct (gif_loop_again ctx) as [ctx1 |]; [eauto |].
    exists ctx. left. by inversion H; subst. }
  destruct (gif_next_frame_scan fuel ctx1) as [r |] eqn:E;
    cbn [mbind option_bind] in H1; [| done].
  destruct r as [ret1 ctx2 | ctx2].
  - apply scan_return_values in E. inversion H1; subst.
    destruct E as [-> | ->]; auto.
  - by eapply image_outcomes.
Qed.



(** ** Rejected streams *)

Lemma next_frame_at_descriptor c fuel ctx fb d :
  current_pos ctx < gif_size ctx -> rd (gif_data ctx) (current_pos ctx) = 44 ->
  gif_next_frame c (S fuel) ctx fb d
  = gif_next_frame_image c (S fuel) (set_current_pos (current_pos ctx + 1) ctx) fb d.
Proof.
  intros Hp Hb. unfold gif_next_frame.
  destruct (Z.leb_spec (gif_size ctx) (current_pos ctx)); [lia |].
  cbn [gif_next_frame_scan].
  destruct (Z.ltb_spec (current_pos ctx) (gif_size ctx)); [| lia].
  rewrite read_byte_inside by done. rewrite Hb. done.
Qed.

Ltac descriptor_steps :=
  unfold gif_next_frame_image;
  match goal with
  | |- context [gif_size ?c <=? current_pos ?c] =>
      destruct (Z.leb_spec (gif_size c) (current_pos c)); [lia |]
  end;
  rewrite (skip_inside (set_frame_x_off _ _)) by (cbn; lia);
  cbn [current_pos gif_data set_frame_x_off set_current_pos];
  rewrite (skip_inside (set_frame_y_off _ _)) by (cbn; lia);
  cbn [current_pos gif_data set_frame_x_off set_frame_y_off set_current_pos];
  rewrite (skip_inside (set_frame_width _ _)) by (cbn; lia);
  cbn [current_pos gif_data set_frame_x_off set_frame_y_off set_frame_width
       set_current_pos];
  rewrite (skip_inside (set_frame_height _ _)) by (cbn; lia);
  cbn [current_pos gif_data set_frame_x_off set_frame_y_off set_frame_width
       set_frame_height set_current_pos frame_width frame_height frame_x_off
       frame_y_off canvas_width canvas_height];
  repeat match goal with
  | |- context [?p + 2 + 2] => replace (p + 2 + 2) with (p + 4) by lia
  | |- context [?p + 4 + 2] => replace (p + 4 + 2) with (p + 6) by lia
  | |- context [?p + 6 + 2] => replace (p + 6 + 2) with (p + 8) by lia
  end.

Lemma descriptor_context ctx x y w h p2 p4 p6 p8 :
  set_current_pos p8 (set_frame_height h (set_current_pos p6 (set_frame_width w
    (set_current_pos p4 (set_frame_y_off y (set_current_pos p2
      (set_frame_x_off x ctx)))))))
  = set_current_pos p8
      (set_frame_height h (set_frame_width w (set_frame_y_off y (set_frame_x_off x ctx)))).
Proof. destruct ctx; reflexivity. Qed.

Ltac same_report ctx :=
  rewrite descriptor_context;
  repeat match goal with
  | |- context [?p + 4 + 4] => replace (p + 4 + 4) with (p + 8) by lia
  end;
  reflexivity.

Lemma image_descriptor_read c fuel ctx fb d :
  0 <= current_pos ctx -> current_pos ctx + 8 <= gif_size ctx ->
  gif_size ctx < 18446744073709551616 ->
  let data := gif_data ctx in
  let pos := current_pos ctx in
  let x := gif_read_u16_le data pos in
  let y := gif_read_u16_le data (pos + 2) in
  let w := gif_read_u16_le data (pos + 4) in
  let h := gif_read_u16_le data (pos + 6) in
  let ctx8 :=
    set_current_pos (pos + 8)
      (set_frame_height h (set_frame_width w (set_frame_y_off y (set_frame_x_off x ctx)))) in
  (w = 0 \/ h = 0 ->
   gif_next_frame_image c fuel ctx fb d
   = Some (-1, gif_report_error ctx8 GIF_ERROR_INVALID_FRAME_DIMENSIONS
                 "Frame has zero width or height.", fb, d))
  /\ (w <> 0 -> h <> 0 -> canvas_width ctx < x + w \/ canvas_height ctx < y + h ->
      gif_next_frame_image c fuel ctx fb d
      = Some (-1, gif_report_error ctx8 GIF_ERROR_INVALID_FRAME_DIMENSIONS
                    "Frame extends beyond canvas boundaries.", fb, d)).
Proof.
  intros Hp Hl Hs. cbv zeta. split.
  - intros Hz. descriptor_steps.
    match goal with
    | |- context [(?w =? 0) || (?h =? 0)] =>
        destruct (Z.eqb_spec w 0); [| destruct (Z.eqb_spec h 0); [| lia]]
    end; cbn [orb]; rewrite ?orb_true_r; same_report ctx.
  - intros Hw Hh Hc. descriptor_steps.
    match goal with
    | |- context [(?w =? 0) || (?h =? 0)] =>
        destruct (Z.eqb_spec w 0); [done |]; destruct (Z.eqb_spec h 0); [done |]
    end.
    cbn [orb].
    match goal with
    | |- context [(?a >? ?b) || (?c >? ?d)] =>
        destruct (Z.gtb_spec a b); [| destruct (Z.gtb_spec c d); [| lia]]
    end; cbn [orb]; rewrite ?orb_true_r; same_report ctx.
Qed.

Lemma descriptor_context_start ctx x y w h p q :
  set_current_pos p (set_frame_height h (set_frame_width w (set_frame_y_off y
    (set_frame_x_off x (set_current_pos q ctx)))))
  = set_current_pos p
      (set_frame_height h (set_frame_width w (set_frame_y_off y (set_frame_x_off x ctx)))).
Proof. destruct ctx; reflexivity. Qed.

Ltac descriptor_offsets H :=
  repeat match type of H with
  | context [?p + 1 + 2] => replace (p + 1 + 2) with (p + 3) in H by lia
  | context [?p + 1 + 4] => replace (p + 1 + 4) with (p + 5) in H by lia
  | context [?p + 1 + 6] => replace (p + 1 + 6) with (p + 7) in H by lia
  | context [?p + 1 + 8] => replace (p + 1 + 8) with (p + 9) in H by lia
  end.

(** X10.  What [gif_next_frame] rejects with -1, leaving the canvas and
    [*delay_ms] alone: a byte that is neither trailer, extension introducer
    nor image separator ([GIF_ERROR_BAD_FILE]); an image descriptor with
    zero width or height; and an image descriptor whose rectangle passes
    the right or bottom edge of the canvas (both
    [GIF_ERROR_INVALID_FRAME_DIMENSIONS]).  The frame fields of the context
    keep the rejected rectangle. *)
Theorem next_frame_rejects c_indet fuel ctx fb d :
  0 <= current_pos ctx < gif_size ctx -> gif_size ctx < 18446744073709551616 ->
  let data := gif_data ctx in
  let pos := current_pos ctx in
  let x := gif_read_u16_le data (pos + 1) in
  let y := gif_read_u16_le data (pos + 3) in
  let w := gif_read_u16_le data (pos + 5) in
  let h := gif_read_u16_le data (pos + 7) in
  let ctx9 :=
    set_current_pos (pos + 9)
      (set_frame_height h (set_frame_width w (set_frame_y_off y (set_frame_x_off x ctx)))) in
  (rd data pos <> 59 -> rd data pos <> 33 -> rd data pos <> 44 ->
   gif_next_frame c_indet (S fuel) ctx fb d
   = Some (-1, gif_report_error (set_current_pos (pos + 1) ctx) GIF_ERROR_BAD_FILE
                 "Unexpected byte in GIF stream.", fb, d))
  /\ (rd data pos = 44 -> pos + 9 <= gif_size ctx -> w = 0 \/ h = 0 ->
      gif_next_frame c_indet (S fuel) ctx fb d
      = Some (-1, gif_report_error ctx9 GIF_ERROR_INVALID_FRAME_DIMENSIONS
                    "Frame has zero width or height.", fb, d))
  /\ (rd data pos = 44 -> pos + 9 <= gif_size ctx -> w <> 0 -> h <> 0 ->
      canvas_width ctx < x + w \/ canvas_height ctx < y + h ->
      gif_next_frame c_indet (S fuel) ctx fb d
      = Some (-1, gif_report_error ctx9 GIF_ERROR_INVALID_FRAME_DIMENSIONS
                    "Frame extends beyond canvas boundaries.", fb, d)).
Proof.
  intros Hp Hs. cbv zeta. split; [| split].
  - intros H1 H2 H3. unfold gif_next_frame.
    destruct (Z.leb_spec (gif_size ctx) (current_pos ctx)); [lia |].
    cbn [gif_next_frame_scan].
    destruct (Z.ltb_spec (current_pos ctx) (gif_size ctx)); [| lia].
    rewrite read_byte_inside by lia.
    destruct (Z.eqb_spec (rd (gif_data ctx) (current_pos ctx)) 59); [done |].
    destruct (Z.eqb_spec (rd (gif_data ctx) (current_pos ctx)) 33); [done |].
    destruct (Z.eqb_spec (rd (gif_data ctx) (current_pos ctx)) 44); [done |].
    reflexivity.
  - intros Hb Hl Hz. rewrite next_frame_at_descriptor by (done || lia).
    destruct (image_descriptor_read c_indet (S fuel)
                (set_current_pos (current_pos ctx + 1) ctx) fb d) as [H1 _];
      [cbn; lia .. |].
    cbn [current_pos gif_data set_current_pos canvas_width canvas_height] in H1.
    descriptor_offsets H1. rewrite (H1 Hz), descriptor_context_start. reflexivity.
  - intros Hb Hl Hw Hh Hc. rewrite next_frame_at_descriptor by (done || lia).
    destruct (image_descriptor_read c_indet (S fuel)
                (set_current_pos (current_pos ctx + 1) ctx) fb d) as [_ H1];
      [cbn; lia .. |].
    cbn [current_pos gif_data set_current_pos canvas_width canvas_height] in H1.
    descriptor_offsets H1. rewrite (H1 Hw Hh Hc), descriptor_context_start.
    reflexivity.
Qed.

Lemma next_frame_rejects_witness :
  call_ret (gif_next_frame 0 1 (open_gif gif_stray) [] 7) = Some (-1)
  /\ call_ret (gif_next_frame 0 1 (open_gif gif_zero_width) [] 7) = Some (-1)
  /\ call_ret (gif_next_frame 0 1 (open_gif gif_oversize) [] 7) = Some (-1).
Proof.
  split; [| split].
  - destruct (next_frame_rejects 0 0 (open_gif gif_stray) [] 7) as (H & _ & _);
      [vm_compute; split; [discriminate | reflexivity] | vm_compute; reflexivity |].
    rewrite H; [reflexivity | vm_compute; discriminate ..].
  - destruct (next_frame_rejects 0 0 (open_gif gif_zero_width) [] 7) as (_ & H & _);
      [vm_compute; split; [discriminate | reflexivity] | vm_compute; reflexivity |].
    rewrite H; [reflexivity | vm_compute; reflexivity | vm_compute; discriminate
               | left; vm_compute; reflexivity].
  - destruct (next_frame_rejects 0 0 (open_gif gif_oversize) [] 7) as (_ & _ & H);
      [vm_compute; split; [discriminate | reflexivity] | vm_compute; reflexivity |].
    rewrite H; [reflexivity | vm_compute; reflexivity | vm_compute; discriminate
               | vm_compute; discriminate | vm_compute; discriminate
               | left; vm_compute; reflexivity].
Defined.

(** ** Return codes of the decoder *)

Lemma code_width_ok_other_fields st st' :
  codesize st' = codesize st -> nextlim st' = nextlim st -> sMask st' = sMask st ->
  code_width_ok st -> code_width_ok st'.
Proof. unfold code_width_ok. intros -> -> ->. done. Qed.

Lemma extract_code_bit_field st :
  code_width_ok st ->
  code (lzw_extract_code st) = Z.shiftr (ulBits st) (bitnum st) mod 2 ^ codesize st
  /\ bitnum (lzw_extract_code st) = bitnum st + codesize st.
Proof.
  intros (Hc & _ & Hm). unfold lzw_extract_code. cbn. split; [| done].
  rewrite Hm. change (2 ^ codesize st - 1) with (Z.pred (2 ^ codesize st)).
  rewrite <- Z.ones_equiv, Z.land_ones by lia.
  unfold u16. apply Z.mod_small.
  pose proof (Z.mod_pos_bound (Z.shiftr (ulBits st) (bitnum st)) (2 ^ codesize st)
                ltac:(lia)) as Hb.
  assert (2 ^ codesize st <= 2 ^ 12) by (apply Z.pow_le_mono_r; unfold GIF_MAX_CODE_SIZE in Hc; lia).
  lia.
Qed.

Lemma extract_code_width st :
  code_width_ok st ->
  code_width_ok (lzw_extract_code st) /\ 0 <= code (lzw_extract_code st) < 4096.
Proof.
  intros Hw. destruct (extract_code_bit_field st Hw) as [Hc _]. split.
  - by apply (code_width_ok_other_fields st).
  - rewrite Hc. destruct Hw as (Hs & _ & _). unfold GIF_MAX_CODE_SIZE in Hs.
    pose proof (Z.mod_pos_bound (Z.shiftr (ulBits st) (bitnum st)) (2 ^ codesize st)
                  ltac:(lia)) as Hb.
    assert (2 ^ codesize st <= 2 ^ 12) by (apply Z.pow_le_mono_r; lia).
    lia.
Qed.

Lemma GET_LZW_CODE_width c fuel eoi ctx st ctx' st' :
  0 <= eoi < 4096 -> code_width_ok st ->
  GET_LZW_CODE c fuel eoi ctx st = Some (ctx', st') ->
  code_width_ok st' /\ 0 <= code st' < 4096.
Proof.
  unfold GET_LZW_CODE. intros He Hw H.
  destruct (_ >? _) in H.
  - destruct (gif_get_more_lzw_data _ _ _) as [[more ctx1] |];
      cbn [mbind option_bind] in H; [| done].
    destruct (more =? 0); inversion H; subst.
    + split; [by apply (code_width_ok_other_fields st) | done].
    + apply extract_code_width. by apply (code_width_ok_other_fields st).
  - inversion H; subst. by apply extract_code_width.
Qed.

Lemma init_codetable_safe_width c fuel clear eoi ctx st r :
  0 <= lzw_code_start_size ctx <= 11 -> 0 <= eoi < 4096 ->
  init_codetable_safe c fuel clear eoi ctx st = Some r ->
  exists ctx' st', r = lzw_init_ok ctx' st' /\ code_width_ok st'.
Proof.
  intros Hs He H. cbv beta delta [init_codetable_safe] in H.
  name_let H s1. name_let H s2. name_let H s3. name_let H s4. name_let H s5.
  name_let H c1.
  assert (code_width_ok s5) as Hw.
  { assert (u16 (lzw_code_start_size ctx + 1) = lzw_code_start_size ctx + 1) as Hc
        by (unfold u16; apply Z.mod_small; lia).
    assert (2 ^ 1 <= 2 ^ (lzw_code_start_size ctx + 1) <= 2 ^ 12) as Hp
        by (split; apply Z.pow_le_mono_r; lia).
    unfold code_width_ok, GIF_MAX_CODE_SIZE. subst s5 s4 s3 s2 s1. cbn.
    rewrite Hc, Z.shiftl_1_l. split; [lia |]. split.
    - unfold u16. apply Z.mod_small. lia.
    - unfold u32. apply Z.mod_small. lia. }
  clearbody s5 c1. clear s1 s2 s3 s4.
  destruct (GET_LZW_CODE c fuel eoi c1 s5) as [[c2 s6] |] eqn:E1;
    cbn [mbind option_bind] in H; [| done].
  apply GET_LZW_CODE_width in E1 as [Hw6 Hc6]; [| done ..].
  assert (exists c3 s7,
    (if GIF_LZW_TABLE_ENTRIES <=? code s7
     then Some (lzw_init_invalid
                  (gif_report_error c3 GIF_ERROR_DECODE
                     "Invalid initial LZW code in Safe mode."))
     else
       let st := set_oldcode (code s7) s7 in
       let st := set_c (u8 (oldcode st)) st in
       let pixels := lzw_expand (Z.to_nat GIF_MAX_WIDTH) c3 (code s7) [] in
       let ctx := set_scratch_line_buffer (wr_seq (scratch_line_buffer c3) 0 pixels) c3 in
       let st := set_current_pixel_idx (current_pixel_idx st + Z.of_nat (length pixels)) st in
       Some (lzw_init_ok ctx st)) = Some r
    /\ code_width_ok s7 /\ 0 <= code s7 < 4096) as (c3 & s7 & H7 & Hw7 & Hc7).
  { destruct (code s6 =? clear).
    - destruct (GET_LZW_CODE c fuel eoi c2 s6) as [[c3 s7] |] eqn:E2;
        cbn [mbind option_bind] in H; [| done].
      apply GET_LZW_CODE_width in E2 as [Hw7 Hc7]; [| done ..].
      exists c3, s7. done.
    - cbn [mbind option_bind] in H. exists c2, s6. done. }
  clear H. change GIF_LZW_TABLE_ENTRIES with 4096 in H7.
  destruct (Z.leb_spec 4096 (code s7)); [lia |].
  cbv zeta in H7. inversion H7; subst. eexists _, _. split; [reflexivity |].
  by apply (code_width_ok_other_fields s7).
Qed.

Lemma lzw_bump_width st : code_width_ok st -> code_width_ok (lzw_bump st).
Proof.
  intros (Hs & Hl & Hm). unfold lzw_bump, GIF_MAX_CODE_SIZE in *. cbn.
  destruct (Z.leb_spec (nextlim st) (u16 (nextcode st + 1))); cbn [andb];
    [| by split].
  destruct (Z.ltb_spec (codesize st) 12); [| by split].
  unfold code_width_ok, GIF_MAX_CODE_SIZE. cbn.
  assert (2 ^ (codesize st + 1) <= 2 ^ 12) by (apply Z.pow_le_mono_r; lia).
  assert (0 < 2 ^ (codesize st + 1)) by (apply Z.pow_pos_nonneg; lia).
  assert (u16 (nextlim st ≪ 1) = 2 ^ (codesize st + 1)) as Hn.
  { rewrite Hl, Z.shiftl_mul_pow2, <- Z.pow_add_r by lia.
    unfold u16. apply Z.mod_small. lia. }
  rewrite Hn. split; [lia |]. split; [done |].
  unfold u32. apply Z.mod_small. lia.
Qed.

Lemma flush_line_plain ctx fb st :
  Z.land (ucGIFBits ctx) 64 = 0 ->
  exists fb' st', lzw_flush_line ctx fb st = flush_ok fb' st'
    /\ codesize st' = codesize st /\ nextlim st' = nextlim st /\ sMask st' = sMask st.
Proof.
  intros Hi. unfold lzw_flush_line. rewrite Hi. cbn [Z.eqb negb].
  eexists _, _. split; [reflexivity |]. done.
Qed.

Lemma flush_line_width ctx fb st fb' st' :
  lzw_flush_line ctx fb st = flush_ok fb' st' ->
  codesize st' = codesize st /\ nextlim st' = nextlim st /\ sMask st' = sMask st.
Proof.
  unfold lzw_flush_line. intros H. destruct (negb _).
  - destruct (interlaced_row _ _ _) as [[pass line] y]. destruct (_ <=? _); [done |].
    by inversion H; subst.
  - by inversion H; subst.
Qed.

Lemma process_code_width ctx fb st :
  code_width_ok st ->
  match lzw_process_code ctx fb st with
  | lzw_step_ok _ _ st' => code_width_ok st'
  | lzw_step_error err _ => err = GIF_ERROR_DECODE /\ Z.land (ucGIFBits ctx) 64 <> 0
  end.
Proof.
  intros Hw. unfold lzw_process_code.
  destruct (lzw_emit ctx st) as [c1 s1] eqn:E1.
  assert (code_width_ok s1 /\ ucGIFBits c1 = ucGIFBits ctx) as [Hw1 Hg1].
  { unfold lzw_emit in E1. inversion E1; subst. split; [| done].
    by apply (code_width_ok_other_fields st). }
  destruct (lzw_add_entry c1 s1) as [c2 s2] eqn:E2.
  assert (code_width_ok s2 /\ ucGIFBits c2 = ucGIFBits ctx) as [Hw2 Hg2].
  { unfold lzw_add_entry in E2. destruct (_ <? _); inversion E2; subst; [| done].
    split; [| done]. by apply (code_width_ok_other_fields s1). }
  apply lzw_bump_width in Hw2.
  destruct (_ <=? _).
  - destruct (lzw_flush_line c2 fb (lzw_bump s2)) as [fb3 s3 |] eqn:E3.
    + apply flush_line_width in E3 as (H1 & H2 & H3).
      apply (code_width_ok_other_fields (lzw_bump s2)); done.
    + split; [done |]. intros Hi. rewrite <- Hg2 in Hi.
      destruct (flush_line_plain c2 fb (lzw_bump s2) Hi) as (? & ? & ? & _). congruence.
  - by apply (code_width_ok_other_fields (lzw_bump s2)).
Qed.

Lemma decoder_inputs_eq x y :
  decoder_inputs x = decoder_inputs y ->
  lzw_code_start_size x = lzw_code_start_size y /\ ucGIFBits x = ucGIFBits y.
Proof. unfold decoder_inputs. intros H. by inversion H. Qed.

Lemma decoder_inputs_stable c fuel clear eoi :
  (forall ctx st ctx' st',
     GET_LZW_CODE c fuel eoi ctx st = Some (ctx', st') ->
     decoder_inputs ctx' = decoder_inputs ctx)
  /\ (forall ctx st r,
        init_codetable_safe c fuel clear eoi ctx st = Some r ->
        match r with
        | lzw_init_ok ctx' _ => decoder_inputs ctx' = decoder_inputs ctx
        | lzw_init_invalid ctx' => decoder_inputs ctx' = decoder_inputs ctx
        end)
  /\ (forall ctx fb st,
        match lzw_process_code ctx fb st with
        | lzw_step_ok ctx' _ _ => decoder_inputs ctx' = decoder_inputs ctx
        | lzw_step_error _ ctx' => decoder_inputs ctx' = decoder_inputs ctx
        end).
Proof.
  assert (forall x : GIF_Context,
    (forall y, decoder_inputs y = decoder_inputs x ->
       decoder_inputs (gif_read_byte_internal y).2 = decoder_inputs x)
    /\ (forall y len, decoder_inputs y = decoder_inputs x ->
          decoder_inputs (gif_read_bytes_internal y len).2 = decoder_inputs x)
    /\ (forall y e m, decoder_inputs y = decoder_inputs x ->
          decoder_inputs (gif_report_error y e m) = decoder_inputs x)) as Hst.
  { intros x.
    assert (forall y e m, decoder_inputs (gif_report_error y e m) = decoder_inputs y) as Hr.
    { intros y e m. unfold gif_report_error. by destruct (error_callback y). }
    split; [| split].
    - intros y <-. unfold gif_read_byte_internal. destruct (_ <? _); cbn [snd]; [done |].
      apply Hr.
    - intros y len <-. unfold gif_read_bytes_internal. by destruct (_ >? 0).
    - intros y e m <-. apply Hr. }
  split; [| split].
  - intros ctx st ctx' st' H. destruct (Hst ctx) as (H1 & H2 & H3).
    apply (GET_LZW_CODE_preserves (fun x => decoder_inputs x = decoder_inputs ctx)) in H;
      try done; try (intros; assumption).
  - intros ctx st r H. destruct (Hst ctx) as (H1 & H2 & H3).
    apply (init_codetable_safe_preserves
             (fun x => decoder_inputs x = decoder_inputs ctx)) in H;
      try done; try (intros; assumption).
  - intros ctx fb st. destruct (Hst ctx) as (H1 & H2 & H3).
    apply (lzw_process_code_preserves (fun x => decoder_inputs x = decoder_inputs ctx));
      try done; try (intros; assumption).
Qed.

Lemma decode_loop_return_codes c fuel clear eoi : forall ctx fb st r ctx' fb',
  0 <= lzw_code_start_size ctx <= 11 -> 0 <= eoi < 4096 -> code_width_ok st ->
  lzw_decode_loop c fuel clear eoi ctx fb st = Some (r, ctx', fb') ->
  r = GIF_SUCCESS \/ (r = GIF_ERROR_DECODE /\ Z.land (ucGIFBits ctx) 64 <> 0).
Proof.
  induction fuel as [| fuel IH]; intros ctx fb st r ctx' fb' Hs He Hw H;
    cbn [lzw_decode_loop] in H; [done |].
  destruct (decoder_inputs_stable c fuel clear eoi) as (Hg & Hi & Hp).
  destruct (code st =? eoi); [inversion H; subst; by left |].
  destruct (GET_LZW_CODE _ _ _ _ _) as [[ctx1 st1] |] eqn:E1;
    cbn [mbind option_bind] in H; [| done].
  pose proof (Hg _ _ _ _ E1) as Hd1. apply decoder_inputs_eq in Hd1 as [Hd1a Hd1b].
  apply GET_LZW_CODE_width in E1 as [Hw1 Hc1]; [| done ..].
  destruct (code st1 =? clear).
  - destruct (init_codetable_safe _ _ _ _ _ _) as [r1 |] eqn:E2;
      cbn [mbind option_bind] in H; [| done].
    pose proof (Hi _ _ _ E2) as Hd2.
    apply init_codetable_safe_width in E2 as (c2 & s2 & -> & Hw2); [| lia | done].
    apply decoder_inputs_eq in Hd2 as [Hd2a Hd2b].
    apply IH in H; [| lia | done ..]. rewrite Hd2b, Hd1b in H. done.
  - destruct (negb _).
    + pose proof (Hp ctx1 fb st1) as Hd2.
      pose proof (process_code_width ctx1 fb st1 Hw1) as Hw2.
      destruct (lzw_process_code ctx1 fb st1) as [c2 fb2 s2 | err c2].
      * apply decoder_inputs_eq in Hd2 as [Hd2a Hd2b].
        apply IH in H; [| lia | done ..]. rewrite Hd2b, Hd1b in H. done.
      * inversion H; subst. right. rewrite <- Hd1b. done.
    + apply IH in H; [| lia | done ..]. rewrite Hd1b in H. done.
Qed.

(** X11.  With a minimum code size of at most 11, [gif_decode_lzw] returns
    [GIF_SUCCESS], [GIF_ERROR_EARLY_EOF] (no first sub-block), or
    [GIF_ERROR_DECODE]; the last only for an interlaced frame.  So no LZW
    data of a frame that is not interlaced is ever rejected as corrupt. *)
Theorem decode_lzw_return_codes c_indet fuel ctx fb r ctx' fb' :
  0 <= lzw_code_start_size ctx <= 11 ->
  gif_decode_lzw c_indet fuel ctx fb = Some (r, ctx', fb') ->
  r = GIF_SUCCESS \/ r = GIF_ERROR_EARLY_EOF
  \/ (r = GIF_ERROR_DECODE /\ Z.land (ucGIFBits ctx) 64 <> 0).
Proof.
  intros Hs H. cbv beta delta [gif_decode_lzw] in H.
  name_let H c1. name_let H c2. name_let H c3.
  assert (decoder_inputs c3 = decoder_inputs ctx) as Hd3 by (by subst c3 c2 c1).
  clearbody c3. clear c1 c2.
  destruct (gif_get_more_lzw_data _ _ _) as [[more c4] |] eqn:E;
    cbn [mbind option_bind] in H; [| done].
  assert (decoder_inputs c4 = decoder_inputs ctx) as Hd4.
  { apply (get_more_lzw_data_preserves (fun x => decoder_inputs x = decoder_inputs ctx))
      in E; try done; try (intros; assumption).
    - intros y <-. unfold gif_read_byte_internal. destruct (_ <? _); cbn [snd]; [done |].
      unfold gif_report_error. by destruct (error_callback y).
    - intros y len <-. unfold gif_read_bytes_internal. by destruct (_ >? 0).
    - intros y e m <-. unfold gif_report_error. by destruct (error_callback y). }
  clear E Hd3.
  destruct (more =? 0); [inversion H; subst; auto |].
  cbv zeta in H.
  destruct (decoder_inputs_stable c_indet fuel
              (u16 (1 ≪ lzw_code_start_size c4))
              (u16 (u16 (1 ≪ lzw_code_start_size c4) + 1))) as (_ & Hi & _).
  apply decoder_inputs_eq in Hd4 as [Hd4a Hd4b].
  assert (0 <= u16 (u16 (1 ≪ lzw_code_start_size c4) + 1) < 4096) as He.
  { rewrite Hd4a, Z.shiftl_1_l.
    assert (2 ^ 0 <= 2 ^ lzw_code_start_size ctx <= 2 ^ 11) as Hp
        by (split; apply Z.pow_le_mono_r; lia).
    unfold u16. rewrite (Z.mod_small (2 ^ _)) by lia. rewrite Z.mod_small by lia. lia. }
  destruct (init_codetable_safe _ _ _ _ _ _) as [r1 |] eqn:E2;
    cbn [mbind option_bind] in H; [| done].
  pose proof (Hi _ _ _ E2) as Hd5.
  assert (decoder_inputs (lzw_init_entries (u16 (1 ≪ lzw_code_start_size c4)) c4)
          = decoder_inputs c4) as Hd6.
  { apply (lzw_init_entries_preserves (fun x => decoder_inputs x = decoder_inputs c4));
      try done; intros; assumption. }
  apply init_codetable_safe_width in E2 as (c5 & s5 & -> & Hw5); [| | done].
  2: { apply decoder_inputs_eq in Hd6 as [Hd6a Hd6b]. lia. }
  rewrite Hd6 in Hd5. apply decoder_inputs_eq in Hd5 as [Hd5a Hd5b].
  apply decode_loop_return_codes in H; [| lia | done ..].
  rewrite Hd5b, Hd4b in H. destruct H as [-> | H]; auto.
Qed.

Lemma decode_lzw_return_codes_witness :
  let ctx := set_lzw_code_start_size 2 (set_current_pos 31 (open_gif gif_bad_code)) in
  exists r ctx' fb',
    gif_decode_lzw 0 100 ctx (replicate 6 170) = Some (r, ctx', fb')
    /\ (r = GIF_SUCCESS \/ r = GIF_ERROR_EARLY_EOF
        \/ (r = GIF_ERROR_DECODE /\ Z.land (ucGIFBits ctx) 64 <> 0)).
Proof.
  intros ctx.
  assert (match gif_decode_lzw 0 100 ctx (replicate 6 170) with
          | Some _ => true
          | None => false
          end = true) as Hr by (vm_compute; reflexivity).
  destruct (gif_decode_lzw 0 100 ctx (replicate 6 170)) as [[[r ctx'] fb'] |] eqn:E;
    [| discriminate Hr].
  exists r, ctx', fb'. split; [reflexivity |].
  apply (decode_lzw_return_codes 0 100 ctx (replicate 6 170) r ctx' fb');
    [vm_compute; split; discriminate | exact E].
Defined.

(** ** Failures are reported *)

Ltac in_list :=
  repeat first [by apply list_elem_of_here | apply list_elem_of_further].

Lemma history_other_fields calls ctx ctx' :
  error_callback ctx' = error_callback ctx -> callback_calls ctx' = callback_calls ctx ->
  callback_history calls ctx -> callback_history calls ctx'.
Proof. unfold callback_history. intros -> ->. done. Qed.

Lemma history_report calls ctx e m :
  callback_history calls ctx -> callback_history calls (gif_report_error ctx e m).
Proof.
  unfold callback_history, gif_report_error. intros [Hc Hp]. rewrite Hc. cbn.
  split; [done |]. by apply prefix_app_r.
Qed.

Lemma history_read_byte calls ctx :
  callback_history calls ctx -> callback_history calls (gif_read_byte_internal ctx).2.
Proof.
  intros H. unfold gif_read_byte_internal. destruct (_ <? _); cbn [snd].
  - by apply (history_other_fields calls ctx).
  - by apply history_report.
Qed.

Lemma history_read_bytes calls ctx len :
  callback_history calls ctx -> callback_history calls (gif_read_bytes_internal ctx len).2.
Proof.
  intros H. unfold gif_read_bytes_internal. destruct (_ >? 0); cbn [snd]; [| done].
  by apply (history_other_fields calls ctx).
Qed.

Lemma history_skip calls ctx len :
  callback_history calls ctx -> callback_history calls (gif_skip_bytes_internal ctx len).
Proof.
  intros H. unfold gif_skip_bytes_internal.
  destruct (_ <=? _); by apply (history_other_fields calls ctx).
Qed.

Lemma history_discard calls fuel : forall ctx ctx',
  gif_discard_sub_blocks fuel ctx = Some ctx' ->
  callback_history calls ctx -> callback_history calls ctx'.
Proof.
  induction fuel as [| fuel IH]; intros ctx ctx' H Hc; cbn [gif_discard_sub_blocks] in H;
    [done |].
  pose proof (history_read_byte calls ctx Hc) as Hb.
  destruct (gif_read_byte_internal ctx) as [b ctx1]; cbn [snd] in Hb.
  destruct (_ && _); [inversion H; subst; by apply history_report |].
  destruct (b =? 0); [inversion H; subst; by apply history_skip |].
  eapply IH; [exact H | by apply history_skip].
Qed.

Lemma history_gce calls ctx :
  callback_history calls ctx -> callback_history calls (gif_read_graphic_control_ext ctx).
Proof.
  unfold gif_read_graphic_control_ext. intros Hc.
  pose proof (history_read_byte calls _ (history_skip calls ctx 1 Hc)) as H1.
  destruct (gif_read_byte_internal (gif_skip_bytes_internal ctx 1)) as [rdit ctx1].
  cbn [snd] in H1.
  match goal with |- context [gif_read_byte_internal ?x] =>
    assert (callback_history calls x) as H2
      by (apply history_skip; by apply (history_other_fields calls ctx1));
    pose proof (history_read_byte calls _ H2) as H3;
    destruct (gif_read_byte_internal x) as [ti ctx2] end.
  cbn [snd] in H3. apply history_skip. by apply (history_other_fields calls ctx2).
Qed.

Lemma history_application_ext calls fuel ctx ctx' :
  gif_read_application_ext fuel ctx = Some ctx' ->
  callback_history calls ctx -> callback_history calls ctx'.
Proof.
  unfold gif_read_application_ext. intros H Hc.
  pose proof (history_read_byte calls ctx Hc) as Hb.
  destruct (gif_read_byte_internal ctx) as [b ctx1]; cbn [snd] in Hb.
  destruct (b =? 11); [| by eapply history_discard].
  pose proof (history_read_bytes calls ctx1 8 Hb) as H8.
  destruct (gif_read_bytes_internal ctx1 8) as [[n8 b8] ctx2]; cbn [snd] in H8.
  pose proof (history_read_bytes calls ctx2 3 H8) as H3.
  destruct (gif_read_bytes_internal ctx2 3) as [[n3 b3] ctx3]; cbn [snd] in H3.
  pose proof (history_read_byte calls ctx3 H3) as Hs.
  destruct (gif_read_byte_internal ctx3) as [sb ctx4]; cbn [snd] in Hs.
  destruct (negb _).
  - eapply history_discard; [exact H | by apply history_report].
  - eapply history_discard; [exact H |].
    apply history_skip.
    apply (history_other_fields calls (gif_skip_bytes_internal ctx4 1)); [done .. |].
    by apply history_skip.
Qed.

Lemma history_read_ext calls fuel ctx ctx' :
  gif_read_ext fuel ctx = Some ctx' ->
  callback_history calls ctx -> callback_history calls ctx'.
Proof.
  unfold gif_read_ext. intros H Hc.
  pose proof (history_read_byte calls ctx Hc) as Hb.
  destruct (gif_read_byte_internal ctx) as [b ctx1]; cbn [snd] in Hb.
  destruct (b =? 249); [inversion H; subst; by apply history_gce |].
  destruct (b =? 255); [by eapply history_application_ext |].
  eapply history_discard; [exact H | by apply history_report].
Qed.

Lemma history_loop_again calls ctx ctx' :
  gif_loop_again ctx = Some ctx' ->
  callback_history calls ctx -> callback_history calls ctx'.
Proof.
  unfold gif_loop_again. intros H Hc.
  destruct (_ || _); [| done]. inversion H; subst.
  apply (history_other_fields calls ctx); [| | done];
    unfold gif_rewind; by destruct (loop_count ctx >? 0).
Qed.

(** What a failed call leaves behind: a context whose last change is a
    report with one of [codes]. *)
Lemma scan_failure calls fuel : forall ctx r,
  gif_next_frame_scan fuel ctx = Some r -> callback_history calls ctx ->
  match r with
  | scan_return ret ctx' =>
      ret = -1 ->
      exists c m, ctx' = gif_report_error c GIF_ERROR_BAD_FILE m /\ callback_history calls c
  | scan_done ctx' => callback_history calls ctx'
  end.
Proof.
  induction fuel as [| fuel IH]; intros ctx r H Hc; cbn [gif_next_frame_scan] in H;
    [done |].
  destruct (current_pos ctx <? gif_size ctx); [| by inversion H; subst].
  pose proof (history_read_byte calls ctx Hc) as Hb.
  destruct (gif_read_byte_internal ctx) as [b ctx1]; cbn [snd] in Hb.
  destruct (b =? 59).
  { destruct (gif_loop_again ctx1) as [ctx2 |] eqn:E; [| by inversion H; subst].
    eapply IH; [exact H | by eapply history_loop_again]. }
  destruct (b =? 33).
  { destruct (gif_read_ext fuel ctx1) as [ctx2 |] eqn:E; cbn [mbind option_bind] in H;
      [| done].
    eapply IH; [exact H | by eapply history_read_ext]. }
  destruct (b =? 44); inversion H; subst; [done |]. intros _. eauto.
Qed.

Lemma process_code_error ctx fb st err ctx' :
  lzw_process_code ctx fb st = lzw_step_error err ctx' -> err = GIF_ERROR_DECODE.
Proof.
  unfold lzw_process_code. intros H.
  destruct (lzw_emit ctx st) as [c1 s1]. destruct (lzw_add_entry c1 s1) as [c2 s2].
  destruct (_ <=? _); [| done].
  destruct (lzw_flush_line _ _ _); [done |]. by inversion H.
Qed.

Lemma decode_loop_return_values c fuel clear eoi : forall ctx fb st r ctx' fb',
  lzw_decode_loop c fuel clear eoi ctx fb st = Some (r, ctx', fb') ->
  r = GIF_SUCCESS \/ r = GIF_ERROR_DECODE.
Proof.
  induction fuel as [| fuel IH]; intros ctx fb st r ctx' fb' H;
    cbn [lzw_decode_loop] in H; [done |].
  destruct (code st =? eoi); [inversion H; subst; by left |].
  destruct (GET_LZW_CODE _ _ _ _ _) as [[ctx1 st1] |];
    cbn [mbind option_bind] in H; [| done].
  destruct (code st1 =? clear).
  - destruct (init_codetable_safe _ _ _ _ _ _) as [r1 |];
      cbn [mbind option_bind] in H; [| done].
    destruct r1; [by eapply IH | inversion H; subst; by right].
  - destruct (negb _); [| by eapply IH].
    destruct (lzw_process_code ctx1 fb st1) eqn:E; [by eapply IH |].
    apply process_code_error in E. inversion H; subst. by right.
Qed.

Lemma decode_return_values c fuel ctx fb r ctx' fb' :
  gif_decode_lzw c fuel ctx fb = Some (r, ctx', fb') ->
  r = GIF_SUCCESS \/ r = GIF_ERROR_DECODE \/ r = GIF_ERROR_EARLY_EOF.
Proof.
  unfold gif_decode_lzw. intros H.
  destruct (gif_get_more_lzw_data _ _ _) as [[more c1] |];
    cbn [mbind option_bind] in H; [| done].
  destruct (more =? 0); [inversion H; subst; auto |].
  destruct (init_codetable_safe _ _ _ _ _ _) as [r1 |];
    cbn [mbind option_bind] in H; [| done].
  destruct r1; [| inversion H; subst; auto].
  apply decode_loop_return_values in H. destruct H; auto.
Qed.

Lemma history_decode calls c fuel ctx fb r ctx' fb' :
  gif_decode_lzw c fuel ctx fb = Some (r, ctx', fb') ->
  callback_history calls ctx -> callback_history calls ctx'.
Proof.
  apply (gif_decode_lzw_preserves (callback_history calls)).
  - apply history_read_byte.
  - apply history_read_bytes.
  - apply history_report.
  - intros v x. by apply history_other_fields.
  - intros v x. by apply history_other_fields.
  - intros v x. by apply history_other_fields.
  - intros v x. by apply history_other_fields.
  - intros v x. by apply history_other_fields.
  - intros v x. by apply history_other_fields.
  - intros v x. by apply history_other_fields.
Qed.

Lemma local_table_size_fits b : (1 ≪ (Z.land b 7 + 1) >? GIF_MAX_COLORS) = false.
Proof.
  assert (0 <= Z.land b 7 < 8) as Hk.
  { replace 7 with (Z.ones 3) by reflexivity. rewrite Z.land_ones by lia.
    change (2 ^ 3) with 8. apply Z.mod_pos_bound. lia. }
  generalize dependent (Z.land b 7). intros k Hk.
  assert (k = 0 \/ k = 1 \/ k = 2 \/ k = 3 \/ k = 4 \/ k = 5 \/ k = 6 \/ k = 7)
    as Hc by lia.
  repeat (destruct Hc as [-> | Hc]; [reflexivity |]). by subst k.
Qed.

Lemma image_failure calls c fuel ctx fb d ctx' fb' d' :
  gif_next_frame_image c fuel ctx fb d = Some (-1, ctx', fb', d') ->
  callback_history calls ctx ->
  exists x e m, ctx' = gif_report_error x e m /\ callback_history calls x
    /\ e ∈ [GIF_ERROR_DECODE; GIF_ERROR_EARLY_EOF; GIF_ERROR_INVALID_FRAME_DIMENSIONS].
Proof.
  intros H Hc. cbv beta delta [gif_next_frame_image] in H.
  destruct (gif_size ctx <=? current_pos ctx); [inversion H |].
  name_let H c1.
  assert (callback_history calls c1) as H1
    by (subst c1; by apply (history_other_fields calls ctx)).
  clearbody c1. clear Hc.
  name_let H c2. assert (callback_history calls c2) as H2 by (by apply history_skip).
  clearbody c2. clear H1.
  name_let H c3.
  assert (callback_history calls c3) as H3
    by (subst c3; by apply (history_other_fields calls c2)).
  clearbody c3. clear H2.
  name_let H c4. assert (callback_history calls c4) as H4 by (by apply history_skip).
  clearbody c4. clear H3.
  name_let H c5.
  assert (callback_history calls c5) as H5
    by (subst c5; by apply (history_other_fields calls c4)).
  clearbody c5. clear H4.
  name_let H c6. assert (callback_history calls c6) as H6 by (by apply history_skip).
  clearbody c6. clear H5.
  name_let H c7.
  assert (callback_history calls c7) as H7
    by (subst c7; by apply (history_other_fields calls c6)).
  clearbody c7. clear H6.
  name_let H c8. assert (callback_history calls c8) as H8 by (by apply history_skip).
  clearbody c8. clear c1 c2 c3 c4 c5 c6 c7 H7.
  destruct (_ || _) in H.
  { inversion H; subst. eexists _, _, _. split; [reflexivity |]. split; [done |].
    in_list. }
  destruct (_ || _) in H.
  { inversion H; subst. eexists _, _, _. split; [reflexivity |]. split; [done |].
    in_list. }
  pose proof (history_read_byte calls c8 H8) as Hb.
  destruct (gif_read_byte_internal c8) as [fisrz c9]; cbn [snd] in Hb.
  name_let H c10.
  assert (callback_history calls c10) as H10
    by (subst c10; by apply (history_other_fields calls c9)).
  clearbody c10. clear Hb H8 c8 c9. cbv zeta in H.
  rewrite local_table_size_fits, andb_false_r in H.
  match type of H with context [if ?b then gif_read_bytes_internal ?x ?n else ?e] =>
    assert (callback_history calls (if b then gif_read_bytes_internal x n else e).2) as H11
      by (destruct b; [by apply history_read_bytes | done]);
    destruct (if b then gif_read_bytes_internal x n else e) as [[n' bytes] c11] end.
  cbn [snd] in H11.
  destruct (_ <? _).
  { inversion H; subst. eexists _, _, _. split; [reflexivity |].
    split; [by apply (history_other_fields calls c11) | in_list]. }
  match type of H with context [gif_read_byte_internal ?x] =>
    assert (callback_history calls x) as H12
      by (by apply (history_other_fields calls c11));
    pose proof (history_read_byte calls x H12) as H13;
    destruct (gif_read_byte_internal x) as [ss c13] end.
  cbn [snd] in H13.
  destruct (gif_decode_lzw _ _ _ _) as [[[r c14] fb14] |] eqn:E;
    cbn [mbind option_bind] in H; [| done].
  pose proof (decode_return_values _ _ _ _ _ _ _ E) as Hr.
  apply (history_decode calls) in E; [| by apply (history_other_fields calls c13)].
  destruct (negb _) eqn:En; [| inversion H].
  inversion H; subst. eexists _, _, _. split; [reflexivity |]. split; [done |].
  destruct Hr as [-> | [-> | ->]]; [done | in_list ..].
Qed.

(** X12.  A call of [gif_next_frame] that returns -1 has called the error
    callback (when one is set), and the last call carried
    [GIF_ERROR_DECODE], [GIF_ERROR_BAD_FILE], [GIF_ERROR_EARLY_EOF] or
    [GIF_ERROR_INVALID_FRAME_DIMENSIONS]: the test of the local colour table
    against [GIF_MAX_COLORS] can never fail, so
    [GIF_ERROR_UNSUPPORTED_COLOR_DEPTH] is not among them. *)
Theorem next_frame_failure_is_reported c_indet fuel ctx fb d ctx' fb' d' :
  error_callback ctx = true ->
  gif_next_frame c_indet fuel ctx fb d = Some (-1, ctx', fb', d') ->
  reported ctx ctx'
    [GIF_ERROR_DECODE; GIF_ERROR_BAD_FILE; GIF_ERROR_EARLY_EOF;
     GIF_ERROR_INVALID_FRAME_DIMENSIONS].
Proof.
  intros Hcb H.
  assert (callback_history (callback_calls ctx) ctx) as Hc by (by split).
  assert (exists x e m, ctx' = gif_report_error x e m
            /\ callback_history (callback_calls ctx) x
            /\ e ∈ [GIF_ERROR_DECODE; GIF_ERROR_BAD_FILE; GIF_ERROR_EARLY_EOF;
                    GIF_ERROR_INVALID_FRAME_DIMENSIONS])
    as (x & e & m & -> & [Hx (l & Hl)] & He).
  { unfold gif_next_frame in H.
    assert (exists ctx1, callback_history (callback_calls ctx) ctx1 /\
      (r ← gif_next_frame_scan fuel ctx1;
       match r with
       | scan_return ret ctx => Some (ret, ctx, fb, d)
       | scan_done ctx => gif_next_frame_image c_indet fuel ctx fb d
       end) = Some (-1, ctx', fb', d')) as (ctx1 & Hc1 & H1).
    { destruct (gif_size ctx <=? current_pos ctx); [| exists ctx; by split].
      destruct (gif_loop_again ctx) as [ctx1 |] eqn:E; [| inversion H].
      exists ctx1. split; [by eapply history_loop_again | done]. }
    clear H.
    destruct (gif_next_frame_scan fuel ctx1) as [r |] eqn:E;
      cbn [mbind option_bind] in H1; [| done].
    apply (scan_failure (callback_calls ctx)) in E; [| done].
    destruct r as [ret ctx2 | ctx2].
    - inversion H1; subst. destruct E as (x & m & -> & Hx); [done |].
      exists x, GIF_ERROR_BAD_FILE, m. split; [done |]. split; [done | in_list].
    - destruct (image_failure _ _ _ _ _ _ _ _ _ H1 E) as (x & e & m & -> & Hx & He).
      exists x, e, m. split; [done |]. split; [done |].
      repeat (apply elem_of_cons in He as [-> | He]; [in_list |]).
      by apply elem_of_nil in He. }
  unfold reported, gif_report_error. rewrite Hx. cbn. rewrite Hl.
  exists l, e, m. split; [by rewrite <- app_assoc | done].
Qed.

Lemma next_frame_failure_witness :
  reported (open_gif gif_truncated)
    (call_ctx (gif_next_frame 0 100 (open_gif gif_truncated) (replicate 12 0) 0))
    [GIF_ERROR_DECODE; GIF_ERROR_BAD_FILE; GIF_ERROR_EARLY_EOF;
     GIF_ERROR_INVALID_FRAME_DIMENSIONS].
Proof.
  apply (next_frame_failure_is_reported 0 100 (open_gif gif_truncated) (replicate 12 0) 0
           _ (call_canvas (gif_next_frame 0 100 (open_gif gif_truncated) (replicate 12 0) 0))
           (call_delay (gif_next_frame 0 100 (open_gif gif_truncated) (replicate 12 0) 0))).
  - vm_compute. reflexivity.
  - vm_compute. reflexivity.
Defined.

(** ** The bit reader *)

(** X13.  [GET_LZW_CODE] once the last sub-block is in the LZW buffer, with the
    window [ulBits] holding the four bytes at [lzw_read_offset], for a
    window that stays inside [scratch_lzw_buffer] (the four bytes read
    after a refill lie in the buffer, so that they are the bytes the C code
    reads): the bit position [8 * lzw_read_offset + bitnum] moves on by
    exactly [codesize] (a refill moves whole bytes from [bitnum] to
    [lzw_read_offset]), the window is again the four bytes at
    [lzw_read_offset], inside the buffer, and the code is the field of
    [codesize] bits that ends at the new bit position. *)
Theorem get_lzw_code_reads_bit_field c_indet fuel eoi_code ctx st :
  code_width_ok st -> 0 <= bitnum st -> lzw_end_of_frame ctx <> 0 ->
  0 <= lzw_read_offset ctx ->
  lzw_read_offset ctx + bitnum st / 8 + 4 <= Z.of_nat (length (scratch_lzw_buffer ctx)) ->
  ulBits st = read_u32_le (scratch_lzw_buffer ctx) (lzw_read_offset ctx) ->
  exists ctx' st',
    GET_LZW_CODE c_indet fuel eoi_code ctx st = Some (ctx', st')
    /\ scratch_lzw_buffer ctx' = scratch_lzw_buffer ctx
    /\ 0 <= lzw_read_offset ctx'
    /\ lzw_read_offset ctx' + 4 <= Z.of_nat (length (scratch_lzw_buffer ctx'))
    /\ 8 * lzw_read_offset ctx' + bitnum st'
       = 8 * lzw_read_offset ctx + bitnum st + codesize st
    /\ (bitnum st <= 32 - codesize st -> lzw_read_offset ctx' = lzw_read_offset ctx)
    /\ (32 - codesize st < bitnum st -> codesize st <= bitnum st' < codesize st + 8)
    /\ ulBits st' = read_u32_le (scratch_lzw_buffer ctx') (lzw_read_offset ctx')
    /\ code st' = (ulBits st' / 2 ^ (bitnum st' - codesize st)) mod 2 ^ codesize st
    /\ codesize st' = codesize st.
Proof.
  intros Hw Hb He Ho Hlen Hu. unfold GET_LZW_CODE.
  pose proof (Z.div_pos (bitnum st) 8 Hb ltac:(lia)) as Hq.
  destruct (Z.gtb_spec (bitnum st) (32 - codesize st)) as [Hr | Hr].
  - unfold gif_get_more_lzw_data. cbn [lzw_end_of_frame set_lzw_read_offset].
    destruct (Z.eqb_spec (lzw_end_of_frame ctx) 0); [done |].
    cbn [negb mbind option_bind Z.eqb].
    eexists _, _. split; [reflexivity |].
    match goal with |- context [lzw_extract_code ?s] =>
      assert (code_width_ok s) as Hw' by (by apply (code_width_ok_other_fields st));
      destruct (extract_code_bit_field s Hw') as [Hc Hn];
      rewrite Hc, Hn; clear Hc Hn Hw'
    end.
    cbn. change 7 with (Z.ones 3). rewrite Z.land_ones, Z.shiftr_div_pow2 by lia.
    change (2 ^ 3) with 8.
    pose proof (Z.div_mod (bitnum st) 8 ltac:(lia)) as Hdm.
    pose proof (Z.mod_pos_bound (bitnum st) 8 ltac:(lia)) as Hm.
    split; [done |]. split; [lia |]. split; [lia |].
    split; [lia |]. split; [lia |]. split; [lia |].
    split; [done |]. split; [| done].
    rewrite Z.shiftr_div_pow2 by lia.
    match goal with |- context [2 ^ (?a + ?b - ?b)] =>
      replace (a + b - b) with a by lia end.
    done.
  - eexists _, _. split; [reflexivity |].
    destruct (extract_code_bit_field st Hw) as [Hc Hn]. rewrite Hc, Hn. cbn.
    split; [done |]. split; [done |]. split; [lia |].
    split; [lia |]. split; [done |]. split; [lia |].
    split; [done |]. split; [| done].
    rewrite Z.shiftr_div_pow2 by lia.
    match goal with |- context [2 ^ (?a + ?b - ?b)] =>
      replace (a + b - b) with a by lia end.
    done.
Qed.

Lemma get_lzw_code_witness :
  let ctx :=
    set_lzw_end_of_frame 1 (set_scratch_lzw_buffer [204; 11; 0; 0] (zeroed_context [])) in
  let st :=
    {| bitnum := 0; code := 0; oldcode := 0; codesize := 3; nextcode := 6; nextlim := 8;
       sMask := 7; c := 0; ulBits := 3020; current_pixel_idx := 0; current_line_idx := 0;
       interlaced_pass := 0 |} in
  exists ctx' st',
    GET_LZW_CODE 0 0 5 ctx st = Some (ctx', st')
    /\ 8 * lzw_read_offset ctx' + bitnum st' = 3.
Proof.
  intros ctx st.
  destruct (get_lzw_code_reads_bit_field 0 0 5 ctx st)
    as (ctx' & st' & H & _ & _ & _ & Hp & _).
  - vm_compute. repeat split; discriminate.
  - vm_compute. discriminate.
  - vm_compute. discriminate.
  - vm_compute. discriminate.
  - vm_compute. discriminate.
  - vm_compute. reflexivity.
  - exists ctx', st'. split; [exact H | exact Hp].
Defined.

(** ** The compositor writes inside its row *)

Lemma composite_pixel_outside ctx dest fb i j :
  j < dest + i * 3 \/ dest + i * 3 + 3 <= j ->
  rd (composite_pixel ctx dest fb i) j = rd fb j.
Proof.
  intros H. unfold composite_pixel.
  repeat case_match; try done; apply rd_wr_seq_outside; rewrite length_rd_seq; lia.
Qed.

Lemma composite_fold_outside ctx dest w j l : forall fb,
  (forall i, i ∈ l -> 0 <= i < w) -> j < dest \/ dest + 3 * w <= j ->
  rd (fold_left (composite_pixel ctx dest) l fb) j = rd fb j.
Proof.
  induction l as [| i l IH]; intros fb Hl Hj; cbn [fold_left]; [done |].
  rewrite IH; [| intros k Hk; apply Hl; by apply list_elem_of_further | done].
  apply composite_pixel_outside.
  pose proof (Hl i (list_elem_of_here _ _)). lia.
Qed.

(** X14.  A line flush changes no byte of the canvas outside the
    [3 * frame_width] bytes that start at [dest_row_start]. *)
Theorem composite_line_outside_row ctx y fb j :
  j < dest_row_start ctx y \/ dest_row_start ctx y + 3 * frame_width ctx <= j ->
  rd (composite_line ctx y fb) j = rd fb j.
Proof.
  intros H. unfold composite_line.
  apply (composite_fold_outside ctx _ (frame_width ctx)); [| done].
  intros i Hi. apply elem_of_seqZ in Hi. lia.
Qed.

Lemma composite_line_outside_witness :
  let ctx := call_ctx (gif_next_frame 0 100 (open_gif gif_column) (replicate 12 0) 0) in
  rd (composite_line ctx 1 (replicate 12 170)) 2 = 170
  /\ rd (composite_line ctx 1 (replicate 12 170)) 6 = 170.
Proof.
  intros ctx. split.
  - rewrite (composite_line_outside_row ctx 1 (replicate 12 170) 2);
      [reflexivity | left; vm_compute; reflexivity].
  - rewrite (composite_line_outside_row ctx 1 (replicate 12 170) 6);
      [reflexivity | right; vm_compute; discriminate].
Defined.

(** ** The interlace tables *)

(** X15.  The four passes of the interlace tables reach every row exactly once:
    each row is [interlaced_line_offset[p] + i * interlaced_line_stride[p]]
    for one pass [p] and one line [i] only. *)
Theorem interlaced_rows_partition y :
  0 <= y ->
  exists p i,
    (0 <= p <= 3 /\ 0 <= i /\ interlaced_y_draw p i = y)
    /\ forall p' i', 0 <= p' <= 3 -> 0 <= i' -> interlaced_y_draw p' i' = y ->
         p' = p /\ i' = i.
Proof.
  intros Hy.
  assert (forall p' i', 0 <= p' <= 3 ->
            interlaced_y_draw p' i'
            = if p' =? 0 then i' * 8 else if p' =? 1 then 4 + i' * 8
              else if p' =? 2 then 2 + i' * 4 else 1 + i' * 2) as Hv.
  { intros p' i' Hp. destruct (interlaced_y_draw_values i') as (H0 & H1 & H2 & H3).
    assert (p' = 0 \/ p' = 1 \/ p' = 2 \/ p' = 3) as [-> | [-> | [-> | ->]]] by lia;
      done. }
  pose proof (Z.div_mod y 8 ltac:(lia)) as Hdm.
  pose proof (Z.mod_pos_bound y 8 ltac:(lia)) as Hm.
  assert (y mod 8 = 0 \/ y mod 8 = 4 \/ (y mod 8 = 2 \/ y mod 8 = 6)
          \/ (y mod 8 = 1 \/ y mod 8 = 3 \/ y mod 8 = 5 \/ y mod 8 = 7))
    as [Hc | [Hc | [Hc | Hc]]] by lia.
  - exists 0, (y / 8). split; [rewrite Hv by lia; cbn; lia |].
    intros p' i' Hp Hi. rewrite Hv by lia.
    assert (p' = 0 \/ p' = 1 \/ p' = 2 \/ p' = 3) as [-> | [-> | [-> | ->]]] by lia;
      cbn; lia.
  - exists 1, (y / 8). split; [rewrite Hv by lia; cbn; lia |].
    intros p' i' Hp Hi. rewrite Hv by lia.
    assert (p' = 0 \/ p' = 1 \/ p' = 2 \/ p' = 3) as [-> | [-> | [-> | ->]]] by lia;
      cbn; lia.
  - exists 2, (y / 4).
    pose proof (Z.div_mod y 4 ltac:(lia)) as Hdm4.
    pose proof (Z.mod_pos_bound y 4 ltac:(lia)) as Hm4.
    assert (y mod 4 = 2) as Hc4.
    { replace y with (y mod 8 + (y / 8 * 2) * 4) by lia.
      rewrite Z.mod_add by lia. destruct Hc as [-> | ->]; done. }
    split; [rewrite Hv by lia; cbn; lia |].
    intros p' i' Hp Hi. rewrite Hv by lia.
    assert (p' = 0 \/ p' = 1 \/ p' = 2 \/ p' = 3) as [-> | [-> | [-> | ->]]] by lia;
      cbn; lia.
  - exists 3, (y / 2).
    pose proof (Z.div_mod y 2 ltac:(lia)) as Hdm2.
    pose proof (Z.mod_pos_bound y 2 ltac:(lia)) as Hm2.
    assert (y mod 2 = 1) as Hc2.
    { replace y with (y mod 8 + (y / 8 * 4) * 2) by lia.
      rewrite Z.mod_add by lia. destruct Hc as [-> | [-> | [-> | ->]]]; done. }
    split; [rewrite Hv by lia; cbn; lia |].
    intros p' i' Hp Hi. rewrite Hv by lia.
    assert (p' = 0 \/ p' = 1 \/ p' = 2 \/ p' = 3) as [-> | [-> | [-> | ->]]] by lia;
      cbn; lia.
Qed.

Lemma interlaced_rows_partition_witness :
  exists p i, interlaced_y_draw p i = 6 /\ 0 <= p <= 3 /\ 0 <= i.
Proof.
  destruct (interlaced_rows_partition 6) as (p & i & (Hp & Hi & Hy) & _); [lia |].
  exists p, i. split; [exact Hy | split; [exact Hp | exact Hi]].
Defined.

(** ** The initial dictionary *)

Lemma init_entries_fold l : forall ctx i,
  (forall j, j ∈ l -> 0 <= j < GIF_LZW_TABLE_ENTRIES) ->
  0 <= i < GIF_LZW_TABLE_ENTRIES ->
  i < Z.of_nat (length (scratch_lzw_table ctx)) ->
  i < Z.of_nat (length (scratch_lzw_pixels ctx)) ->
  let ctx' := fold_left lzw_init_entry l ctx in
  length (scratch_lzw_table ctx') = length (scratch_lzw_table ctx)
  /\ length (scratch_lzw_pixels ctx') = length (scratch_lzw_pixels ctx)
  /\ (i ∈ l \/ (rd (scratch_lzw_table ctx) i = 65535 /\ rd (scratch_lzw_pixels ctx) i = u8 i) ->
      rd (scratch_lzw_table ctx') i = 65535 /\ rd (scratch_lzw_pixels ctx') i = u8 i).
Proof.
  induction l as [| j l IH]; intros ctx i Hl Hi Ht Hp; cbn [fold_left].
  - split; [done |]. split; [done |]. intros [H | H]; [by apply elem_of_nil in H | done].
  - pose proof (Hl j (list_elem_of_here _ _)) as Hj.
    assert (length (scratch_lzw_table (lzw_init_entry ctx j))
            = length (scratch_lzw_table ctx)) as Hlt
      by (unfold lzw_init_entry; cbn; by rewrite length_wr).
    assert (length (scratch_lzw_pixels (lzw_init_entry ctx j))
            = length (scratch_lzw_pixels ctx)) as Hlp
      by (unfold lzw_init_entry; cbn; by rewrite !length_wr).
    destruct (IH (lzw_init_entry ctx j) i) as (H1 & H2 & H3);
      [intros k Hk; apply Hl; by apply list_elem_of_further | done | lia | lia |].
    cbv zeta. rewrite H1, H2, Hlt, Hlp. split; [done |]. split; [done |].
    intros H. apply H3.
    destruct (decide (i = j)) as [-> | Hne].
    + right. unfold lzw_init_entry. cbn. split.
      * apply rd_wr_eq. lia.
      * apply rd_wr_eq. rewrite length_wr. lia.
    + destruct H as [H | [Ha Hb]]; [apply elem_of_cons in H as [H | H]; [done | by left] |].
      right. unfold lzw_init_entry. cbn. split.
      * by rewrite rd_wr_ne.
      * rewrite !rd_wr_ne; [done | lia ..].
Qed.

#[local] Transparent lzw_expand.

Lemma lzw_expand_single n ctx i :
  i <> 65535 -> rd (scratch_lzw_table ctx) i = 65535 ->
  lzw_expand (S n) ctx i [] = [rd (scratch_lzw_pixels ctx) i].
Proof.
  intros Hi Ht. cbn [lzw_expand].
  destruct (Z.eqb_spec i 65535); [done |]. rewrite Ht. by destruct n.
Qed.

#[local] Opaque lzw_expand.

(** X16.  After the dictionary is initialised for a clear code of at most 4096
    (a minimum code size of at most 12), every code below the clear code
    expands to the single pixel of its own value, whatever the scratch
    tables held before. *)
Theorem literal_code_expands_to_itself n clear_code ctx i :
  0 <= i < clear_code -> clear_code <= GIF_LZW_TABLE_ENTRIES ->
  GIF_LZW_TABLE_ENTRIES <= Z.of_nat (length (scratch_lzw_table ctx)) ->
  GIF_LZW_TABLE_ENTRIES <= Z.of_nat (length (scratch_lzw_pixels ctx)) ->
  lzw_expand (S n) (lzw_reset_table clear_code (lzw_init_entries clear_code ctx)) i []
  = [u8 i].
Proof.
  intros Hi Hc Ht Hp. unfold GIF_LZW_TABLE_ENTRIES, GIF_MAX_CODE_SIZE in *.
  change (1 ≪ 12) with 4096 in *.
  destruct (init_entries_fold (seqZ 0 clear_code) ctx i) as (H1 & H2 & H3);
    [intros j Hj; apply elem_of_seqZ in Hj; change GIF_LZW_TABLE_ENTRIES with 4096; lia
    | change GIF_LZW_TABLE_ENTRIES with 4096; lia | lia | lia |].
  destruct H3 as [H3 H4]; [left; apply elem_of_seqZ; lia |].
  rewrite lzw_expand_single.
  - unfold lzw_reset_table. cbn. f_equal. exact H4.
  - lia.
  - unfold lzw_reset_table. cbn. rewrite rd_wr_seq_outside by lia. exact H3.
Qed.

Lemma literal_code_witness :
  lzw_expand 480 (lzw_reset_table 4 (lzw_init_entries 4 (open_gif gif_minimal))) 3 []
  = [3].
Proof.
  rewrite (literal_code_expands_to_itself 479 4 (open_gif gif_minimal) 3).
  - reflexivity.
  - lia.
  - vm_compute. discriminate.
  - vm_compute. discriminate.
  - vm_compute. discriminate.
Defined.

(** ** Extensions the decoder does not know *)

Lemma report_error_data ctx e m :
  gif_data (gif_report_error ctx e m) = gif_data ctx
  /\ gif_size (gif_report_error ctx e m) = gif_size ctx.
Proof. unfold gif_report_error. by destruct (error_callback ctx). Qed.

Lemma report_set_current_pos p ctx e m :
  gif_report_error (set_current_pos p ctx) e m = set_current_pos p (gif_report_error ctx e m).
Proof. unfold gif_report_error. cbn. by destruct (error_callback ctx). Qed.

(** X17.  An extension whose label is neither 0xF9 nor 0xFF (a comment or a
    plain-text extension, say) is reported to the callback as
    [GIF_ERROR_DECODE] and then skipped: the cursor ends just behind the
    terminator of its sub-block sequence, nothing else changes, and the scan
    goes on. *)
Theorem unknown_extension_is_skipped fuel pre label bs rest ctx :
  gif_data ctx = pre ++ label :: sub_blocks bs ++ rest ->
  gif_size ctx = Z.of_nat (length (gif_data ctx)) ->
  gif_size ctx < 18446744073709551616 ->
  current_pos ctx = Z.of_nat (length pre) ->
  label <> 249 -> label <> 255 -> rest <> [] ->
  Forall block_ok bs -> (length bs < fuel)%nat ->
  gif_read_ext fuel ctx
  = Some (set_current_pos
            (Z.of_nat (length pre) + 1 + Z.of_nat (length (sub_blocks bs)))
            (gif_report_error ctx GIF_ERROR_DECODE "Unknown GIF extension encountered.")).
Proof.
  intros Hd Hs Hm Hp H1 H2 Hr Hb Hf. unfold gif_read_ext.
  assert (Z.of_nat (length (gif_data ctx))
          = Z.of_nat (length pre) + 1 + Z.of_nat (length (sub_blocks bs))
            + Z.of_nat (length rest)) as Hlen
    by (rewrite Hd, length_app; cbn [length]; rewrite length_app; lia).
  rewrite read_byte_inside by lia.
  assert (rd (gif_data ctx) (current_pos ctx) = label) as Hv.
  { rewrite Hd, Hp.
    replace (Z.of_nat (length pre)) with (Z.of_nat (length pre) + 0) at 1 by lia.
    by rewrite rd_app_r. }
  rewrite Hv.
  destruct (Z.eqb_spec label 249); [done |]. destruct (Z.eqb_spec label 255); [done |].
  rewrite report_set_current_pos.
  rewrite (discard_well_formed bs fuel (pre ++ [label]) rest).
  - cbv zeta. destruct (decide (rest = [])); [done |].
    rewrite set_current_pos_twice, length_app. cbn [length]. do 2 f_equal. lia.
  - cbn [gif_data set_current_pos].
    destruct (report_error_data ctx GIF_ERROR_DECODE
                "Unknown GIF extension encountered.") as [-> _].
    rewrite Hd, <- app_assoc. done.
  - cbn [gif_data gif_size set_current_pos].
    destruct (report_error_data ctx GIF_ERROR_DECODE
                "Unknown GIF extension encountered.") as [-> ->]. done.
  - cbn [gif_size set_current_pos].
    destruct (report_error_data ctx GIF_ERROR_DECODE
                "Unknown GIF extension encountered.") as [_ ->]. done.
  - cbn [current_pos set_current_pos]. rewrite Hp, length_app. cbn [length]. lia.
  - done.
  - done.
Qed.

Lemma unknown_extension_witness :
  gif_read_ext 5 (set_current_pos 20 (open_gif gif_comment))
  = Some (set_current_pos 25
            (gif_report_error (set_current_pos 20 (open_gif gif_comment)) GIF_ERROR_DECODE
               "Unknown GIF extension encountered.")).
Proof.
  rewrite (unknown_extension_is_skipped 5 (take 20 gif_comment) 254 [[104; 105]]
             (drop 25 gif_comment) (set_current_pos 20 (open_gif gif_comment))).
  - reflexivity.
  - vm_compute. reflexivity.
  - vm_compute. reflexivity.
  - vm_compute. reflexivity.
  - vm_compute. reflexivity.
  - discriminate.
  - discriminate.
  - vm_compute. discriminate.
  - repeat constructor.
  - vm_compute. lia.
Defined.

(** ** What [gif_next_frame] leaves alone *)

Section NextFramePreserves.
Variable P : GIF_Context -> Prop.
Hypothesis P_current_pos : forall v ctx, P ctx -> P (set_current_pos v ctx).
Hypothesis P_report : forall ctx e m, P ctx -> P (gif_report_error ctx e m).
Hypothesis P_disposal_method : forall v ctx, P ctx -> P (set_disposal_method v ctx).
Hypothesis P_has_transparency : forall v ctx, P ctx -> P (set_has_transparency v ctx).
Hypothesis P_frame_delay_ms : forall v ctx, P ctx -> P (set_frame_delay_ms v ctx).
Hypothesis P_transparent_index : forall v ctx, P ctx -> P (set_transparent_index v ctx).
Hypothesis P_loop_count : forall v ctx, P ctx -> P (set_loop_count v ctx).
Hypothesis P_end_of_frame : forall v ctx, P ctx -> P (set_lzw_end_of_frame v ctx).
Hypothesis P_read_offset : forall v ctx, P ctx -> P (set_lzw_read_offset v ctx).
Hypothesis P_data_size : forall v ctx, P ctx -> P (set_lzw_data_size v ctx).
Hypothesis P_lzw_buffer : forall v ctx, P ctx -> P (set_scratch_lzw_buffer v ctx).
Hypothesis P_lzw_table : forall v ctx, P ctx -> P (set_scratch_lzw_table v ctx).
Hypothesis P_lzw_pixels : forall v ctx, P ctx -> P (set_scratch_lzw_pixels v ctx).
Hypothesis P_line_buffer : forall v ctx, P ctx -> P (set_scratch_line_buffer v ctx).
Hypothesis P_frame_x_off : forall v ctx, P ctx -> P (set_frame_x_off v ctx).
Hypothesis P_frame_y_off : forall v ctx, P ctx -> P (set_frame_y_off v ctx).
Hypothesis P_frame_width : forall v ctx, P ctx -> P (set_frame_width v ctx).
Hypothesis P_frame_height : forall v ctx, P ctx -> P (set_frame_height v ctx).
Hypothesis P_ucGIFBits : forall v ctx, P ctx -> P (set_ucGIFBits v ctx).
Hypothesis P_local_palette : forall v ctx, P ctx -> P (set_local_palette_colors v ctx).
Hypothesis P_active_palette : forall v ctx, P ctx -> P (set_active_palette_colors v ctx).
Hypothesis P_code_start_size : forall v ctx, P ctx -> P (set_lzw_code_start_size v ctx).

Local Hint Resolve P_current_pos P_report P_disposal_method P_has_transparency
  P_frame_delay_ms P_transparent_index P_loop_count P_end_of_frame P_read_offset
  P_data_size : core.

Lemma read_byte_preserves ctx : P ctx -> P (gif_read_byte_internal ctx).2.
Proof. intros H. unfold gif_read_byte_internal. destruct (_ <? _); cbn [snd]; auto. Qed.

Lemma read_bytes_preserves ctx len : P ctx -> P (gif_read_bytes_internal ctx len).2.
Proof. intros H. unfold gif_read_bytes_internal. destruct (_ >? 0); cbn [snd]; auto. Qed.

Lemma skip_bytes_preserves ctx len : P ctx -> P (gif_skip_bytes_internal ctx len).
Proof. intros H. unfold gif_skip_bytes_internal. destruct (_ <=? _); auto. Qed.

Local Hint Resolve skip_bytes_preserves : core.

Lemma discard_sub_blocks_preserves fuel : forall ctx ctx',
  gif_discard_sub_blocks fuel ctx = Some ctx' -> P ctx -> P ctx'.
Proof.
  induction fuel as [| fuel IH]; intros ctx ctx' H Hc; cbn [gif_discard_sub_blocks] in H;
    [done |].
  pose proof (read_byte_preserves ctx Hc) as Hb.
  destruct (gif_read_byte_internal ctx) as [b ctx1]; cbn [snd] in Hb.
  destruct (_ && _); [inversion H; subst; auto |].
  destruct (b =? 0); [inversion H; subst; auto |].
  eapply IH; [exact H | auto].
Qed.

Lemma graphic_control_ext_preserves ctx :
  P ctx -> P (gif_read_graphic_control_ext ctx).
Proof.
  unfold gif_read_graphic_control_ext. intros Hc.
  pose proof (read_byte_preserves _ (skip_bytes_preserves ctx 1 Hc)) as H1.
  destruct (gif_read_byte_internal (gif_skip_bytes_internal ctx 1)) as [rdit ctx1].
  cbn [snd] in H1.
  match goal with |- context [gif_read_byte_internal ?x] =>
    assert (P x) as H2 by auto 6;
    pose proof (read_byte_preserves _ H2) as H3;
    destruct (gif_read_byte_internal x) as [ti ctx2] end.
  cbn [snd] in H3. auto.
Qed.

Lemma application_ext_preserves fuel ctx ctx' :
  gif_read_application_ext fuel ctx = Some ctx' -> P ctx -> P ctx'.
Proof.
  unfold gif_read_application_ext. intros H Hc.
  pose proof (read_byte_preserves ctx Hc) as Hb.
  destruct (gif_read_byte_internal ctx) as [b ctx1]; cbn [snd] in Hb.
  destruct (b =? 11); [| by eapply discard_sub_blocks_preserves].
  pose proof (read_bytes_preserves ctx1 8 Hb) as H8.
  destruct (gif_read_bytes_internal ctx1 8) as [[n8 b8] ctx2]; cbn [snd] in H8.
  pose proof (read_bytes_preserves ctx2 3 H8) as H3.
  destruct (gif_read_bytes_internal ctx2 3) as [[n3 b3] ctx3]; cbn [snd] in H3.
  pose proof (read_byte_preserves ctx3 H3) as Hs.
  destruct (gif_read_byte_internal ctx3) as [sb ctx4]; cbn [snd] in Hs.
  destruct (negb _); (eapply discard_sub_blocks_preserves; [exact H | auto]).
Qed.

Lemma read_ext_preserves fuel ctx ctx' :
  gif_read_ext fuel ctx = Some ctx' -> P ctx -> P ctx'.
Proof.
  unfold gif_read_ext. intros H Hc.
  pose proof (read_byte_preserves ctx Hc) as Hb.
  destruct (gif_read_byte_internal ctx) as [b ctx1]; cbn [snd] in Hb.
  destruct (b =? 249); [inversion H; subst; by apply graphic_control_ext_preserves |].
  destruct (b =? 255); [by eapply application_ext_preserves |].
  eapply discard_sub_blocks_preserves; [exact H | auto].
Qed.

Lemma rewind_preserves ctx : P ctx -> P (gif_rewind ctx).
Proof. intros H. unfold gif_rewind. auto 6. Qed.

Lemma loop_again_preserves ctx ctx' : gif_loop_again ctx = Some ctx' -> P ctx -> P ctx'.
Proof.
  unfold gif_loop_again. intros H Hc.
  destruct (_ || _); [| done]. inversion H; subst.
  apply rewind_preserves. destruct (loop_count ctx >? 0); auto.
Qed.

Lemma next_frame_scan_preserves fuel : forall ctx r,
  gif_next_frame_scan fuel ctx = Some r -> P ctx ->
  match r with scan_return _ ctx' => P ctx' | scan_done ctx' => P ctx' end.
Proof.
  induction fuel as [| fuel IH]; intros ctx r H Hc; cbn [gif_next_frame_scan] in H;
    [done |].
  destruct (current_pos ctx <? gif_size ctx); [| by inversion H; subst].
  pose proof (read_byte_preserves ctx Hc) as Hb.
  destruct (gif_read_byte_internal ctx) as [b ctx1]; cbn [snd] in Hb.
  destruct (b =? 59).
  { destruct (gif_loop_again ctx1) as [ctx2 |] eqn:E; [| by inversion H; subst].
    eapply IH; [exact H | by eapply loop_again_preserves]. }
  destruct (b =? 33).
  { destruct (gif_read_ext fuel ctx1) as [ctx2 |] eqn:E; cbn [mbind option_bind] in H;
      [| done].
    eapply IH; [exact H | by eapply read_ext_preserves]. }
  destruct (b =? 44); inversion H; subst; auto.
Qed.

Lemma gif_next_frame_preserves c fuel ctx fb d ret ctx' fb' d' :
  gif_next_frame c fuel ctx fb d = Some (ret, ctx', fb', d') -> P ctx -> P ctx'.
Proof.
  unfold gif_next_frame. intros H Hc.
  assert (exists ctx1, P ctx1 /\
    ((ret = 0 /\ ctx' = ctx1) \/
     (r ← gif_next_frame_scan fuel ctx1;
      match r with
      | scan_return ret ctx => Some (ret, ctx, fb, d)
      | scan_done ctx => gif_next_frame_image c fuel ctx fb d
      end) = Some (ret, ctx', fb', d'))) as (ctx1 & Hc1 & [[_ ->] | H1]); [| done |].
  { destruct (gif_size ctx <=? current_pos ctx); [| eauto].
    destruct (gif_loop_again ctx) as [ctx1 |] eqn:E.
    - exists ctx1. split; [by eapply loop_again_preserves | by right].
    - exists ctx. split; [done | left]. by inversion H; subst. }
  destruct (gif_next_frame_scan fuel ctx1) as [r |] eqn:E;
    cbn [mbind option_bind] in H1; [| done].
  apply next_frame_scan_preserves in E; [| done].
  destruct r; [by inversion H1; subst |].
  apply (gif_next_frame_image_preserves P) in H1; auto.
  - apply read_byte_preserves.
  - apply read_bytes_preserves.
Qed.
End NextFramePreserves.

Lemma header_state_report ctx e m :
  header_state (gif_report_error ctx e m) = header_state ctx.
Proof. unfold gif_report_error. by destruct (error_callback ctx). Qed.

Lemma header_state_next_frame c fuel ctx fb d ret ctx' fb' d' :
  gif_next_frame c fuel ctx fb d = Some (ret, ctx', fb', d') ->
  header_state ctx' = header_state ctx.
Proof.
  intros H.
  apply (gif_next_frame_preserves (fun x => header_state x = header_state ctx)) in H;
    try done; try (intros; assumption).
  intros x e m Hx. by rewrite header_state_report.
Qed.

(** X18.  No call of [gif_next_frame], whatever it returns, changes the input,
    the canvas size, the background index, the global colour table, the
    start of the animation or the callback. *)
Theorem next_frame_keeps_header_state c_indet fuel ctx fb d ret ctx' fb' d' :
  gif_next_frame c_indet fuel ctx fb d = Some (ret, ctx', fb', d') ->
  header_state ctx' = header_state ctx.
Proof. apply header_state_next_frame. Qed.

Lemma next_frame_keeps_header_witness :
  header_state (call_ctx (gif_next_frame 0 100 (open_gif gif_two_frames) (replicate 6 0) 0))
  = header_state (open_gif gif_two_frames).
Proof.
  apply (next_frame_keeps_header_state 0 100 (open_gif gif_two_frames) (replicate 6 0) 0 1
           _ (call_canvas (gif_next_frame 0 100 (open_gif gif_two_frames) (replicate 6 0) 0))
           (call_delay (gif_next_frame 0 100 (open_gif gif_two_frames) (replicate 6 0) 0))).
  vm_compute. reflexivity.
Defined.

(** ** [gif_get_info] *)

Lemma init_canvas ctx0 data size scratch scratch_size ctx :
  0 <= size < 18446744073709551616 ->
  gif_init ctx0 data size scratch scratch_size = (GIF_SUCCESS, ctx) ->
  gif_data ctx = data
  /\ canvas_width ctx = gif_read_u16_le data 6
  /\ canvas_height ctx = gif_read_u16_le data 8.
Proof.
  unfold gif_init. intros Hsz H.
  destruct (size =? 0); [by inversion H |].
  destruct (scratch_size <? _); [by inversion H |].
  set (c0 := gif_init_context (callback_calls ctx0) data size scratch) in H.
  assert (gif_data c0 = data /\ current_pos c0 = 0 /\ gif_size c0 = size
          /\ file_buf c0 = replicate (Z.to_nat (GIF_LZW_CHUNK_SIZE + 32)) 0)
    as (Hd0 & Hp0 & Hs0 & Hf0) by done.
  clearbody c0.
  assert (let r := gif_read_bytes_internal c0 13 in
          gif_data r.2 = data /\ file_buf r.2 = file_buf c0
          /\ (13 <= r.1.1 -> r.1.2 = rd_seq data 0 13)) as Hr.
  { unfold gif_read_bytes_internal. cbv zeta. rewrite Hp0, Hd0, Hs0.
    change (size_t (0 + 13)) with 13. rewrite Z.sub_0_r, size_t_small by done.
    destruct (Z.gtb_spec 13 size).
    - destruct (Z.gtb_spec size 0); cbn [fst snd];
        (split; [done |]; split; [done |]); intros Hn; lia.
    - cbn [Z.gtb Z.compare fst snd]. done. }
  destruct (gif_read_bytes_internal c0 13) as [[n bytes] c1]. cbn [fst snd] in Hr.
  destruct Hr as (Hd1 & Hf1 & Hb1).
  destruct (Z.ltb_spec n 13); [by inversion H |].
  rewrite Hb1 in H by lia. clear Hb1.
  destruct (_ || _) in H; [by inversion H |].
  destruct (_ && _) in H; [by inversion H |].
  revert H. cbn [file_buf set_file_buf set_canvas]. rewrite Hf1, Hf0. intros H.
  match type of H with context [if ?b then gif_read_bytes_internal ?x ?n else ?e] =>
    assert (let r := if b then gif_read_bytes_internal x n else e in
            gif_data r.2 = data
            /\ canvas_width r.2 = gif_read_u16_le data 6
            /\ canvas_height r.2 = gif_read_u16_le data 8) as H2
      by (assert (gif_data x = data
                  /\ canvas_width x = gif_read_u16_le data 6
                  /\ canvas_height x = gif_read_u16_le data 8) as Hx
            by (cbn [gif_data canvas_width canvas_height set_canvas set_file_buf file_buf];
                unfold gif_read_u16_le; rewrite !header_buf_rd by lia; done);
          destruct b; [| exact Hx];
          unfold gif_read_bytes_internal; destruct (_ >? 0); exact Hx);
    destruct (if b then gif_read_bytes_internal x n else e) as [[n' bytes'] c2] end.
  cbn [snd] in H2.
  destruct (_ <? _) in H; [by inversion H |].
  inversion H; subst. exact H2.
Qed.

(** X19.  In every state that the API can reach from a successful [gif_init],
    [gif_get_info] succeeds with the two little-endian 16-bit numbers at
    offsets 6 and 8 of the input: the canvas size is never changed
    afterwards, and it is not checked against zero. *)
Theorem get_info_reports_header_size ctx :
  reachable ctx ->
  gif_get_info ctx
  = (GIF_SUCCESS, gif_read_u16_le (gif_data ctx) 6, gif_read_u16_le (gif_data ctx) 8).
Proof.
  unfold gif_get_info.
  induction 1 as [ctx0 data size scratch scratch_size ctx Hs Hi
                 | c fuel ctx fb d ret ctx' fb' d' _ IH Hn
                 | ctx _ IH | ctx cb _ IH].
  - destruct (init_canvas _ _ _ _ _ _ Hs Hi) as (-> & -> & ->). done.
  - apply header_state_next_frame in Hn. unfold header_state in Hn.
    inversion Hn as [[H1 H2 H3 H4 H5 H6 H7 H8]]. by rewrite H1, H3, H4.
  - exact IH.
  - exact IH.
Qed.

Lemma get_info_witness :
  gif_get_info (gif_rewind (open_gif gif_column)) = (GIF_SUCCESS, 1, 4).
Proof.
  rewrite (get_info_reports_header_size (gif_rewind (open_gif gif_column))).
  - reflexivity.
  - apply reachable_rewind, reachable_set_error_callback.
    apply (reachable_init (zeroed_context []) gif_column (Z.of_nat (length gif_column))
             scratch_zero GIF_SCRATCH_BUFFER_REQUIRED_SIZE).
    + vm_compute. split; [discriminate | reflexivity].
    + vm_compute. reflexivity.
Defined.

(** ** The byte copier *)

Lemma list_eq_rd (l l' : list Z) :
  length l = length l' ->
  (forall j, 0 <= j < Z.of_nat (length l) -> rd l j = rd l' j) -> l = l'.
Proof.
  intros Hlen H. apply list_eq. intros i.
  destruct (decide (i < length l)%nat) as [Hi | Hi].
  - specialize (H (Z.of_nat i) ltac:(lia)). unfold rd in H.
    destruct (Z.ltb_spec (Z.of_nat i) 0); [lia |]. rewrite Nat2Z.id in H.
    destruct (lookup_lt_is_Some_2 l i Hi) as [x Hx].
    destruct (lookup_lt_is_Some_2 l' i ltac:(lia)) as [y Hy].
    rewrite Hx, Hy in *. cbn in H. by subst.
  - rewrite !lookup_ge_None_2 by lia. done.
Qed.

Lemma rd_outside (l : list Z) j : Z.of_nat (length l) <= j -> rd l j = 0.
Proof.
  intros H. unfold rd. destruct (Z.ltb_spec j 0); [done |].
  rewrite lookup_ge_None_2 by lia. done.
Qed.

Lemma length_copy_forward n : forall buf s d, length (copy_forward n buf s d) = length buf.
Proof.
  induction n as [| n IH]; intros buf s d; cbn [copy_forward]; [done |].
  by rewrite IH, length_wr.
Qed.

Lemma copy_forward_add n m : forall buf s d,
  copy_forward (n + m) buf s d
  = copy_forward m (copy_forward n buf s d) (s + Z.of_nat n) (d + Z.of_nat n).
Proof.
  induction n as [| n IH]; intros buf s d; cbn [copy_forward Nat.add].
  - by rewrite !Z.add_0_r.
  - rewrite IH. f_equal; lia.
Qed.

(** One step of the word loop is four steps of the byte loop, as long as
    the two indices are equal or at least four apart. *)
Lemma copy_word_is_four_bytes (buf : list Z) s d :
  0 <= s -> 0 <= d -> s = d \/ 4 <= s - d \/ 4 <= d - s ->
  wr_seq buf d (rd_seq buf s 4) = copy_forward 4 buf s d.
Proof.
  intros Hs Hd Hsd. apply list_eq_rd.
  - by rewrite length_wr_seq, length_copy_forward.
  - rewrite length_wr_seq. intros j Hj. cbn [copy_forward].
    assert (forall l i v, rd (wr l i v) j = if decide (i = j) then
              (if decide (j < Z.of_nat (length l)) then v else 0) else rd l j) as Hrw.
    { intros l i v. destruct (decide (i = j)) as [-> | Hne]; [| by apply rd_wr_ne].
      destruct (decide (j < Z.of_nat (length l))); [apply rd_wr_eq; lia |].
      apply rd_outside. rewrite length_wr. lia. }
    assert (forall l i v k, i <> k -> rd (wr l i v) k = rd l k) as Hne
      by (intros; by apply rd_wr_ne).
    destruct (decide (d <= j < d + 4)) as [Hin | Hout].
    + rewrite rd_wr_seq_inside by (rewrite ?length_rd_seq; lia).
      rewrite rd_rd_seq by lia.
      rewrite !Hrw, !length_wr.
      repeat (destruct (decide (_ = j)) as [<- | ?]);
        repeat (destruct (decide (_ < Z.of_nat (length buf))); [| lia]);
        try lia;
        rewrite ?Hne by lia; f_equal; lia.
    + rewrite rd_wr_seq_outside by (rewrite ?length_rd_seq; lia).
      rewrite !Hne by lia. done.
Qed.

Lemma copy_words_forward n base pEnd : forall buf s d,
  0 <= s -> 0 <= d ->
  exists k : nat,
    lzw_copy_words n base buf s d pEnd
    = (copy_forward (4 * k) buf s d, s + 4 * Z.of_nat k, d + 4 * Z.of_nat k)
    /\ d + 4 * Z.of_nat k <= Z.max d pEnd.
Proof.
  induction n as [| n IH]; intros buf s d Hs Hd; cbn [lzw_copy_words].
  - exists 0%nat. cbn [copy_forward Nat.mul]. rewrite !Z.add_0_r. split; [done | lia].
  - destruct (Z.leb_spec (d + 4) pEnd) as [Hle | Hgt]; cbn [andb].
    2: { exists 0%nat. cbn [copy_forward Nat.mul]. rewrite !Z.add_0_r.
         split; [done | lia]. }
    destruct (Z.eqb_spec ((base + s) mod 4) 0) as [Hsa | Hsa]; cbn [andb].
    2: { exists 0%nat. cbn [copy_forward Nat.mul]. rewrite !Z.add_0_r.
         split; [done | lia]. }
    destruct (Z.eqb_spec ((base + d) mod 4) 0) as [Hda | Hda].
    2: { exists 0%nat. cbn [copy_forward Nat.mul]. rewrite !Z.add_0_r.
         split; [done | lia]. }
    destruct (IH (wr_seq buf d (rd_seq buf s 4)) (s + 4) (d + 4)) as (k & Hk & Hkd);
      [lia .. |].
    exists (S k). rewrite Hk.
    rewrite copy_word_is_four_bytes by (Z.div_mod_to_equations; lia).
    replace (4 * S k)%nat with (4 + 4 * k)%nat by lia.
    rewrite (copy_forward_add 4 (4 * k)).
    split; [| lia]. f_equal; [f_equal |]; lia.
Qed.

Lemma copy_tail_forward n pEnd : forall buf s d,
  pEnd - d <= Z.of_nat n ->
  lzw_copy_tail n buf s d pEnd = copy_forward (Z.to_nat (pEnd - d)) buf s d.
Proof.
  induction n as [| n IH]; intros buf s d Hn; cbn [lzw_copy_tail].
  - replace (Z.to_nat (pEnd - d)) with 0%nat by lia. done.
  - destruct (Z.ltb_spec d pEnd).
    + rewrite IH by lia.
      replace (Z.to_nat (pEnd - d)) with (S (Z.to_nat (pEnd - (d + 1)))) by lia. done.
    + replace (Z.to_nat (pEnd - d)) with 0%nat by lia. done.
Qed.

Lemma copy_loops_forward base (buf : list Z) s d len :
  0 <= s -> 0 <= d -> 0 <= len ->
  (let '(buf1, s1, d1) := lzw_copy_words (Z.to_nat len) base buf s d (d + len) in
   lzw_copy_tail (Z.to_nat len) buf1 s1 d1 (d + len))
  = copy_forward (Z.to_nat len) buf s d.
Proof.
  intros Hs Hd Hl.
  destruct (copy_words_forward (Z.to_nat len) base (d + len) buf s d Hs Hd)
    as (k & -> & Hk).
  rewrite copy_tail_forward by lia.
  transitivity
    (copy_forward (4 * k + Z.to_nat (d + len - (d + 4 * Z.of_nat k))) buf s d);
    [| f_equal; lia].
  rewrite copy_forward_add. f_equal; lia.
Qed.

(** X20.  [gif_lzw_copy_bytes] copies the [*lengths] bytes one by one from the
    lowest index up, whatever the alignment of the buffer: its word loop
    runs only while source and destination are both aligned, hence equal or
    at least four bytes apart, where a word copy and four byte copies
    agree.  An entry of length 0 without suffix returns 0, the value that
    the callers take for a failure; and when the second bounds test fails
    the bytes have been copied already. *)
Theorem lzw_copy_bytes_is_forward_copy base buf offset symbols lengths :
  0 <= offset -> 0 <= lengths ->
  gif_lzw_copy_bytes base buf offset symbols lengths
  = if offset + lengths >? 9722 then (0, buf, symbols, lengths)
    else
      let copied :=
        copy_forward (Z.to_nat lengths) buf (Z.land symbols 8388607) offset in
      if Z.land symbols 8388608 =? 0 then (lengths, copied, symbols, lengths)
      else if offset + lengths + 1 >? 9722 then (0, copied, symbols, lengths)
      else (lengths + 1,
            wr copied (offset + lengths) (u8 (Z.shiftr symbols 24)),
            u32 offset, u16 (lengths + 1)).
Proof.
  intros Ho Hl. unfold gif_lzw_copy_bytes.
  change (GIF_LZW_BASE_BUF_SIZE + GIF_LZW_TABLE_ENTRIES * 2) with 9722.
  destruct (offset + lengths >? 9722); [done |].
  assert (0 <= Z.land symbols 8388607) as Hs by (apply Z.land_nonneg; lia).
  pose proof (copy_loops_forward base buf (Z.land symbols 8388607) offset lengths
                Hs Ho Hl) as Hc.
  destruct (lzw_copy_words _ _ _ _ _ _) as [[buf1 s1] d1].
  rewrite Hc. cbv zeta.
  destruct (Z.land symbols 8388608 =? 0); cbn [negb]; [done |].
  by rewrite Z.add_assoc.
Qed.

Lemma lzw_copy_bytes_witness :
  (gif_lzw_copy_bytes 2 [1; 2; 3; 0; 0; 0; 0; 0; 0; 0] 3 0 6).1.1.2
  = [1; 2; 3; 1; 2; 3; 1; 2; 3; 0].
Proof.
  rewrite (lzw_copy_bytes_is_forward_copy 2 [1; 2; 3; 0; 0; 0; 0; 0; 0; 0] 3 0 6).
  - reflexivity.
  - lia.
  - lia.
Defined.

(** ** The address of a row *)

(** C6 (where the code departs from it).  [gif_wide_canvas] has a
    34179 x 41888 canvas and one interlaced 1x1 frame at row 41887.  Row 0
    of pass 0 belongs at canvas row [frame_y_off + 0 + 0 * 8 = 41887],
    which starts at byte [3 * 34179 * 41887 = 4294967319]; the code forms
    the row term in [uint32_t], where it is 23, and [gif_next_frame]
    returns 1, reports nothing, and has written the pixel at bytes 23 to
    25, inside canvas row 0. *)
Theorem interlaced_row_address_wraps :
  let r := gif_next_frame 0 100 (open_gif gif_wide_canvas) (replicate 30 170) 0 in
  let ctx := call_ctx r in
  call_ret r = Some 1
  /\ callback_calls ctx = []
  /\ Z.land (ucGIFBits ctx) 64 = 64
  /\ canvas_width ctx = 34179 /\ canvas_height ctx = 41888
  /\ frame_y_off ctx + interlaced_y_draw 0 0 = 41887
  /\ canvas_offset ctx (interlaced_y_draw 0 0) 0 = 4294967319
  /\ dest_row_start ctx (interlaced_y_draw 0 0) = 23
  /\ call_canvas r = replicate 23 170 ++ [255; 255; 255] ++ replicate 4 170.
Proof. vm_compute. repeat split. Qed.

(** ** Interlaced rows on the canvas *)

Lemma dest_row_start_exact ctx y :
  0 <= frame_y_off ctx + y -> 0 <= canvas_width ctx ->
  (frame_y_off ctx + y) * canvas_width ctx * 3 < 4294967296 ->
  forall x, dest_row_start ctx y + x * 3 = canvas_offset ctx y x.
Proof.
  intros Hy Hw Hb x. unfold dest_row_start, canvas_offset, u32.
  rewrite Z.mod_small by nia. lia.
Qed.

Lemma composite_line_row ctx y fb :
  0 <= y < frame_height ctx ->
  0 <= frame_x_off ctx -> 0 <= frame_y_off ctx -> 0 <= frame_width ctx ->
  frame_x_off ctx + frame_width ctx <= canvas_width ctx ->
  frame_y_off ctx + frame_height ctx <= canvas_height ctx ->
  3 * canvas_width ctx * canvas_height ctx <= Z.of_nat (length fb) ->
  3 * canvas_width ctx * canvas_height ctx <= 4294967296 ->
  row_composited ctx y fb (composite_line ctx y fb).
Proof.
  intros Hy Hx Hyo Hw Hxw Hyh Hlen Hb.
  assert (0 <= canvas_width ctx) as Hcw by lia.
  assert ((frame_y_off ctx + y + 1) * canvas_width ctx <= canvas_height ctx * canvas_width ctx)
    as Hrow by (apply Z.mul_le_mono_nonneg_r; lia).
  destruct (decide (frame_width ctx = 0)) as [Hw0 | Hw0].
  { split; [intros x Hx'; lia |].
    intros j _. unfold composite_line. rewrite Hw0. done. }
  assert ((frame_y_off ctx + y) * canvas_width ctx * 3 < 4294967296) as Hnw by nia.
  pose proof (dest_row_start_exact ctx y ltac:(lia) Hcw Hnw) as Hd.
  split.
  - intros x Hx'. rewrite <- Hd. apply composite_line_column; [done | |].
    + pose proof (Hd 0) as H0. unfold canvas_offset in H0. nia.
    + pose proof (Hd (frame_width ctx)) as H1. unfold canvas_offset in H1. nia.
  - intros j Hj. rewrite <- !Hd in Hj. unfold composite_line.
    apply (composite_fold_outside ctx _ (frame_width ctx)).
    + intros i Hi. apply elem_of_seqZ in Hi. lia.
    + lia.
Qed.

(** X21.  The line flush of an interlaced frame that lies inside a canvas of
    at most 2^32 bytes, with pass offsets [{0,4,2,1}] and strides
    [{8,8,4,2}].  When row [offset[p] + i * stride[p]] is inside the frame,
    the flush composites the line buffer onto canvas row
    [frame_y_off + offset[p] + i * stride[p]], from canvas column
    [frame_x_off] on, changes no other byte of the canvas, and moves to row
    [i + 1] of the pass.  When it is not, the flush moves to the first later
    pass [q] whose row 0 is inside the frame and composites that row in the
    same way.  When no pass is left, nothing is written and processing the
    code either completes no line or fails with [GIF_ERROR_DECODE]. *)
Theorem interlaced_rows_reach_canvas ctx fb st :
  Z.land (ucGIFBits ctx) 64 <> 0 ->
  0 <= interlaced_pass st <= 3 -> 0 <= current_line_idx st ->
  0 <= frame_x_off ctx -> 0 <= frame_y_off ctx -> 0 <= frame_width ctx ->
  frame_x_off ctx + frame_width ctx <= canvas_width ctx ->
  frame_y_off ctx + frame_height ctx <= canvas_height ctx ->
  3 * canvas_width ctx * canvas_height ctx <= Z.of_nat (length fb) ->
  3 * canvas_width ctx * canvas_height ctx <= 4294967296 ->
  let p := interlaced_pass st in
  let i := current_line_idx st in
  let offset := rd [0; 4; 2; 1] in
  let stride := rd [8; 8; 4; 2] in
  (offset p + i * stride p < frame_height ctx ->
   exists fb',
     lzw_flush_line ctx fb st
     = flush_ok fb' (set_current_line_idx (i + 1) (set_current_pixel_idx 0 st))
     /\ row_composited ctx (offset p + i * stride p) fb fb')
  /\ (forall q,
      frame_height ctx <= offset p + i * stride p ->
      p < q <= 3 -> offset q < frame_height ctx ->
      (forall r, p < r < q -> frame_height ctx <= offset r) ->
      exists fb',
        lzw_flush_line ctx fb st
        = flush_ok fb'
            (set_current_line_idx 1 (set_current_pixel_idx 0 (set_interlaced_pass q st)))
        /\ row_composited ctx (offset q) fb fb')
  /\ (frame_height ctx <= offset p + i * stride p ->
      (forall r, p < r <= 3 -> frame_height ctx <= offset r) ->
      lzw_flush_line ctx fb st = flush_out_of_bounds
      /\ match lzw_process_code ctx fb st with
         | lzw_step_ok _ fb' st' => fb' = fb /\ current_pixel_idx st' < frame_width ctx
         | lzw_step_error err _ => err = GIF_ERROR_DECODE
         end).
Proof.
  intros Hi Hp Hl Hx Hyo Hw Hxw Hyh Hlen Hb p i offset stride.
  assert (forall q j, interlaced_y_draw q j = offset q + j * stride q) as Hyd by done.
  assert (forall q, 0 <= q <= 3 -> 0 <= offset q) as Hoff.
  { intros q Hq. subst offset.
    assert (q = 0 \/ q = 1 \/ q = 2 \/ q = 3) as [-> | [-> | [-> | ->]]] by lia; done. }
  assert (0 <= stride p) as Hst.
  { subst stride p.
    assert (interlaced_pass st = 0 \/ interlaced_pass st = 1 \/ interlaced_pass st = 2
            \/ interlaced_pass st = 3) as [-> | [-> | [-> | ->]]] by lia; done. }
  split; [| split].
  - intros Hy. eexists. split.
    + pose proof (flush_interlaced_same_pass ctx fb st Hi Hp Hl) as Hf.
      rewrite Hyd in Hf. exact (Hf Hy).
    + apply composite_line_row; try done. split; [| done].
      apply Z.add_nonneg_nonneg; [by apply Hoff | by apply Z.mul_nonneg_nonneg].
  - intros q Hy Hq Hqy Hr.
    assert (forall r, interlaced_y_draw r 0 = offset r) as Hq0
      by (intros r; rewrite Hyd; lia).
    assert (forall r, interlaced_pass st < r < q ->
                      frame_height ctx <= interlaced_y_draw r 0) as Hr'
      by (intros r Hrr; rewrite Hq0; by apply Hr).
    pose proof (flush_interlaced_next_pass ctx fb st q Hi Hp Hl) as Hf.
    rewrite Hyd, Hq0 in Hf. specialize (Hf Hy Hq Hqy Hr').
    eexists. split; [exact Hf |].
    apply composite_line_row; try done. split; [apply Hoff; lia | done].
  - intros Hy Hr.
    assert (forall r, interlaced_pass st < r <= 3 ->
                      frame_height ctx <= interlaced_y_draw r 0) as Hr'
      by (intros r Hrr; rewrite Hyd, Z.mul_0_l, Z.add_0_r; by apply Hr).
    assert (frame_height ctx
            <= interlaced_y_draw (interlaced_pass st) (current_line_idx st)) as Hy'
      by (by rewrite Hyd).
    split; [by apply flush_interlaced_out_of_bounds |].
    by apply process_code_out_of_bounds.
Qed.

Lemma interlaced_rows_witness :
  let ctx :=
    set_ucGIFBits 64 (call_ctx (gif_next_frame 0 100 (open_gif gif_column) [] 0)) in
  exists fb',
    lzw_flush_line ctx (replicate 12 170) (set_current_line_idx 1 (lzw_locals_start 0))
    = flush_ok fb'
        (set_current_line_idx 1
           (set_current_pixel_idx 0 (set_interlaced_pass 2 (set_current_line_idx 1 (lzw_locals_start 0)))))
    /\ row_composited ctx 2 (replicate 12 170) fb'.
Proof.
  intros ctx.
  destruct (interlaced_rows_reach_canvas ctx (replicate 12 170)
              (set_current_line_idx 1 (lzw_locals_start 0))) as (_ & H & _).
  - vm_compute. discriminate.
  - vm_compute. split; discriminate.
  - vm_compute. discriminate.
  - vm_compute. discriminate.
  - vm_compute. discriminate.
  - vm_compute. discriminate.
  - vm_compute. discriminate.
  - vm_compute. discriminate.
  - vm_compute. discriminate.
  - vm_compute. discriminate.
  - apply (H 2).
    + vm_compute. discriminate.
    + vm_compute. split; [reflexivity | discriminate].
    + vm_compute. reflexivity.
    + intros r Hr. assert (r = 1) as -> by (cbn in Hr; lia). vm_compute. discriminate.
Defined.

(** ** The graphic-control state *)

Lemma kept_other_fields ctx0 c c' :
  gif_data c' = gif_data c -> gif_size c' = gif_size c -> gce_state c' = gce_state c ->
  graphic_control_kept ctx0 c -> graphic_control_kept ctx0 c'.
Proof. unfold graphic_control_kept. intros -> -> ->. done. Qed.

Lemma input_read_ext fuel ctx ctx' :
  gif_read_ext fuel ctx = Some ctx' ->
  gif_data ctx' = gif_data ctx /\ gif_size ctx' = gif_size ctx.
Proof.
  intros H.
  apply (read_ext_preserves
           (fun x => gif_data x = gif_data ctx /\ gif_size x = gif_size ctx)) in H;
    try done; try (intros; assumption).
  intros x e m Hx. by destruct (report_error_data x e m) as [-> ->].
Qed.

Lemma input_loop_again ctx ctx' :
  gif_loop_again ctx = Some ctx' ->
  gif_data ctx' = gif_data ctx /\ gif_size ctx' = gif_size ctx.
Proof.
  intros H.
  apply (loop_again_preserves
           (fun x => gif_data x = gif_data ctx /\ gif_size x = gif_size ctx)) in H;
    try done; intros; assumption.
Qed.

Lemma gce_state_loop_again ctx ctx' :
  gif_loop_again ctx = Some ctx' -> gce_state ctx' = gce_state ctx.
Proof.
  intros H.
  apply (loop_again_preserves (fun x => gce_state x = gce_state ctx)) in H;
    try done; intros; assumption.
Qed.

Lemma input_image c fuel ctx fb d ret ctx' fb' d' :
  gif_next_frame_image c fuel ctx fb d = Some (ret, ctx', fb', d') ->
  gif_data ctx' = gif_data ctx /\ gif_size ctx' = gif_size ctx.
Proof.
  intros H.
  apply (gif_next_frame_image_preserves
           (fun x => gif_data x = gif_data ctx /\ gif_size x = gif_size ctx)) in H;
    try done; try (intros; assumption).
  - intros x Hx. unfold gif_read_byte_internal. destruct (_ <? _); cbn [snd]; [done |].
    by destruct (report_error_data x GIF_ERROR_EARLY_EOF
                   "Unexpected EOF while reading byte.") as [-> ->].
  - intros x len Hx. unfold gif_read_bytes_internal. by destruct (_ >? 0).
  - intros x len Hx. unfold gif_skip_bytes_internal. by destruct (_ <=? _).
  - intros x e m Hx. by destruct (report_error_data x e m) as [-> ->].
Qed.

(** An extension whose label is not 0xF9, or whose label lies behind the
    end of the input. *)
Lemma read_ext_not_graphic_control fuel ctx ctx' :
  (current_pos ctx < gif_size ctx -> rd (gif_data ctx) (current_pos ctx) <> 249) ->
  gif_read_ext fuel ctx = Some ctx' -> gce_state ctx' = gce_state ctx.
Proof.
  intros Hl H.
  destruct (Z.ltb_spec (current_pos ctx) (gif_size ctx)) as [Hp | Hp].
  - eapply gce_state_read_ext; [exact Hp | by apply Hl | exact H].
  - unfold gif_read_ext, gif_read_byte_internal in H.
    destruct (Z.ltb_spec (current_pos ctx) (gif_size ctx)); [lia |].
    cbn [Z.eqb] in H. apply gce_state_discard in H.
    by rewrite H, !gce_state_report.
Qed.

Lemma read_ext_graphic_control fuel ctx :
  current_pos ctx < gif_size ctx -> rd (gif_data ctx) (current_pos ctx) = 249 ->
  gif_read_ext fuel ctx
  = Some (gif_read_graphic_control_ext (set_current_pos (current_pos ctx + 1) ctx)).
Proof.
  intros Hp Hb. unfold gif_read_ext. rewrite read_byte_inside by done.
  by rewrite Hb.
Qed.

Lemma scan_at_extension fuel ctx :
  current_pos ctx < gif_size ctx -> rd (gif_data ctx) (current_pos ctx) = 33 ->
  gif_next_frame_scan (S fuel) ctx
  = (ctx2 ← gif_read_ext fuel (set_current_pos (current_pos ctx + 1) ctx);
     gif_next_frame_scan fuel ctx2).
Proof.
  intros Hp Hb. cbn [gif_next_frame_scan].
  destruct (Z.ltb_spec (current_pos ctx) (gif_size ctx)); [| lia].
  rewrite read_byte_inside by done. by rewrite Hb.
Qed.

Lemma scan_at_trailer fuel ctx :
  current_pos ctx < gif_size ctx -> rd (gif_data ctx) (current_pos ctx) = 59 ->
  gif_next_frame_scan (S fuel) ctx
  = match gif_loop_again (set_current_pos (current_pos ctx + 1) ctx) with
    | Some ctx2 => gif_next_frame_scan fuel ctx2
    | None => Some (scan_return 0 (set_current_pos (current_pos ctx + 1) ctx))
    end.
Proof.
  intros Hp Hb. cbn [gif_next_frame_scan].
  destruct (Z.ltb_spec (current_pos ctx) (gif_size ctx)); [| lia].
  rewrite read_byte_inside by done. by rewrite Hb.
Qed.

Lemma scan_keeps_graphic_control ctx0 fuel : forall ctx r,
  gif_next_frame_scan fuel ctx = Some r -> graphic_control_kept ctx0 ctx ->
  match r with
  | scan_return _ ctx' => graphic_control_kept ctx0 ctx'
  | scan_done ctx' => graphic_control_kept ctx0 ctx'
  end.
Proof.
  induction fuel as [| fuel IH]; intros ctx r H Hk; [done |].
  destruct (Z.ltb_spec (current_pos ctx) (gif_size ctx)) as [Hp | Hp].
  2: { cbn [gif_next_frame_scan] in H.
       destruct (Z.ltb_spec (current_pos ctx) (gif_size ctx)); [lia |].
       by inversion H; subst. }
  assert (graphic_control_kept ctx0 (set_current_pos (current_pos ctx + 1) ctx)) as Hk1
    by (by apply (kept_other_fields ctx0 ctx)).
  destruct (decide (rd (gif_data ctx) (current_pos ctx) = 59)) as [Hb | Hb59].
  { rewrite scan_at_trailer in H by done.
    destruct (gif_loop_again _) as [ctx2 |] eqn:E; [| by inversion H; subst].
    eapply IH; [exact H |].
    destruct (input_loop_again _ _ E) as [Hd Hs].
    apply gce_state_loop_again in E.
    by apply (kept_other_fields ctx0 (set_current_pos (current_pos ctx + 1) ctx)). }
  destruct (decide (rd (gif_data ctx) (current_pos ctx) = 33)) as [Hb | Hb33].
  { rewrite scan_at_extension in H by done.
    destruct (gif_read_ext fuel _) as [ctx2 |] eqn:E; cbn [mbind option_bind] in H;
      [| done].
    eapply IH; [exact H |].
    destruct (input_read_ext _ _ _ E) as [Hd Hs].
    set (ctx1 := set_current_pos (current_pos ctx + 1) ctx) in *.
    destruct (decide (current_pos ctx1 < gif_size ctx1
                      /\ rd (gif_data ctx1) (current_pos ctx1) = 249)) as [[Hp1 Hl] | Hn].
    - rewrite read_ext_graphic_control in E by done. inversion E; subst ctx2.
      destruct Hk as (Hkd & Hks & _).
      split; [by rewrite Hd | split; [by rewrite Hs |]].
      right. exists (set_current_pos (current_pos ctx1 + 1) ctx1).
      subst ctx1. cbn [gif_data gif_size current_pos set_current_pos] in *.
      assert (0 <= current_pos ctx) as Hp0.
      { destruct (Z.ltb_spec (current_pos ctx) 0) as [Hneg | ?]; [| done].
        unfold rd in Hb. destruct (Z.ltb_spec (current_pos ctx) 0); [done | lia]. }
      replace (current_pos ctx + 1 + 1 - 2) with (current_pos ctx) by lia.
      replace (current_pos ctx + 1 + 1 - 1) with (current_pos ctx + 1) by lia.
      split; [done |]. split; [done |]. split; [lia |]. done.
    - apply read_ext_not_graphic_control in E; [| intros Hp1 Hl; apply Hn; done].
      by apply (kept_other_fields ctx0 ctx1). }
  cbn [gif_next_frame_scan] in H.
  destruct (Z.ltb_spec (current_pos ctx) (gif_size ctx)); [| lia].
  rewrite read_byte_inside in H by done.
  destruct (Z.eqb_spec (rd (gif_data ctx) (current_pos ctx)) 59); [done |].
  destruct (Z.eqb_spec (rd (gif_data ctx) (current_pos ctx)) 33); [done |].
  destruct (_ =? 44); inversion H; subst; [done |].
  apply (kept_other_fields ctx0 (set_current_pos (current_pos ctx + 1) ctx));
    [by destruct (report_error_data (set_current_pos (current_pos ctx + 1) ctx)
                    GIF_ERROR_BAD_FILE "Unexpected byte in GIF stream.") as [-> _]
    | by destruct (report_error_data (set_current_pos (current_pos ctx + 1) ctx)
                    GIF_ERROR_BAD_FILE "Unexpected byte in GIF stream.") as [_ ->]
    | apply gce_state_report | done].
Qed.

Lemma next_frame_keeps_graphic_control c fuel ctx fb d ret ctx' fb' d' :
  gif_next_frame c fuel ctx fb d = Some (ret, ctx', fb', d') ->
  graphic_control_kept ctx ctx'
  /\ (ret = 1 ->
      exists c2, graphic_control_kept ctx c2
                 /\ gif_next_frame_image c fuel c2 fb d = Some (1, ctx', fb', d')
                 /\ gce_state ctx' = gce_state c2).
Proof.
  unfold gif_next_frame. intros H.
  assert (graphic_control_kept ctx ctx) as Hk0 by (split; [done | split; [done | by left]]).
  assert (exists ctx1, graphic_control_kept ctx ctx1 /\
    ((ret = 0 /\ ctx' = ctx1) \/
     (r ← gif_next_frame_scan fuel ctx1;
      match r with
      | scan_return ret ctx => Some (ret, ctx, fb, d)
      | scan_done ctx => gif_next_frame_image c fuel ctx fb d
      end) = Some (ret, ctx', fb', d'))) as (ctx1 & Hk1 & [[-> ->] | H1]);
    [| by split |].
  { destruct (gif_size ctx <=? current_pos ctx); [| eauto].
    destruct (gif_loop_again ctx) as [ctx1 |] eqn:E.
    - exists ctx1. split; [| by right].
      destruct (input_loop_again _ _ E) as [Hd Hs]. apply gce_state_loop_again in E.
      by apply (kept_other_fields ctx ctx).
    - exists ctx. split; [done | left]. by inversion H; subst. }
  destruct (gif_next_frame_scan fuel ctx1) as [r |] eqn:E;
    cbn [mbind option_bind] in H1; [| done].
  pose proof E as Hr. apply (scan_keeps_graphic_control ctx) in E; [| done].
  destruct r as [ret1 ctx2 | ctx2].
  { inversion H1; subst. split; [done |]. intros ->.
    by destruct (scan_return_values _ _ _ _ Hr). }
  destruct (input_image _ _ _ _ _ _ _ _ _ H1) as [Hd Hs].
  pose proof H1 as Hg. apply gce_state_image in Hg.
  split; [by apply (kept_other_fields ctx ctx2) |].
  intros ->. by exists ctx2.
Qed.

Lemma no_graphic_control_block ctx g :
  no_extension 249 (gif_data ctx) -> ~ set_by_graphic_control ctx g.
Proof.
  intros Hn (c & Hd & Hs & Hp & H33 & H249 & _).
  rewrite Hd in H33, H249.
  apply (Hn (current_pos c - 2)); [lia | done |].
  by replace (current_pos c - 2 + 1) with (current_pos c - 1) by lia.
Qed.

(** C4 (as the code has it).  The graphic-control state (disposal method,
    transparency flag, transparent index and delay) is never reset.  After
    any call of [gif_next_frame] it is what it was before the call or what
    a graphic-control block of the input (label bytes 0x21 0xF9) sets; a
    call that returns 1 has decoded its frame from a context of which the
    same holds, and the decoding leaves the state as it is.  When the input
    has no graphic-control block the call keeps the state, and so does a
    call that starts on the image separator.  In the scan an image
    separator ends the loop at once, an extension whose label is not 0xF9
    (comment, application, unknown, or cut short by the end of the input)
    and a trailer that rewinds keep the state and the loop goes on, and
    the rewind at the start of a call keeps the state too. *)
Theorem graphic_control_state_persists c_indet fuel ctx fb d ret ctx' fb' d' :
  gif_next_frame c_indet fuel ctx fb d = Some (ret, ctx', fb', d') ->
  graphic_control_kept ctx ctx'
  /\ (ret = 1 ->
      exists c2, graphic_control_kept ctx c2
                 /\ gif_next_frame_image c_indet fuel c2 fb d = Some (1, ctx', fb', d')
                 /\ gce_state ctx' = gce_state c2)
  /\ (no_extension 249 (gif_data ctx) -> gce_state ctx' = gce_state ctx)
  /\ (current_pos ctx < gif_size ctx -> rd (gif_data ctx) (current_pos ctx) = 44 ->
      disposal_method ctx' = disposal_method ctx
      /\ has_transparency ctx' = has_transparency ctx
      /\ transparent_index ctx' = transparent_index ctx
      /\ frame_delay_ms ctx' = frame_delay_ms ctx)
  /\ (forall n c1,
        current_pos c1 < gif_size c1 ->
        let c1' := set_current_pos (current_pos c1 + 1) c1 in
        (rd (gif_data c1) (current_pos c1) = 44 ->
         gif_next_frame_scan (S n) c1 = Some (scan_done c1'))
        /\ (rd (gif_data c1) (current_pos c1) = 33 ->
            (current_pos c1' < gif_size c1' ->
             rd (gif_data c1') (current_pos c1') <> 249) ->
            forall c2, gif_read_ext n c1' = Some c2 ->
                       gce_state c2 = gce_state c1
                       /\ gif_next_frame_scan (S n) c1 = gif_next_frame_scan n c2)
        /\ (rd (gif_data c1) (current_pos c1) = 59 ->
            forall c2, gif_loop_again c1' = Some c2 ->
                       gce_state c2 = gce_state c1
                       /\ gif_next_frame_scan (S n) c1 = gif_next_frame_scan n c2))
  /\ (forall c1 c2, gif_loop_again c1 = Some c2 -> gce_state c2 = gce_state c1).
Proof.
  intros H.
  destruct (next_frame_keeps_graphic_control _ _ _ _ _ _ _ _ _ H) as [Hk Hi].
  split; [done |]. split; [done |].
  split.
  { intros Hn. destruct Hk as (_ & _ & [Hg | Hg]); [done |].
    by destruct (no_graphic_control_block _ _ Hn Hg). }
  split.
  { intros Hp Hb.
    enough (gce_state ctx' = gce_state ctx) as Hg
      by (unfold gce_state in Hg; by simplify_eq).
    unfold gif_next_frame in H.
    destruct (gif_size ctx <=? current_pos ctx) eqn:E; [lia |].
    destruct fuel as [| fuel]; [done |].
    simpl in H. destruct (current_pos ctx <? gif_size ctx) eqn:E'; [| lia].
    unfold gif_read_byte_internal in H. rewrite E', Hb in H. simpl in H.
    apply gce_state_image in H. exact H. }
  split; [| apply gce_state_loop_again].
  intros n c1 Hp c1'. split; [| split].
  - intros Hb. cbn [gif_next_frame_scan].
    destruct (Z.ltb_spec (current_pos c1) (gif_size c1)); [| lia].
    rewrite read_byte_inside by done. by rewrite Hb.
  - intros Hb Hl c2 E. split.
    + by apply read_ext_not_graphic_control in E.
    + rewrite scan_at_extension by done. fold c1'. by rewrite E.
  - intros Hb c2 E. split.
    + by apply gce_state_loop_again in E.
    + rewrite scan_at_trailer by done. fold c1'. by rewrite E.
Qed.

Lemma graphic_control_state_persists_witness :
  let r1 := gif_next_frame 0 100 (open_gif gif_two_frames) (replicate 6 170) 0 in
  let r2 := call_again 0 100 r1 in
  call_ret r2 = Some 1
  /\ graphic_control_kept (call_ctx r1) (call_ctx r2)
  /\ gce_state (call_ctx r2) = (2, 1, 3, 50).
Proof.
  intros r1 r2.
  split; [vm_compute; reflexivity |].
  split; [| vm_compute; reflexivity].
  apply (graphic_control_state_persists 0 100 (call_ctx r1) (call_canvas r1)
           (call_delay r1) 1 (call_ctx r2) (call_canvas r2) (call_delay r2)).
  vm_compute. reflexivity.
Defined.

(** ** The default loop count *)

Lemma loop_again_default ctx :
  loop_count ctx = -1 -> gif_loop_again ctx = Some (gif_rewind ctx).
Proof. unfold gif_loop_again. by intros ->. Qed.

Lemma read_ext_keeps_loop_count fuel ctx ctx' :
  (current_pos ctx < gif_size ctx -> rd (gif_data ctx) (current_pos ctx) <> 255) ->
  gif_read_ext fuel ctx = Some ctx' -> loop_count ctx' = loop_count ctx.
Proof.
  intros Hl H. unfold gif_read_ext in H.
  pose proof (loop_count_read_byte ctx) as Hb.
  assert ((gif_read_byte_internal ctx).1 <> 255) as Hn.
  { unfold gif_read_byte_internal.
    destruct (Z.ltb_spec (current_pos ctx) (gif_size ctx)); cbn [fst]; [auto | done]. }
  destruct (gif_read_byte_internal ctx) as [label ctx1]. cbn [fst snd] in Hb, Hn.
  destruct (label =? 249).
  { inversion H; subst ctx'. rewrite <- Hb.
    apply (graphic_control_ext_preserves (fun x => loop_count x = loop_count ctx1));
      try done; try (intros; assumption).
    intros x e m Hx. by rewrite loop_count_report. }
  destruct (Z.eqb_spec label 255); [done |].
  apply loop_count_discard in H. by rewrite H, loop_count_report.
Qed.

Lemma image_keeps_loop_count c fuel ctx fb d ret ctx' fb' d' :
  gif_next_frame_image c fuel ctx fb d = Some (ret, ctx', fb', d') ->
  loop_count ctx' = loop_count ctx.
Proof.
  intros H.
  apply (gif_next_frame_image_preserves (fun x => loop_count x = loop_count ctx)) in H;
    try done; try (intros; assumption).
  - intros x Hx. by rewrite loop_count_read_byte.
  - intros x len Hx. unfold gif_read_bytes_internal. by destruct (_ >? 0).
  - intros x len Hx. by rewrite loop_count_skip.
  - intros x e m Hx. by rewrite loop_count_report.
Qed.

(** The image stage returns 0 only from its first test, [if (ctx->current_pos
    >= ctx->gif_size) return 0]. *)
Lemma image_returns_zero c fuel ctx fb d ctx' fb' d' :
  gif_next_frame_image c fuel ctx fb d = Some (0, ctx', fb', d') ->
  ctx' = ctx /\ gif_size ctx <= current_pos ctx.
Proof.
  intros H. cbv beta delta [gif_next_frame_image] in H.
  destruct (Z.leb_spec (gif_size ctx) (current_pos ctx)); [by inversion H; subst |].
  exfalso.
  name_let H c1. clearbody c1. name_let H c2. clearbody c2.
  name_let H c3. clearbody c3. name_let H c4. clearbody c4.
  name_let H c5. clearbody c5. name_let H c6. clearbody c6.
  name_let H c7. clearbody c7. name_let H c8. clearbody c8.
  clear c1 c2 c3 c4 c5 c6 c7.
  destruct (_ || _) in H; [by inversion H |].
  destruct (_ || _) in H; [by inversion H |].
  destruct (gif_read_byte_internal c8) as [fisrz c9].
  name_let H c10. clearbody c10. cbv zeta in H.
  destruct (_ && _) in H; [by inversion H |].
  match type of H with context [if ?b then gif_read_bytes_internal ?x ?n else ?e] =>
    destruct (if b then gif_read_bytes_internal x n else e) as [[n' bytes] c11] end.
  destruct (_ <? _) in H; [by inversion H |].
  match type of H with context [gif_read_byte_internal ?x] =>
    destruct (gif_read_byte_internal x) as [ss c13] end.
  destruct (gif_decode_lzw _ _ _ _) as [[[r c14] fb14] |];
    cbn [mbind option_bind] in H; [| done].
  destruct (negb _); by inversion H.
Qed.

Lemma scan_keeps_default_loop_count data size fuel : forall ctx r,
  no_extension 255 data ->
  gif_data ctx = data -> gif_size ctx = size -> loop_count ctx = -1 ->
  gif_next_frame_scan fuel ctx = Some r ->
  match r with
  | scan_return ret ctx' =>
      ret = -1 /\ gif_data ctx' = data /\ gif_size ctx' = size /\ loop_count ctx' = -1
  | scan_done ctx' => gif_data ctx' = data /\ gif_size ctx' = size /\ loop_count ctx' = -1
  end.
Proof.
  induction fuel as [| fuel IH]; intros ctx r Hn Hd Hs Hl H; [done |].
  destruct (Z.ltb_spec (current_pos ctx) (gif_size ctx)) as [Hp | Hp].
  2: { cbn [gif_next_frame_scan] in H.
       destruct (Z.ltb_spec (current_pos ctx) (gif_size ctx)); [lia |].
       by inversion H; subst. }
  destruct (decide (rd (gif_data ctx) (current_pos ctx) = 59)) as [Hb | Hb59].
  { rewrite scan_at_trailer in H by done.
    rewrite loop_again_default in H by done.
    by apply IH in H. }
  destruct (decide (rd (gif_data ctx) (current_pos ctx) = 33)) as [Hb | Hb33].
  { rewrite scan_at_extension in H by done.
    destruct (gif_read_ext fuel _) as [ctx2 |] eqn:E; cbn [mbind option_bind] in H;
      [| done].
    destruct (input_read_ext _ _ _ E) as [Hd2 Hs2].
    apply read_ext_keeps_loop_count in E.
    - apply IH in H; try done; [by rewrite Hd2 | by rewrite Hs2 | by rewrite E].
    - cbn [gif_data gif_size current_pos set_current_pos]. intros _.
      rewrite Hd in *. apply Hn; [| done].
      destruct (Z.ltb_spec (current_pos ctx) 0) as [Hneg | ?]; [| done].
      unfold rd in Hb. destruct (Z.ltb_spec (current_pos ctx) 0); [done | lia]. }
  cbn [gif_next_frame_scan] in H.
  destruct (Z.ltb_spec (current_pos ctx) (gif_size ctx)); [| lia].
  rewrite read_byte_inside in H by done.
  destruct (Z.eqb_spec (rd (gif_data ctx) (current_pos ctx)) 59); [done |].
  destruct (Z.eqb_spec (rd (gif_data ctx) (current_pos ctx)) 33); [done |].
  destruct (_ =? 44); inversion H; subst; [done |].
  split; [done |].
  destruct (report_error_data (set_current_pos (current_pos ctx + 1) ctx)
              GIF_ERROR_BAD_FILE "Unexpected byte in GIF stream.") as [-> ->].
  by rewrite loop_count_report.
Qed.

Lemma next_frame_keeps_default_loop_count c fuel ctx fb d ret ctx' fb' d' :
  no_extension 255 (gif_data ctx) -> loop_count ctx = -1 ->
  gif_next_frame c fuel ctx fb d = Some (ret, ctx', fb', d') ->
  gif_data ctx' = gif_data ctx /\ loop_count ctx' = -1
  /\ (ret = 0 -> gif_size ctx' <= current_pos ctx').
Proof.
  intros Hn Hl H. unfold gif_next_frame in H.
  rewrite loop_again_default in H by done.
  assert (exists ctx1, gif_data ctx1 = gif_data ctx /\ gif_size ctx1 = gif_size ctx
                       /\ loop_count ctx1 = -1 /\
     (r ← gif_next_frame_scan fuel ctx1;
      match r with
      | scan_return ret ctx => Some (ret, ctx, fb, d)
      | scan_done ctx => gif_next_frame_image c fuel ctx fb d
      end) = Some (ret, ctx', fb', d')) as (ctx1 & Hd1 & Hs1 & Hl1 & H1).
  { destruct (gif_size ctx <=? current_pos ctx); [exists (gif_rewind ctx) | exists ctx];
      done. }
  clear H.
  destruct (gif_next_frame_scan fuel ctx1) as [r |] eqn:E;
    cbn [mbind option_bind] in H1; [| done].
  apply (scan_keeps_default_loop_count (gif_data ctx) (gif_size ctx)) in E; try done.
  destruct r as [ret1 ctx2 | ctx2].
  { inversion H1; subst. destruct E as (-> & Hd2 & _ & Hl2). done. }
  destruct E as (Hd2 & Hs2 & Hl2).
  destruct (input_image _ _ _ _ _ _ _ _ _ H1) as [Hd Hs].
  pose proof (image_keeps_loop_count _ _ _ _ _ _ _ _ _ H1) as Hl'.
  split; [by rewrite Hd |]. split; [by rewrite Hl' |].
  intros ->. by destruct (image_returns_zero _ _ _ _ _ _ _ _ H1) as [-> ?].
Qed.

Lemma init_defaults ctx0 data size scratch scratch_size ctx :
  gif_init ctx0 data size scratch scratch_size = (GIF_SUCCESS, ctx) ->
  loop_count ctx = -1 /\ gce_state ctx = (0, 0, 0, 0).
Proof.
  unfold gif_init. intros H.
  destruct (size =? 0); [by inversion H |].
  destruct (scratch_size <? _); [by inversion H |].
  set (c0 := gif_init_context (callback_calls ctx0) data size scratch) in H.
  assert (loop_count c0 = -1 /\ gce_state c0 = (0, 0, 0, 0)) as H0 by done.
  clearbody c0.
  assert (loop_count (gif_read_bytes_internal c0 13).2 = -1
          /\ gce_state (gif_read_bytes_internal c0 13).2 = (0, 0, 0, 0)) as H1
    by (unfold gif_read_bytes_internal; by destruct (_ >? 0)).
  destruct (gif_read_bytes_internal c0 13) as [[n bytes] c1]. cbn [snd] in H1.
  destruct (_ <? 13) in H; [by inversion H |].
  destruct (_ || _) in H; [by inversion H |].
  destruct (_ && _) in H; [by inversion H |].
  match type of H with context [if ?b then gif_read_bytes_internal ?x ?n else ?e] =>
    assert (loop_count (if b then gif_read_bytes_internal x n else e).2 = -1
            /\ gce_state (if b then gif_read_bytes_internal x n else e).2 = (0, 0, 0, 0))
      as H2
      by (destruct b; [| exact H1];
          unfold gif_read_bytes_internal; destruct (_ >? 0); exact H1);
    destruct (if b then gif_read_bytes_internal x n else e) as [[n' bytes'] c2] end.
  cbn [snd] in H2.
  destruct (_ <? _) in H; [by inversion H |].
  inversion H; subst. exact H2.
Qed.

Lemma reachable_defaults ctx :
  reachable ctx ->
  (no_extension 255 (gif_data ctx) -> loop_count ctx = -1)
  /\ (no_extension 249 (gif_data ctx) -> gce_state ctx = (0, 0, 0, 0)).
Proof.
  induction 1 as [ctx0 data size scratch ssize ctx Hsz Hi
                 | c fuel ctx fb d ret ctx' fb' d' Hr [IH1 IH2] Hc
                 | ctx Hr IH | ctx cb Hr IH].
  - destruct (init_defaults _ _ _ _ _ _ Hi). done.
  - destruct (next_frame_keeps_graphic_control _ _ _ _ _ _ _ _ _ Hc)
      as [(Hd & Hs & Hg) _].
    rewrite Hd. split.
    + intros Hn. by destruct (next_frame_keeps_default_loop_count _ _ _ _ _ _ _ _ _
                                Hn (IH1 Hn) Hc) as (_ & ? & _).
    + intros Hn. destruct Hg as [Hg | Hg]; [rewrite Hg; auto |].
      by destruct (no_graphic_control_block _ _ Hn Hg).
  - exact IH.
  - exact IH.
Qed.

Lemma no_introducer_no_extension label (data : list Z) :
  Forall (fun b => b <> 33) data -> no_extension label data.
Proof.
  intros H i _ Hb. exfalso. unfold rd in Hb.
  destruct (i <? 0); [done |].
  destruct (data !! Z.to_nat i) as [b |] eqn:E; simpl in Hb; [| done].
  by apply (Forall_lookup_1 _ _ _ _ H E).
Qed.

(** C3 (as the code has it).  In every state reached from a successful
    [gif_init] on an input without application extension (no bytes 0x21
    0xFF; the code takes the loop count from any application extension of
    the expected sizes and does not compare its identifier), [loop_count]
    is the default -1 that [gif_init] sets.  With it the end of the input
    at the start of a call and the trailer in the scan rewind to the first
    frame and the call goes on; a call leaves a state of the same kind,
    and it returns 0 only with the cursor at the end of the input where a
    block was expected, never because the animation has finished.  When
    the input has no graphic-control extension either, a call that
    returns 1 gives [delay_ms = 0].  On the minimal 1x1 GIF the first call
    returns 1 with [delay_ms = 0], and so does every later call. *)
Theorem default_loop_count_plays_forever ctx :
  reachable ctx -> no_extension 255 (gif_data ctx) ->
  loop_count ctx = -1
  /\ gif_loop_again ctx = Some (gif_rewind ctx)
  /\ (forall n c1,
        loop_count c1 = -1 -> current_pos c1 < gif_size c1 ->
        rd (gif_data c1) (current_pos c1) = 59 ->
        gif_next_frame_scan (S n) c1
        = gif_next_frame_scan n (gif_rewind (set_current_pos (current_pos c1 + 1) c1)))
  /\ (forall c_indet fuel fb d ret ctx' fb' d',
        gif_next_frame c_indet fuel ctx fb d = Some (ret, ctx', fb', d') ->
        reachable ctx' /\ no_extension 255 (gif_data ctx') /\ loop_count ctx' = -1
        /\ (ret = 0 -> gif_size ctx' <= current_pos ctx')
        /\ (ret = 1 -> no_extension 249 (gif_data ctx) -> d' = 0))
  /\ (forall c_indet fb d n,
        call_ret (gif_next_frame c_indet 100 (open_gif gif_minimal) fb d) = Some 1
        /\ call_delay (gif_next_frame c_indet 100 (open_gif gif_minimal) fb d) = 0
        /\ play c_indet 100 n (open_gif gif_minimal) fb d = Some (replicate n 1)).
Proof.
  intros Hr Hn.
  destruct (reachable_defaults ctx Hr) as [Hl Hg]. specialize (Hl Hn).
  split; [done |]. split; [by apply loop_again_default |].
  split.
  { intros n c1 Hl1 Hp Hb. rewrite scan_at_trailer by done.
    by rewrite loop_again_default. }
  split.
  { intros c fuel fb d ret ctx' fb' d' H.
    destruct (next_frame_keeps_default_loop_count _ _ _ _ _ _ _ _ _ Hn Hl H)
      as (Hd & Hl' & H0).
    split; [by eapply reachable_next_frame |].
    split; [by rewrite Hd |]. split; [done |]. split; [done |].
    intros -> Hn9.
    destruct (next_frame_outcomes_not_null _ _ _ _ _ _ _ _ _ H)
      as [(_ & -> & _) | [(? & _) | (? & _)]]; [| done | done].
    destruct (next_frame_keeps_graphic_control _ _ _ _ _ _ _ _ _ H)
      as [(_ & _ & [Hk | Hk]) _].
    - specialize (Hg Hn9). rewrite <- Hk in Hg. unfold gce_state in Hg. by simplify_eq.
    - by destruct (no_graphic_control_block _ _ Hn9 Hk). }
  intros c fb d n. rewrite minimal_gif_first. split; [done |]. split; [done |].
  destruct n as [| n]; [done |].
  cbn [play]. rewrite minimal_gif_first. cbn [mbind option_bind].
  rewrite minimal_gif_play_later. done.
Qed.

Lemma default_loop_count_witness :
  let ctx := open_gif gif_minimal in
  let r1 := gif_next_frame 0 100 ctx (replicate 3 170) 0 in
  let r2 := call_again 0 100 r1 in
  loop_count ctx = -1
  /\ call_ret r1 = Some 1 /\ call_delay r1 = 0 /\ loop_count (call_ctx r1) = -1
  /\ call_ret r2 = Some 1.
Proof.
  intros ctx r1 r2.
  assert (reachable ctx) as Hr.
  { apply reachable_set_error_callback.
    apply (reachable_init (zeroed_context []) gif_minimal 35 scratch_zero
             GIF_SCRATCH_BUFFER_REQUIRED_SIZE); [lia |].
    vm_compute. reflexivity. }
  assert (no_extension 255 (gif_data ctx)) as Hn.
  { apply no_introducer_no_extension. vm_compute.
    repeat (apply Forall_cons; split; [discriminate |]). apply Forall_nil_2. }
  destruct (default_loop_count_plays_forever ctx Hr Hn) as (Hl & _ & _ & Hc & _).
  split; [exact Hl |].
  assert (call_ret r1 = Some 1) as H1 by (vm_compute; reflexivity).
  assert (call_delay r1 = 0) as H2 by (vm_compute; reflexivity).
  assert (call_ret r2 = Some 1) as H3 by (vm_compute; reflexivity).
  split; [exact H1 |]. split; [exact H2 |]. split; [| exact H3].
  apply (Hc 0 100%nat (replicate 3 170) 0 1 (call_ctx r1) (call_canvas r1) (call_delay r1)).
  vm_compute. reflexivity.
Defined.

(** ** Where an LZW stream ends *)













